(** * A grid world of cells, agents and actions

    Shallow embedding of [gridworld.py] (classes [GridPoint], [GridWorld])
    and [gridagents.py] (classes [GridObject], [Action], [GridAgent]).

    Python objects are mutable and shared: a cell is reached through the
    world's grid and through the neighbour slots of other cells.  Cells
    therefore live in a store indexed by references, and every method takes
    the store and the reference of [self]; agents live in a second store.
    A call either returns or raises: see [outcome]. *)

From Stdlib Require Import ZArith Lia.
From stdpp Require Import base decidable option list functions gmap strings.

Local Open Scope Z_scope.

(** ** Python values shared by all classes *)

Inductive exn : Type :=
  | IndexError
  | ValueError
  | KeyError
  | AttributeError.

Inductive outcome (A : Type) : Type :=
  | Ok (a : A)
  | Raise (e : exn).
Arguments Ok {A} a.
Arguments Raise {A} e.

Definition bind {A B : Type} (m : outcome A) (k : A -> outcome B) : outcome B :=
  match m with
  | Ok a => k a
  | Raise e => Raise e
  end.

Notation "'do' x <- m ; k" := (bind m (fun x => k))
  (at level 10, x name, m at level 100, k at level 200).
Notation "'do' ' p <- m ; k" := (bind m (fun p => k))
  (at level 10, p pattern, m at level 100, k at level 200).

(** References to cells, identities of grid objects and of worlds. *)
Abbreviation ref := nat (only parsing).
Abbreviation obj := nat (only parsing).
Abbreviation world_id := nat (only parsing).

(** [len(l)] as a Python integer. *)
Definition len {A : Type} (l : list A) : Z := Z.of_nat (length l).

(** [l[i]]: indices from [-len(l)] to [len(l) - 1], anything else raises. *)
Definition py_getitem {A : Type} (l : list A) (i : Z) : outcome A :=
  let j := if bool_decide (i < 0) then len l + i else i in
  if bool_decide (j < 0) then Raise IndexError
  else match l !! Z.to_nat j with
       | Some a => Ok a
       | None => Raise IndexError
       end.

(** [l[i] = v]. *)
Definition py_setitem {A : Type} (l : list A) (i : Z) (v : A) : outcome (list A) :=
  let j := if bool_decide (i < 0) then len l + i else i in
  if bool_decide (j < 0 ∨ len l <= j) then Raise IndexError
  else Ok (<[Z.to_nat j := v]> l).

(** [l.remove(v)]: drops the first [v]; [None] stands for the [ValueError]
    of a list without [v]. *)
Fixpoint py_remove (v : nat) (l : list nat) : option (list nat) :=
  match l with
  | [] => None
  | a :: l' => if bool_decide (a = v) then Some l'
               else cons a <$> py_remove v l'
  end.

(** [v in l]. *)
Definition py_in (v : nat) (l : list nat) : bool := bool_decide (v ∈ l).

(** ** class GridPoint *)

Module GridPoint.

Record t : Type := mk {
  x : Z;
  y : Z;
  _label : option string;
  _maxOccupants : Z;
  _occupants : list obj;
  _parent : world_id;
  _neighbours : list (option ref)
}.

Definition with_occupants (c : t) (l : list obj) : t :=
  mk (x c) (y c) (_label c) (_maxOccupants c) l (_parent c) (_neighbours c).

Definition with_neighbours (c : t) (n : list (option ref)) : t :=
  mk (x c) (y c) (_label c) (_maxOccupants c) (_occupants c) (_parent c) n.

Definition with_label (c : t) (l : option string) : t :=
  mk (x c) (y c) l (_maxOccupants c) (_occupants c) (_parent c) (_neighbours c).

(** The store of cells. *)
Abbreviation heap := (ref -> t) (only parsing).

(** [__init__]: the occupant list starts empty whatever [occupants] is
    passed; the neighbour list is [[N, E, S, W]]. *)
Definition init (parent : world_id) (px py : Z) (max_occupants : Z)
    (label : option string) (N S E W : option ref) : t :=
  mk px py label max_occupants [] parent [N; E; S; W].

Definition occupants (c : t) : list obj := _occupants c.

Definition occupied (c : t) : bool :=
  bool_decide (len (_occupants c) >= _maxOccupants c).

Definition capacity (c : t) : Z := _maxOccupants c.

Definition label (c : t) : option string := _label c.

Definition addNeighbour (hp : heap) (self : ref) (neighbour : ref)
    (direction : Z) : outcome heap :=
  if bool_decide (direction > 3 ∨ direction < 0) then Raise IndexError
  else if bool_decide (len (_neighbours (hp self)) < 3) then Raise ValueError
  else
    do nbs <- py_setitem (_neighbours (hp self)) direction (Some neighbour);
    Ok (<[self := with_neighbours (hp self) nbs]> hp).

Definition placeOccupant (hp : heap) (self : ref) (parent : world_id)
    (occupant : obj) : heap * bool :=
  if bool_decide (parent ≠ _parent (hp self)) || occupied (hp self)
  then (hp, false)
  else (<[self := with_occupants (hp self) (_occupants (hp self) ++ [occupant])]> hp,
        true).

Definition removeOccupant (hp : heap) (self : ref) (parent : world_id)
    (occupant : obj) : heap * option obj :=
  if bool_decide (parent ≠ _parent (hp self))
     || negb (py_in occupant (_occupants (hp self)))
  then (hp, None)
  else (hp, Some occupant).

Definition setLabel (hp : heap) (self : ref) (newLabel : string) : heap :=
  <[self := with_label (hp self) (Some newLabel)]> hp.

Definition clearLabel (hp : heap) (self : ref) : heap :=
  <[self := with_label (hp self) None]> hp.

Definition canGo (hp : heap) (self : ref) (direction : Z) : outcome bool :=
  do neighbour <- py_getitem (_neighbours (hp self)) direction;
  match neighbour with
  | None => Ok false
  | Some n => Ok (negb (occupied (hp n)))
  end.

Definition occupy (hp : heap) (self : ref) (occupant : obj)
    (origin : Z * Z) : heap * option ref :=
  if bool_decide (Z.abs (origin.1 - x (hp self)) > 1
                  ∨ Z.abs (origin.2 - y (hp self)) > 1)
  then (hp, None)
  else if bool_decide (len (_occupants (hp self)) > _maxOccupants (hp self))
  then (hp, None)
  else (<[self := with_occupants (hp self) (_occupants (hp self) ++ [occupant])]> hp,
        Some self).

(** [self._occupants.remove(occupant)]; [vacate] calls it only after the
    membership test, so the [ValueError] is never raised there. *)
Definition remove_occupant (hp : heap) (self : ref) (occupant : obj)
    : outcome heap :=
  match py_remove occupant (_occupants (hp self)) with
  | Some l => Ok (<[self := with_occupants (hp self) l]> hp)
  | None => Raise ValueError
  end.

(** The two [print] calls of the first branch are output only. *)
Definition vacate (hp : heap) (self : ref) (occupant : obj)
    (direction : option Z) : outcome (heap * option ref) :=
  if negb (py_in occupant (_occupants (hp self))) then Ok (hp, None)
  else match direction with
  | None =>
      do hp1 <- remove_occupant hp self occupant;
      Ok (hp1, None)
  | Some d =>
      do nb <- py_getitem (_neighbours (hp self)) d;
      match nb with
      | None => Ok (hp, Some self)
      | Some n =>
          if occupied (hp n) then Ok (hp, Some self)
          else
            do hp1 <- remove_occupant hp self occupant;
            let '(hp2, got) :=
              occupy hp1 n occupant (x (hp1 self), y (hp1 self)) in
            match got with
            | None => Ok (hp2, Some self)
            | Some r => Ok (hp2, Some r)
            end
      end
  end.

End GridPoint.

(** ** class Action *)

Module Action.

Record t : Type := mk {
  agent : obj;
  actionCode : Z;
  actionDirection : Z;
  actedUpon : option obj;
  x : Z;
  y : Z
}.

Definition inaction : Z := -1.
Definition move : Z := 0.

(** [__init__]: [agent_x] and [agent_y] are [agent.x] and [agent.y] read
    when the action is built. *)
Definition init (agent : obj) (agent_x agent_y : Z) (code : Z)
    (target : option obj) (direction : Z) : t :=
  mk agent code direction target agent_x agent_y.

End Action.

(** ** classes GridObject and GridAgent

    One record holds the attributes of an instance; [cls] is its class, on
    which the attribute assignment [self.name = value] dispatches.  The
    attributes that only [GridAgent.__init__] creates are not read by the
    methods of [GridObject]. *)

Module GridObject.

Inductive class : Type := GridObject_class | GridAgent_class.

Record t : Type := mk {
  cls : class;
  _objectName : string;
  _objectID : nat;
  _static : bool;
  x : Z;
  y : Z;
  _world : option world_id;
  (* [None]: the attribute does not exist *)
  _currentAction : option Action.t;
  owned : list obj;
  _map : gmap (Z * Z) (gmap (Z * Z) Z);
  _frontier : option (list (Z * Z));
  _backtrack : list (Z * Z)
}.

(** An attribute name together with the value assigned to it. *)
Inductive attr : Type :=
  | At_objectName (v : string)
  | At_objectID (v : nat)
  | At_static (v : bool)
  | At_x (v : Z)
  | At_y (v : Z)
  | At_world (v : option world_id)
  | At_currentAction (v : Action.t)
  | At_owned (v : list obj)
  | At_map (v : gmap (Z * Z) (gmap (Z * Z) Z))
  | At_frontier (v : option (list (Z * Z)))
  | At_backtrack (v : list (Z * Z)).

Definition attr_name (a : attr) : string :=
  match a with
  | At_objectName _ => "_objectName"
  | At_objectID _ => "_objectID"
  | At_static _ => "_static"
  | At_x _ => "x"
  | At_y _ => "y"
  | At_world _ => "_world"
  | At_currentAction _ => "_currentAction"
  | At_owned _ => "owned"
  | At_map _ => "_map"
  | At_frontier _ => "_frontier"
  | At_backtrack _ => "_backtrack"
  end.

(** [object.__setattr__(self, name, value)]: the unguarded assignment. *)
Definition object_setattr (s : t) (a : attr) : t :=
  match a with
  | At_objectName v =>
      mk (cls s) v (_objectID s) (_static s) (x s) (y s) (_world s)
         (_currentAction s) (owned s) (_map s) (_frontier s) (_backtrack s)
  | At_objectID v =>
      mk (cls s) (_objectName s) v (_static s) (x s) (y s) (_world s)
         (_currentAction s) (owned s) (_map s) (_frontier s) (_backtrack s)
  | At_static v =>
      mk (cls s) (_objectName s) (_objectID s) v (x s) (y s) (_world s)
         (_currentAction s) (owned s) (_map s) (_frontier s) (_backtrack s)
  | At_x v =>
      mk (cls s) (_objectName s) (_objectID s) (_static s) v (y s) (_world s)
         (_currentAction s) (owned s) (_map s) (_frontier s) (_backtrack s)
  | At_y v =>
      mk (cls s) (_objectName s) (_objectID s) (_static s) (x s) v (_world s)
         (_currentAction s) (owned s) (_map s) (_frontier s) (_backtrack s)
  | At_world v =>
      mk (cls s) (_objectName s) (_objectID s) (_static s) (x s) (y s) v
         (_currentAction s) (owned s) (_map s) (_frontier s) (_backtrack s)
  | At_currentAction v =>
      mk (cls s) (_objectName s) (_objectID s) (_static s) (x s) (y s) (_world s)
         (Some v) (owned s) (_map s) (_frontier s) (_backtrack s)
  | At_owned v =>
      mk (cls s) (_objectName s) (_objectID s) (_static s) (x s) (y s) (_world s)
         (_currentAction s) v (_map s) (_frontier s) (_backtrack s)
  | At_map v =>
      mk (cls s) (_objectName s) (_objectID s) (_static s) (x s) (y s) (_world s)
         (_currentAction s) (owned s) v (_frontier s) (_backtrack s)
  | At_frontier v =>
      mk (cls s) (_objectName s) (_objectID s) (_static s) (x s) (y s) (_world s)
         (_currentAction s) (owned s) (_map s) v (_backtrack s)
  | At_backtrack v =>
      mk (cls s) (_objectName s) (_objectID s) (_static s) (x s) (y s) (_world s)
         (_currentAction s) (owned s) (_map s) (_frontier s) v
  end.

(** [GridObject.__setattr__] *)
Definition __setattr__ (s : t) (a : attr) : t :=
  if bool_decide (attr_name a ∉ ["_objectName"; "_objectID"; "_world"; "_static"])
  then object_setattr s a
  else s.

End GridObject.

Module GridAgent.

(** [GridAgent.__setattr__] *)
Definition __setattr__ (s : GridObject.t) (a : GridObject.attr) : GridObject.t :=
  if bool_decide (GridObject.attr_name a ≠ "_currentAction")
  then GridObject.__setattr__ s a
  else s.

End GridAgent.

(** [self.name = value]: the [__setattr__] of the instance's class. *)
Definition setattr (s : GridObject.t) (a : GridObject.attr) : GridObject.t :=
  match GridObject.cls s with
  | GridObject.GridObject_class => GridObject.__setattr__ s a
  | GridObject.GridAgent_class => GridAgent.__setattr__ s a
  end.

(** The remaining methods of [GridObject]. *)
Module GridObjectMethods.
Import GridObject.

(** A new instance of class [c] before [__init__] has run. *)
Definition blank (c : class) : t :=
  mk c "" 0%nat false 0 0 None None [] ∅ None [].

(** [__init__]; [fresh] is the identifier that [uuid.uuid4().hex] draws
    when no [obj_id] is given. *)
Definition init (c : class) (fresh : nat) (name : string)
    (obj_id : option nat) (world : option world_id) (px py : Z) : t :=
  let s := object_setattr (blank c) (At_objectName name) in
  let s := match obj_id with
           | None => object_setattr s (At_objectID fresh)
           | Some i => object_setattr s (At_objectID i)
           end in
  let s := object_setattr s (At_static false) in
  let s := setattr s (At_x px) in
  let s := setattr s (At_y py) in
  object_setattr s (At_world world).

Definition objectName (s : t) : string := _objectName s.

Definition objectID (s : t) : nat := _objectID s.

Definition embed (s : t) (world : option world_id) : t :=
  setattr s (At_world world).

Definition place (s : t) (world : option world_id) (px py : Z) : t :=
  let s := if bool_decide (_world s = None)
           then setattr s (At_world world) else s in
  if bool_decide (_world s = world)
  then setattr (setattr s (At_x px)) (At_y py)
  else s.

End GridObjectMethods.

(** The methods of [GridAgent]. *)
Module GridAgentMethods.
Import GridObject.

(** [__init__]: the name passed on is always ["agent"]. *)
Definition init (self : obj) (fresh : nat) (name : string)
    (obj_id : option nat) (world : option world_id) (px py : Z) : t :=
  let s := GridObjectMethods.init GridAgent_class fresh "agent" obj_id world px py in
  let s := setattr s (At_currentAction (Action.init self (x s) (y s) (-1) None 0)) in
  let s := setattr s (At_owned []) in
  let s := setattr s (At_map ∅) in
  let s := setattr s (At_frontier (Some [(x s, y s)])) in
  setattr s (At_backtrack []).

(** [actionResult]: [result] is the cell returned by the world, or [None]. *)
Definition actionResult (hp : GridPoint.heap) (s : t) (result : option ref)
    : outcome t :=
  match _currentAction s with
  | None => Raise AttributeError
  | Some act =>
      if bool_decide (Action.actionCode act >= 0) then
        if bool_decide (Action.actionCode act = 0) then
          match result with
          | None => Raise ValueError
          | Some c =>
              let s := setattr s (At_x (GridPoint.x (hp c))) in
              Ok (setattr s (At_y (GridPoint.y (hp c))))
          end
        else Ok s
      else Ok s
  end.

(** [chooseAction]; [rnd] is the value of
    [round(numpy.random.uniform(-0.49999,3.5))] for this call. *)
Definition chooseAction (self : obj) (s : t) (world : option world_id)
    (px py : Z) (occupants : list obj) (rnd : Z) : t * Action.t :=
  if bool_decide (world ≠ _world s) then
    let act := Action.init self (x s) (y s) (-1) None 0 in
    (GridObject.__setattr__ s (At_currentAction act), act)
  else
    let act := Action.init self (x s) (y s) Action.move None rnd in
    (GridObject.__setattr__ s (At_currentAction act), act).

End GridAgentMethods.

(** ** class GridWorld *)

(** [range(n)] *)
Definition range (n : Z) : list Z := seqZ 0 n.

(** [d[k]] on a dictionary. *)
Definition dict_get `{Countable K} {V : Type} (d : gmap K V) (k : K) : outcome V :=
  match d !! k with
  | Some v => Ok v
  | None => Raise KeyError
  end.

(** A dictionary whose iteration order matters: its items in insertion
    order, each key once.  [d[k]], [d[k] = v] (a new key goes last, a known
    key keeps its place) and [d.keys()]. *)
Fixpoint odict_get {V : Type} (d : list (nat * V)) (k : nat) : outcome V :=
  match d with
  | [] => Raise KeyError
  | (k', v) :: d' => if bool_decide (k' = k) then Ok v else odict_get d' k
  end.

Fixpoint odict_set {V : Type} (d : list (nat * V)) (k : nat) (v : V)
    : list (nat * V) :=
  match d with
  | [] => [(k, v)]
  | (k', v') :: d' =>
      if bool_decide (k' = k) then (k, v) :: d' else (k', v') :: odict_set d' k v
  end.

Definition odict_keys {V : Type} (d : list (nat * V)) : list nat := d.*1.

(** A [for] loop over [l] whose body updates a state and may raise. *)
Fixpoint foldM {A S : Type} (f : S -> A -> outcome S) (s : S) (l : list A) : outcome S :=
  match l with
  | [] => Ok s
  | a :: l' => do s' <- f s a; foldM f s' l'
  end.

Module GridWorld.

Record t : Type := mk {
  (* the identity of the instance, compared by [parent != self._parent] *)
  self_id : world_id;
  _time : Z;
  _maxTime : Z;
  _waitTime : Z;
  _grid : list (list ref);
  (* [objectID -> [col, row, agent]], in the order of registration *)
  _agents : list (nat * (Z * Z * obj))
}.

Definition Nowhere : Z := -1.
Definition North : Z := 0.
Definition East : Z := 1.
Definition South : Z := 2.
Definition West : Z := 3.

(** The element expression of the grid comprehension: one of the three
    [GridPoint(...)] calls, by the arguments that are not [None]. *)
Definition new_point (wid : world_id) (points occupants : option (gmap (Z * Z) Z))
    (px py : Z) : outcome GridPoint.t :=
  match points with
  | None => Ok (GridPoint.init wid px py 1 None None None None None)
  | Some pts =>
      match occupants with
      | None =>
          do cap <- dict_get pts (px, py);
          Ok (GridPoint.init wid px py cap None None None None None)
      | Some occ =>
          do cap <- dict_get pts (px, py);
          do _ <- dict_get occ (px, py);
          Ok (GridPoint.init wid px py cap None None None None None)
      end
  end.

(** [GridPoint(...)] stores the new cell at the next free reference; the
    state of the allocation is the store and that reference. *)
Definition alloc (st : GridPoint.heap * ref) (c : GridPoint.t)
    : (GridPoint.heap * ref) * ref :=
  ((<[st.2 := c]> st.1, S st.2), st.2).

(** The inner comprehension [[GridPoint(...) for x in range(w)]]. *)
Fixpoint new_row (wid : world_id) (points occupants : option (gmap (Z * Z) Z))
    (st : GridPoint.heap * ref) (py : Z) (xs : list Z)
    : outcome ((GridPoint.heap * ref) * list ref) :=
  match xs with
  | [] => Ok (st, [])
  | px :: xs' =>
      do c <- new_point wid points occupants px py;
      let '(st, r) := alloc st c in
      do '(st, rs) <- new_row wid points occupants st py xs';
      Ok (st, r :: rs)
  end.

(** The outer comprehension [[[...] for y in range(h)]]. *)
Fixpoint new_grid (wid : world_id) (points occupants : option (gmap (Z * Z) Z))
    (st : GridPoint.heap * ref) (w : Z) (ys : list Z)
    : outcome ((GridPoint.heap * ref) * list (list ref)) :=
  match ys with
  | [] => Ok (st, [])
  | py :: ys' =>
      do '(st, r) <- new_row wid points occupants st py (range w);
      do '(st, rs) <- new_grid wid points occupants st w ys';
      Ok (st, r :: rs)
  end.

Definition cell_at (grid : list (list ref)) (row col : Z) : outcome ref :=
  do r <- py_getitem grid row;
  py_getitem r col.

(** One of the four [if ... : addNeighbour(...)] statements of the loop
    body; [guard] is the left operand of its [and]. *)
Definition link (grid : list (list ref)) (hp : GridPoint.heap)
    (row col : Z) (guard : bool) (nrow ncol : Z) (direction : Z)
    : outcome GridPoint.heap :=
  if guard then
    do n <- cell_at grid nrow ncol;
    if bool_decide (GridPoint.capacity (hp n) > 0) then
      do self <- cell_at grid row col;
      GridPoint.addNeighbour hp self n direction
    else Ok hp
  else Ok hp.

Definition link_point (grid : list (list ref)) (row : Z)
    (hp : GridPoint.heap) (col : Z) : outcome GridPoint.heap :=
  do hp <- link grid hp row col (bool_decide (row > 0)) (row - 1) col 0;
  do r <- py_getitem grid row;
  do hp <- link grid hp row col (bool_decide (col < len r - 1)) row (col + 1) 1;
  do hp <- link grid hp row col (bool_decide (row < len grid - 1)) (row + 1) col 2;
  link grid hp row col (bool_decide (col > 0)) row (col - 1) 3.

Definition link_row (grid : list (list ref)) (hp : GridPoint.heap)
    (row : Z) : outcome GridPoint.heap :=
  do r <- py_getitem grid row;
  foldM (link_point grid row) hp (range (len r)).

Definition link_grid (grid : list (list ref)) (hp : GridPoint.heap)
    : outcome GridPoint.heap :=
  foldM (link_row grid) hp (range (len grid)).

(** [__init__]; [self] is the identity of the new world, [base] the first
    free cell reference. *)
Definition init (self : world_id) (base : ref) (hp : GridPoint.heap)
    (h w : Z) (max_time update_interval : Z)
    (points occupants : option (gmap (Z * Z) Z))
    : outcome (t * GridPoint.heap) :=
  do '(st, grid) <- new_grid self points occupants (hp, base) w (range h);
  let hp := st.1 in
  do hp <- link_grid grid hp;
  Ok (mk self 0 max_time update_interval grid [], hp).

(** The coordinates that [_applyAction] computes for a move: the action's
    position, offset by its direction. *)
Definition destination (action : Action.t) : Z * Z :=
  let destX := Action.x action in
  let destY := Action.y action in
  let destX := if bool_decide (Action.actionDirection action = 3)
               then destX - 1 else destX in
  let destY := if bool_decide (Action.actionDirection action = 2)
               then destY + 1 else destY in
  let destX := if bool_decide (Action.actionDirection action = 1)
               then destX + 1 else destX in
  let destY := if bool_decide (Action.actionDirection action = 0)
               then destY - 1 else destY in
  (destX, destY).

(** [_applyAction]; [objs] is the store of grid objects, read for
    [action.agent.objectID]. *)
Definition _applyAction (W : t) (hp : GridPoint.heap) (objs : obj -> GridObject.t)
    (action : Action.t) : outcome (t * GridPoint.heap * option ref) :=
  if bool_decide (Action.actionCode action = -1) then Ok (W, hp, None)
  else if bool_decide (Action.actionCode action = 0) then
    let '(destX, destY) := destination action in
    do outside <-
      (if bool_decide (destX < 0) then Ok true
       else if bool_decide (destY < 0) then Ok true
       else if bool_decide (destX >= len (_grid W)) then Ok true
       else do r0 <- py_getitem (_grid W) 0;
            Ok (bool_decide (destY >= len r0)));
    if (outside : bool) then
      do here <- cell_at (_grid W) (Action.y action) (Action.x action);
      Ok (W, hp, Some here)
    else
      do here <- cell_at (_grid W) (Action.y action) (Action.x action);
      do '(hp', newSquare) <-
        GridPoint.vacate hp here (Action.agent action)
                         (Some (Action.actionDirection action));
      match newSquare with
      | None => Raise AttributeError
      | Some sq =>
          let key := GridObject._objectID (objs (Action.agent action)) in
          do e <- odict_get (_agents W) key;
          let e := (GridPoint.x (hp' sq), e.1.2, e.2) in
          let agents := odict_set (_agents W) key e in
          do e <- odict_get agents key;
          let e := (e.1.1, GridPoint.y (hp' sq), e.2) in
          let agents := odict_set agents key e in
          Ok (mk (self_id W) (_time W) (_maxTime W) (_waitTime W) (_grid W) agents,
              hp', Some sq)
      end
  else Ok (W, hp, None).

(** The body of the loop of [_tick] for the roster entry of [key];
    [draws key] is the random draw of that agent's [chooseAction]. *)
Definition turn (draws : nat -> Z)
    (st : t * GridPoint.heap * (obj -> GridObject.t)) (key : nat)
    : outcome (t * GridPoint.heap * (obj -> GridObject.t)) :=
  let '(W, hp, objs) := st in
  do agent <- odict_get (_agents W) key;
  let '(a0, a1, a2) := agent in
  do here <- cell_at (_grid W) a0 a1;
  let '(s, action) :=
    GridAgentMethods.chooseAction a2 (objs a2) (Some (self_id W)) a0 a1
      (GridPoint.occupants (hp here)) (draws key) in
  let objs := <[a2 := s]> objs in
  do '(W, hp, result) <- _applyAction W hp objs action;
  do s <- GridAgentMethods.actionResult hp (objs a2) result;
  Ok (W, hp, <[a2 := s]> objs).

(** [_tick]: the roster keeps its keys during the loop, so the loop over
    its values is a loop over the keys it has when the loop starts. *)
Definition _tick (W : t) (hp : GridPoint.heap) (objs : obj -> GridObject.t)
    (draws : nat -> Z)
    : outcome (t * GridPoint.heap * (obj -> GridObject.t) * bool) :=
  if bool_decide (_maxTime W > 0) && bool_decide (_time W >= _maxTime W)
  then Ok (W, hp, objs, false)
  else
    let W := mk (self_id W) (_time W + 1) (_maxTime W) (_waitTime W) (_grid W)
                (_agents W) in
    do '(W, hp, objs) <- foldM (turn draws) (W, hp, objs) (odict_keys (_agents W));
    Ok (W, hp, objs, true).

Definition runTime (W : t) : Z := _maxTime W.

Definition reset (W : t) : t :=
  mk (self_id W) 0 (_maxTime W) (_waitTime W) (_grid W) (_agents W).

Definition time (W : t) : Z := _time W.

Definition boundary (W : t) : outcome (Z * Z) :=
  do r0 <- py_getitem (_grid W) 0;
  Ok (len (_grid W), len r0).

Definition getLocation (W : t) (px py : Z) : outcome ref :=
  cell_at (_grid W) py px.

Definition placeOccupant (W : t) (hp : GridPoint.heap) (objs : obj -> GridObject.t)
    (occupant : obj) (row col : Z) (isAgent : bool)
    : outcome (t * GridPoint.heap * bool) :=
  let W := if isAgent
           then mk (self_id W) (_time W) (_maxTime W) (_waitTime W) (_grid W)
                   (odict_set (_agents W) (GridObject._objectID (objs occupant))
                              (col, row, occupant))
           else W in
  do here <- cell_at (_grid W) row col;
  let '(hp', placed) := GridPoint.placeOccupant hp here (self_id W) occupant in
  Ok (W, hp', placed).

End GridWorld.


(** ** Example stores *)

(** A store in which every reference holds the same empty cell of world
    [0] at [(0, 0)], with capacity 1 and no neighbour. *)
Definition empty_store : GridPoint.heap :=
  fun _ => GridPoint.init 0%nat 0 0 1 None None None None None.

(** A cell of world [0] with given coordinates, capacity, occupants and
    neighbour list. *)
Definition cell (px py cap : Z) (occ : list obj) (nbs : list (option ref))
    : GridPoint.t :=
  GridPoint.mk px py None cap occ 0%nat nbs.

(** ** Predicates on cells *)

(** The capacity invariant of one cell. *)
Definition within_capacity (c : GridPoint.t) : Prop :=
  len (GridPoint._occupants c) <= GridPoint._maxOccupants c.

(** The origin is the cell itself or one of its eight neighbours. *)
Definition adjacent (origin : Z * Z) (c : GridPoint.t) : Prop :=
  Z.abs (origin.1 - GridPoint.x c) <= 1 /\ Z.abs (origin.2 - GridPoint.y c) <= 1.

(** A full cell at [(0, 0)] holding object [1]. *)
Definition full_store : GridPoint.heap :=
  <[0%nat := cell 0 0 1 [1%nat] [None; None; None; None]]> empty_store.

(** A cell whose neighbour list has three slots only. *)
Definition short_store : GridPoint.heap :=
  <[0%nat := cell 0 0 1 [] [None; None; None]]> empty_store.

(** Cell [0] at [(0, 0)] holds object [7]; its east slot points to the empty
    cell [1] at [(2, 0)], which is not adjacent to it. *)
Definition far_store : GridPoint.heap :=
  <[0%nat := cell 0 0 1 [7%nat] [None; Some 1%nat; None; None]]>
    (<[1%nat := cell 2 0 1 [] [None; None; None; None]]> empty_store).

(** Cell [0] at [(0, 0)] holds object [7]; its east slot points to the empty
    cell [1] at [(1, 0)]. *)
Definition near_store : GridPoint.heap :=
  <[0%nat := cell 0 0 1 [7%nat] [None; Some 1%nat; None; None]]>
    (<[1%nat := cell 1 0 1 [] [None; None; None; Some 0%nat]]> empty_store).

(** Cell [0] at [(0, 0)], of capacity 2, holds object [7] twice; its east
    slot points to the empty cell [1] at [(1, 0)]. *)
Definition twice_store : GridPoint.heap :=
  <[0%nat := cell 0 0 2 [7%nat; 7%nat] [None; Some 1%nat; None; None]]>
    (<[1%nat := cell 1 0 1 [] [None; None; None; Some 0%nat]]> empty_store).

(** ** Calls that try to rebind an object's world *)

Inductive world_call : Type :=
  | Embed (world : option world_id)
  | Place (world : option world_id) (px py : Z).

Definition run_call (s : GridObject.t) (c : world_call) : GridObject.t :=
  match c with
  | Embed world => GridObjectMethods.embed s world
  | Place world px py => GridObjectMethods.place s world px py
  end.

Definition run_calls (s : GridObject.t) (cs : list world_call) : GridObject.t :=
  foldl run_call s cs.

(** An agent of world [3] at [(2, 5)], stored at reference [8]. *)
Definition some_agent : GridObject.t :=
  GridAgentMethods.init 8%nat 100%nat "a" None (Some 3%nat) 2 5.

(** ** The grid as [GridWorld.__init__] lays it out

    [base] is the first reference the constructor allocates, [Hn] and [Wn]
    the numbers of rows and columns. *)

(** The reference of the cell in row [i] and column [k]. *)
Definition pos (base Wn : nat) (i k : nat) : ref := (base + i * Wn + k)%nat.

(** The value of [self._grid]. *)
Definition layout (base Hn Wn : nat) : list (list ref) :=
  (fun i => seq (base + i * Wn) Wn) <$> seq 0 Hn.

(** The neighbour slot written for a cell [n] that passes the bounds test
    [inside]: an edge when the capacity of [n] is positive. *)
Definition edge (hp : GridPoint.heap) (inside : bool) (n : ref) : option ref :=
  if inside && bool_decide (GridPoint.capacity (hp n) > 0) then Some n else None.

(** The neighbour list of the cell in row [i] and column [k] once the
    adjacency loop has run, from the capacities in [hp]. *)
Definition linked_neighbours (hp : GridPoint.heap) (base Hn Wn : nat) (i k : nat)
    : list (option ref) :=
  [ edge hp (bool_decide (0 < i)%nat) (pos base Wn (i - 1) k);
    edge hp (bool_decide (k + 1 < Wn)%nat) (pos base Wn i (k + 1));
    edge hp (bool_decide (i + 1 < Hn)%nat) (pos base Wn (i + 1) k);
    edge hp (bool_decide (0 < k)%nat) (pos base Wn i (k - 1)) ].

(** The state of the adjacency loop about to handle row [i] and column [k]:
    the cells before that position are linked, the others are as allocated
    in [hpA]. *)
Definition linked_before (hpA : GridPoint.heap) (base Hn Wn : nat) (i k : nat)
    (hp : GridPoint.heap) : Prop :=
  forall i' k', (i' < Hn)%nat -> (k' < Wn)%nat ->
    hp (pos base Wn i' k') =
      if bool_decide (i' < i \/ (i' = i /\ k' < k))%nat
      then GridPoint.with_neighbours (hpA (pos base Wn i' k'))
             (linked_neighbours hpA base Hn Wn i' k')
      else hpA (pos base Wn i' k').

(** The capacities of the grid cells in [hp] are those in [hpA]. *)
Definition same_capacities (hpA : GridPoint.heap) (base Hn Wn : nat)
    (hp : GridPoint.heap) : Prop :=
  forall i k, (i < Hn)%nat -> (k < Wn)%nat ->
    GridPoint.capacity (hp (pos base Wn i k))
    = GridPoint.capacity (hpA (pos base Wn i k)).

(** The grid cells of [hp] carry their coordinates and the neighbour lists
    that the adjacency loop gives them. *)
Definition well_linked (hp : GridPoint.heap) (base Hn Wn : nat) : Prop :=
  forall i k, (i < Hn)%nat -> (k < Wn)%nat ->
    GridPoint.x (hp (pos base Wn i k)) = Z.of_nat k
    /\ GridPoint.y (hp (pos base Wn i k)) = Z.of_nat i
    /\ GridPoint._neighbours (hp (pos base Wn i k))
       = linked_neighbours hp base Hn Wn i k.

(** Cell [a] is the neighbour of cell [b] in direction [d]. *)
Definition neighbour_of (hp : GridPoint.heap) (b : ref) (d : nat) (a : ref) : Prop :=
  GridPoint._neighbours (hp b) !! d = Some (Some a).

(** The row and column one step from [(row, col)] in direction [d], as the
    adjacency loop reads them: 0 is the row above, 1 the next column, 2 the
    row below, 3 the previous column. *)
Definition towards (d : nat) (row col : Z) : Z * Z :=
  match d with
  | 0%nat => (row - 1, col)
  | 1%nat => (row, col + 1)
  | 2%nat => (row + 1, col)
  | _ => (row, col - 1)
  end.

Definition opposite (d : nat) : nat :=
  match d with
  | 0%nat => 2%nat
  | 1%nat => 3%nat
  | 2%nat => 0%nat
  | _ => 1%nat
  end.

(** A 2 x 2 layout whose cell at column 1, row 0 has capacity 0. *)
Definition walled_points : gmap (Z * Z) Z :=
  <[(0, 0) := 1]> (<[(1, 0) := 0]> (<[(0, 1) := 1]> (<[(1, 1) := 1]> ∅))).

(** The world built from [walled_points], with its store; the cells are
    allocated from reference 10. *)
Definition walled_world : GridWorld.t * GridPoint.heap :=
  match GridWorld.init 0%nat 10%nat empty_store 2 2 0 1 (Some walled_points) None with
  | Ok r => r
  | Raise _ => (GridWorld.mk 0%nat 0 0 0 [] [], empty_store)
  end.

(** ** The world after its construction *)

(** Two stores hold the same cells up to occupants and labels: coordinates,
    capacities and neighbour lists agree. *)
Definition same_topology (hp hp' : GridPoint.heap) : Prop :=
  forall r,
    GridPoint.x (hp r) = GridPoint.x (hp' r)
    /\ GridPoint.y (hp r) = GridPoint.y (hp' r)
    /\ GridPoint._neighbours (hp r) = GridPoint._neighbours (hp' r)
    /\ GridPoint._maxOccupants (hp r) = GridPoint._maxOccupants (hp' r).

(** The position [(x, y)] lies in a grid of [h] rows and [w] columns. *)
Definition in_bounds (h w : Z) (p : Z * Z) : Prop :=
  0 <= p.1 < w /\ 0 <= p.2 < h.

(** The world of [h] rows and [w] columns with default capacities, and its
    store; the cells are allocated from reference 0. *)
Definition built_world (h w : Z) : GridWorld.t * GridPoint.heap :=
  match GridWorld.init 0%nat 0%nat empty_store h w 0 1 None None with
  | Ok r => r
  | Raise _ => (GridWorld.mk 0%nat 0 0 0 [] [], empty_store)
  end.

(** An agent of that world at [(0, 0)], stored at reference 100. *)
Definition corner_agent : GridObject.t :=
  GridAgentMethods.init 100%nat 7%nat "agent1" None (Some 0%nat) 0 0.

(** The world once [corner_agent] is placed in row 0, column 0 and
    registered. *)
Definition placed_world (h w : Z) : GridWorld.t * GridPoint.heap * bool :=
  match GridWorld.placeOccupant (built_world h w).1 (built_world h w).2
          (fun _ => corner_agent) 100%nat 0 0 true with
  | Ok r => r
  | Raise _ => (built_world h w, false)
  end.

(** The agent's choice for the random draw [rnd]: its new state and the
    action. *)
Definition choice (rnd : Z) : GridObject.t * Action.t :=
  GridAgentMethods.chooseAction 100%nat corner_agent (Some 0%nat) 0 0 [100%nat] rnd.

(** The 5 x 5 world and the move west. *)
Definition open_world : GridWorld.t * GridPoint.heap := built_world 5 5.
Definition corner_world : GridWorld.t * GridPoint.heap * bool := placed_world 5 5.
Definition corner_choice : GridObject.t * Action.t := choice 3.

(** That world after one tick in which the agent draws 3 (west). *)
Definition ticked_world
    : GridWorld.t * GridPoint.heap * (obj -> GridObject.t) * bool :=
  match GridWorld._tick corner_world.1.1 corner_world.1.2 (fun _ => corner_agent)
          (fun _ => 3) with
  | Ok r => r
  | Raise _ => (corner_world.1.1, corner_world.1.2, fun _ => corner_agent, false)
  end.

(** ** class GridAgent: navigation helpers *)

Module GridAgentNavigation.
Import GridObject.

(** [self._world.<constant>]: the direction constants are read through the
    agent's world, which may be [None]. *)
Definition world_constant (s : t) (c : Z) : outcome Z :=
  match _world s with
  | None => Raise AttributeError
  | Some _ => Ok c
  end.

Definition _getDirection (s : t) (target : Z * Z) : outcome Z :=
  if bool_decide (target.1 = x s) then
    if bool_decide (target.2 = y s) then world_constant s GridWorld.Nowhere
    else if bool_decide (target.2 > y s) then world_constant s GridWorld.South
    else world_constant s GridWorld.North
  else if bool_decide (target.1 < x s) then
    if bool_decide (target.2 ≠ y s) then world_constant s GridWorld.Nowhere
    else world_constant s GridWorld.West
  else
    if bool_decide (target.2 ≠ y s) then world_constant s GridWorld.Nowhere
    else world_constant s GridWorld.East.

(** What [_inFrontier] gives: a location of the frontier, [None], or the
    [TypeError] of iterating over a frontier that is [None]. *)
Inductive frontier_result : Type :=
  | Found (loc : Z * Z)
  | NotFound
  | NotIterable.

Definition _inFrontier (s : t) (target : Z * Z) : frontier_result :=
  match _frontier s with
  | None => NotIterable
  | Some frontier =>
      match List.find (fun loc : Z * Z => bool_decide (loc.1 = target.1)
                                          && bool_decide (loc.2 = target.2))
                      frontier with
      | Some nextTgt => Found nextTgt
      | None => NotFound
      end
  end.

(** [_pruneMap]: the [while] loop runs as long as the frontier is not
    [None]; [None] is returned when [fuel] iterations were not enough. *)
Fixpoint _pruneMap (fuel : nat) (s : t) : option t :=
  match fuel with
  | O => None
  | S fuel' =>
      if bool_decide (_frontier s ≠ None)
      then _pruneMap fuel' (setattr s (At_frontier None))
      else Some s
  end.

End GridAgentNavigation.

(** A sequence of assignments [self.name = value] on one object, each to
    one of the eleven attributes that the two classes create
    ([GridObject.attr]).  Assignments to other names are not modelled: a
    new name adds an attribute, and the names [__dict__] and [__class__],
    which both guards let through, replace the attributes wholesale. *)
Definition assign_all (s : GridObject.t) (l : list GridObject.attr)
    : GridObject.t :=
  foldl setattr s l.

(** ** Counting occupants *)

(** How many times [o] occurs in a list of occupants. *)
Fixpoint count_of (o : obj) (l : list obj) : nat :=
  match l with
  | [] => 0%nat
  | a :: l' => ((if bool_decide (a = o) then 1 else 0) + count_of o l')%nat
  end.

(** How many times [o] occurs in the cells [refs] of the store. *)
Definition total_of (hp : GridPoint.heap) (refs : list ref) (o : obj) : nat :=
  sum_list_with (fun r => count_of o (GridPoint._occupants (hp r))) refs.

(** ** class GridWorld: the loop of [run] *)

Module GridWorldRun.
Import GridWorld.

(** How a call of [run] ends: it returns, a tick raises, or the call of
    [time.sleep] raises.  What [time.sleep] raises, and for which lengths,
    is the interpreter's business and not this program's (a negative length
    gives [ValueError]; very long ones fail in ways that differ between
    platforms), so the exception is not named. *)
Inductive ending : Type :=
  | Returns (st : t * GridPoint.heap * (obj -> GridObject.t))
  | TickRaises (e : exn)
  | SleepRaises.

(** The [while] loop of [run], for at most [fuel] evaluations of its
    condition; [None] when the fuel runs out.  [sleeps secs] tells whether
    [time.sleep(secs)] returns in the interpreter at hand; [draws n] holds
    the random draws of the call of [_tick] made when [tickCount] is [n]. *)
Fixpoint run_loop (fuel : nat) (sleeps : Z -> bool) (draws : Z -> nat -> Z)
    (ticks tickCount : Z) (st : t * GridPoint.heap * (obj -> GridObject.t))
    : option ending :=
  match fuel with
  | O => None
  | S fuel' =>
      if bool_decide (ticks = 0) || bool_decide (tickCount < ticks) then
        match _tick st.1.1 st.1.2 st.2 (draws tickCount) with
        | Raise e => Some (TickRaises e)
        | Ok (W, hp, objs, more) =>
            if more then
              if sleeps (_waitTime W)
              then run_loop fuel' sleeps draws ticks (tickCount + 1) (W, hp, objs)
              else Some SleepRaises
            else Some (Returns (W, hp, objs))
        end
      else Some (Returns st)
  end.

Definition run (fuel : nat) (sleeps : Z -> bool) (draws : Z -> nat -> Z) (W : t)
    (hp : GridPoint.heap) (objs : obj -> GridObject.t) (ticks : Z)
    : option ending :=
  run_loop fuel sleeps draws ticks 0 (W, hp, objs).

End GridWorldRun.

(** ** The roster and the cells *)

(** The world [W] with [self._agents[key] = v]. *)
Definition with_entry (W : GridWorld.t) (key : nat) (v : Z * Z * obj) : GridWorld.t :=
  GridWorld.mk (GridWorld.self_id W) (GridWorld._time W) (GridWorld._maxTime W)
    (GridWorld._waitTime W) (GridWorld._grid W)
    (odict_set (GridWorld._agents W) key v).

(** The world [W] at clock [n]. *)
Definition at_time (W : GridWorld.t) (n : Z) : GridWorld.t :=
  GridWorld.mk (GridWorld.self_id W) n (GridWorld._maxTime W)
    (GridWorld._waitTime W) (GridWorld._grid W) (GridWorld._agents W).

(** Every roster entry is that of an agent which is where the roster says:
    the entry is filed under the agent's identifier, its position is the
    agent's own and is not negative, and the cell at that position holds
    the agent. *)
Definition settled (W : GridWorld.t) (hp : GridPoint.heap)
    (objs : obj -> GridObject.t) : Prop :=
  forall (key : nat) (a0 a1 : Z) (o : obj),
    odict_get (GridWorld._agents W) key = Ok (a0, a1, o) ->
    GridObject.cls (objs o) = GridObject.GridAgent_class
    /\ GridObject._objectID (objs o) = key
    /\ GridObject.x (objs o) = a0 /\ GridObject.y (objs o) = a1
    /\ 0 <= a0 /\ 0 <= a1
    /\ exists here, GridWorld.getLocation W a0 a1 = Ok here
                    /\ o ∈ GridPoint._occupants (hp here).

(** The cells of two stores belong to the same worlds. *)
Definition same_parents (hp hp' : GridPoint.heap) : Prop :=
  forall r, GridPoint._parent (hp r) = GridPoint._parent (hp' r).

(** The store after [o] has moved from the cell [here] to the cell [there]:
    its first occurrence has left [here] and it is the last occupant of
    [there]. *)
Definition moved (hp : GridPoint.heap) (here there : ref) (o : obj)
    : GridPoint.heap :=
  let l := default [] (py_remove o (GridPoint._occupants (hp here))) in
  let hp1 := <[here := GridPoint.with_occupants (hp here) l]> hp in
  <[there := GridPoint.with_occupants (hp1 there)
               (GridPoint._occupants (hp1 there) ++ [o])]> hp1.

(** The fields of the world that a turn may change are its roster's
    positions; the store changes in occupants only. *)
Definition same_frame (W' W : GridWorld.t) (hp' hp : GridPoint.heap) : Prop :=
  GridWorld._grid W' = GridWorld._grid W
  /\ GridWorld.self_id W' = GridWorld.self_id W
  /\ GridWorld._time W' = GridWorld._time W
  /\ GridWorld._maxTime W' = GridWorld._maxTime W
  /\ GridWorld._waitTime W' = GridWorld._waitTime W
  /\ odict_keys (GridWorld._agents W') = odict_keys (GridWorld._agents W)
  /\ same_topology hp' hp.

(** ** More example worlds *)



(** The 2 x 2 world with [corner_agent] placed at [(0, 0)] and registered,
    and that world after one tick in which the agent draws 1 (east). *)
Definition small_world : GridWorld.t * GridPoint.heap := (placed_world 2 2).1.

Definition small_ticked
    : GridWorld.t * GridPoint.heap * (obj -> GridObject.t) * bool :=
  match GridWorld._tick small_world.1 small_world.2 (fun _ => corner_agent)
          (fun _ => 1) with
  | Ok r => r
  | Raise _ => (small_world.1, small_world.2, fun _ => corner_agent, false)
  end.

(** A row of two cells whose first cell is a wall: capacity 0 at
    [(0, 0)]. *)
Definition wall_row_points : gmap (Z * Z) Z :=
  <[(0, 0) := 0]> (<[(1, 0) := 1]> ∅).

(** The world of one row and two columns built from [wall_row_points], and
    that world once [corner_agent] has been registered at row 0, column 0:
    the wall cell refuses the agent, the roster holds it all the same. *)
Definition wall_row : GridWorld.t * GridPoint.heap :=
  match GridWorld.init 0%nat 0%nat empty_store 1 2 0 1 (Some wall_row_points) None with
  | Ok r => r
  | Raise _ => (GridWorld.mk 0%nat 0 0 0 [] [], empty_store)
  end.

Definition refused_world : GridWorld.t * GridPoint.heap * bool :=
  match GridWorld.placeOccupant wall_row.1 wall_row.2 (fun _ => corner_agent)
          100%nat 0 0 true with
  | Ok r => r
  | Raise _ => (wall_row, false)
  end.

(** An interpreter whose [time.sleep] returns for lengths from 0 to 60
    seconds and raises for every other length. *)
Definition short_sleeps (secs : Z) : bool := bool_decide (0 <= secs <= 60).



(** * Properties *)

(** ** Python lists *)

Lemma py_in_true (v : nat) (l : list nat) : py_in v l = true <-> v ∈ l.
Proof. unfold py_in. apply bool_decide_eq_true. Qed.

Lemma py_in_false (v : nat) (l : list nat) : py_in v l = false <-> v ∉ l.
Proof. unfold py_in. apply bool_decide_eq_false. Qed.

Lemma py_remove_elem (v : nat) (l : list nat) :
  v ∈ l -> exists l', py_remove v l = Some l' /\ (length l = S (length l'))%nat.
Proof.
  induction l as [|a l IH]; intros Hin.
  - inversion Hin.
  - simpl. case_bool_decide as Ha.
    + eexists. split; [reflexivity | reflexivity].
    + apply elem_of_cons in Hin as [-> | Hin]; [congruence |].
      destruct (IH Hin) as (l' & -> & Hlen). simpl.
      eexists. split; [reflexivity |]. simpl. by rewrite Hlen.
Qed.

Lemma py_remove_subset (v : nat) (l l' : list nat) (a : nat) :
  py_remove v l = Some l' -> a ∈ l' -> a ∈ l.
Proof.
  revert l'. induction l as [|b l IH]; intros l' H Ha; simpl in H; [discriminate |].
  case_bool_decide.
  - injection H as <-. by apply elem_of_cons; right.
  - destruct (py_remove v l) as [l0|] eqn:E; simpl in H; [|discriminate].
    injection H as <-. apply elem_of_cons in Ha as [-> | Ha].
    + apply elem_of_cons; by left.
    + apply elem_of_cons; right. by apply (IH l0).
Qed.

Lemma py_remove_other (v : nat) (l l' : list nat) (a : nat) :
  py_remove v l = Some l' -> a ≠ v -> a ∈ l -> a ∈ l'.
Proof.
  revert l'. induction l as [|b l IH]; intros l' H Hne Ha; simpl in H; [discriminate |].
  case_bool_decide as Hb.
  - injection H as <-. apply elem_of_cons in Ha as [-> | Ha]; [congruence | done].
  - destruct (py_remove v l) as [l0|] eqn:E; simpl in H; [|discriminate].
    injection H as <-. apply elem_of_cons in Ha as [-> | Ha].
    + apply elem_of_cons; by left.
    + apply elem_of_cons; right. by apply IH.
Qed.

(** Removing the only occurrence of [v] leaves a list without [v]. *)
Lemma py_remove_NoDup (v : nat) (l l' : list nat) :
  NoDup l -> py_remove v l = Some l' -> (v ∉ l') /\ NoDup l'.
Proof.
  revert l'. induction l as [|b l IH]; intros l' Hnd H; simpl in H; [discriminate |].
  apply NoDup_cons in Hnd as [Hb Hnd].
  case_bool_decide as Hbv.
  - injection H as <-. subst b. done.
  - destruct (py_remove v l) as [l0|] eqn:E; simpl in H; [|discriminate].
    injection H as <-. destruct (IH l0 Hnd eq_refl) as [Hv Hnd0]. split.
    + intros [->|Hin]%elem_of_cons; [congruence | done].
    + apply NoDup_cons. split; [|done].
      intros Hin. apply Hb. by apply (py_remove_subset v l l0).
Qed.

Lemma len_app {A : Type} (l : list A) (a : A) : len (l ++ [a]) = len l + 1.
Proof. unfold len. rewrite length_app. simpl. lia. Qed.

Lemma len_nonneg {A : Type} (l : list A) : 0 <= len l.
Proof. unfold len. lia. Qed.

(** ** Cells: placing, removing, occupying *)

Section Cells.
Import GridPoint.
Implicit Types (hp : ref -> GridPoint.t) (self n : ref) (o : obj).

Lemma occupied_true (c : GridPoint.t) :
  occupied c = true <-> len (_occupants c) >= _maxOccupants c.
Proof. unfold occupied. apply bool_decide_eq_true. Qed.

Lemma occupied_false (c : GridPoint.t) :
  occupied c = false <-> len (_occupants c) < _maxOccupants c.
Proof. unfold occupied. rewrite bool_decide_eq_false. lia. Qed.

(** [placeOccupant] touches no cell but [self]. *)
Lemma placeOccupant_frame hp self parent o r :
  r ≠ self -> (placeOccupant hp self parent o).1 r = hp r.
Proof.
  intros Hr. unfold placeOccupant.
  destruct (_ || _); simpl; [done |]. by rewrite fn_lookup_insert_ne.
Qed.

(** [placeOccupant] keeps every cell within its capacity. *)
Lemma placeOccupant_within_capacity hp self parent o r :
  within_capacity (hp r) -> within_capacity ((placeOccupant hp self parent o).1 r).
Proof.
  intros Hr. unfold placeOccupant.
  destruct (bool_decide _) eqn:Hp; simpl; [done |].
  destruct (occupied (hp self)) eqn:Hocc; simpl; [done |].
  apply occupied_false in Hocc.
  destruct (decide (self = r)) as [<- | Hne].
  - rewrite fn_lookup_insert. unfold within_capacity. simpl.
    rewrite len_app. lia.
  - by rewrite fn_lookup_insert_ne.
Qed.

Lemma placeOccupant_within_capacity_witness :
  placeOccupant full_store 0%nat 0%nat 2%nat = (full_store, false)
  /\ within_capacity ((placeOccupant full_store 0%nat 0%nat 2%nat).1 0%nat).
Proof.
  split; [reflexivity |].
  apply (placeOccupant_within_capacity full_store 0%nat 0%nat 2%nat 0%nat).
  vm_compute. discriminate.
Defined.

(** What [occupy] does, case by case. *)
Lemma occupy_spec hp self o origin :
  (~ adjacent origin (hp self) -> occupy hp self o origin = (hp, None)) /\
  (adjacent origin (hp self) ->
   len (_occupants (hp self)) > _maxOccupants (hp self) ->
   occupy hp self o origin = (hp, None)) /\
  (adjacent origin (hp self) ->
   len (_occupants (hp self)) <= _maxOccupants (hp self) ->
   occupy hp self o origin =
     (<[self := with_occupants (hp self) (_occupants (hp self) ++ [o])]> hp,
      Some self)).
Proof.
  unfold occupy, adjacent. repeat split; intros.
  - rewrite bool_decide_eq_true_2; [done | lia].
  - rewrite bool_decide_eq_false_2 by lia.
    rewrite bool_decide_eq_true_2; [done | lia].
  - rewrite bool_decide_eq_false_2 by lia.
    rewrite bool_decide_eq_false_2; [done | lia].
Qed.

End Cells.

Section CellClaims.
Import GridPoint.
Implicit Types (hp : ref -> GridPoint.t) (self n : ref) (o : obj).

(** [removeOccupant] refuses a foreign requester and an absent object, and
    leaves the store as it is. *)
Lemma removeOccupant_refused hp self parent o :
  parent ≠ _parent (hp self) \/ o ∉ _occupants (hp self) ->
  removeOccupant hp self parent o = (hp, None).
Proof.
  intros H. unfold removeOccupant.
  destruct H as [H | H].
  - by rewrite bool_decide_eq_true_2.
  - apply py_in_false in H. rewrite H. simpl. by rewrite orb_true_r.
Qed.

(** C3 (code defect): when the requester is the cell's world and the object
    is in the cell, [removeOccupant] returns the object, and the store it
    leaves is the store it was given: the object is still an occupant. *)
Theorem removeOccupant_returns_without_removing hp self parent o :
  parent = _parent (hp self) ->
  o ∈ _occupants (hp self) ->
  removeOccupant hp self parent o = (hp, Some o).
Proof.
  intros Hp Ho. unfold removeOccupant.
  rewrite bool_decide_eq_false_2 by (intros ?; congruence).
  apply py_in_true in Ho. by rewrite Ho.
Qed.

Lemma removeOccupant_returns_without_removing_witness :
  removeOccupant full_store 0%nat 0%nat 1%nat = (full_store, Some 1%nat)
  /\ _occupants (full_store 0%nat) = [1%nat].
Proof.
  split.
  - apply (removeOccupant_returns_without_removing full_store 0%nat 0%nat 1%nat).
    + reflexivity.
    + apply list_elem_of_here.
  - reflexivity.
Defined.

(** C4 (code defect): a cell that already holds as many occupants as its
    capacity still accepts one more from an adjacent origin; [occupy] only
    refuses a cell that is already over its capacity. *)
Theorem occupy_accepts_full_cell hp self o origin :
  adjacent origin (hp self) ->
  len (_occupants (hp self)) = _maxOccupants (hp self) ->
  occupy hp self o origin =
    (<[self := with_occupants (hp self) (_occupants (hp self) ++ [o])]> hp,
     Some self).
Proof.
  intros Hadj Hfull.
  destruct (occupy_spec hp self o origin) as (_ & _ & H).
  apply H; [done | lia].
Qed.

Lemma occupy_accepts_full_cell_witness :
  occupy full_store 0%nat 2%nat (0, 1) =
    (<[0%nat := with_occupants (full_store 0%nat) [1%nat; 2%nat]]> full_store,
     Some 0%nat).
Proof.
  apply (occupy_accepts_full_cell full_store 0%nat 2%nat (0, 1)).
  - split; vm_compute; discriminate.
  - reflexivity.
Defined.

(** C2 (code defect): [occupy] on a cell that is exactly full, from an
    adjacent origin, leaves it with more occupants than its capacity. *)
Theorem occupy_exceeds_capacity hp self o origin :
  adjacent origin (hp self) ->
  len (_occupants (hp self)) = _maxOccupants (hp self) ->
  within_capacity (hp self)
  /\ len (_occupants ((occupy hp self o origin).1 self))
     = _maxOccupants ((occupy hp self o origin).1 self) + 1.
Proof.
  intros Hadj Hfull.
  destruct (occupy_spec hp self o origin) as (_ & _ & H).
  rewrite H by (done || lia). simpl. rewrite fn_lookup_insert. simpl.
  rewrite len_app. unfold within_capacity. lia.
Qed.

Lemma occupy_exceeds_capacity_witness :
  within_capacity (full_store 0%nat)
  /\ len (_occupants ((occupy full_store 0%nat 2%nat (0, 1)).1 0%nat))
     = _maxOccupants ((occupy full_store 0%nat 2%nat (0, 1)).1 0%nat) + 1.
Proof.
  apply (occupy_exceeds_capacity full_store 0%nat 2%nat (0, 1)).
  - split; vm_compute; discriminate.
  - reflexivity.
Defined.

(** C10: for an object that is not in the cell, [vacate] returns [None] and
    the store unchanged, whatever the direction; [None] is also what it
    returns for an occupant that leaves the grid (no direction), whose first
    occurrence it removes from the list. *)
Theorem vacate_absent_returns_None hp self o :
  o ∉ _occupants (hp self) ->
  (forall d : option Z, vacate hp self o d = Ok (hp, None))
  /\ (forall o', o' ∈ _occupants (hp self) ->
        exists l, py_remove o' (_occupants (hp self)) = Some l
          /\ vacate hp self o' None
             = Ok (<[self := with_occupants (hp self) l]> hp, None)).
Proof.
  intros Ho. split.
  - intros d. unfold vacate. apply py_in_false in Ho. by rewrite Ho.
  - intros o' Ho'. destruct (py_remove_elem o' _ Ho') as (l & Hl & _).
    exists l. split; [done |].
    unfold vacate, remove_occupant. apply py_in_true in Ho'. rewrite Ho'. simpl.
    by rewrite Hl.
Qed.

Lemma vacate_absent_returns_None_witness :
  (forall d : option Z, vacate full_store 0%nat 5%nat d = Ok (full_store, None))
  /\ (forall o', o' ∈ _occupants (full_store 0%nat) ->
        exists l, py_remove o' (_occupants (full_store 0%nat)) = Some l
          /\ vacate full_store 0%nat o' None
             = Ok (<[0%nat := with_occupants (full_store 0%nat) l]> full_store, None)).
Proof.
  apply (vacate_absent_returns_None full_store 0%nat 5%nat).
  intros H. apply list_elem_of_singleton in H. discriminate H.
Defined.

(** A direction outside 0..3 raises [IndexError], whatever the cell. *)
Lemma addNeighbour_bad_direction hp self n d :
  d < 0 \/ 3 < d -> addNeighbour hp self n d = Raise IndexError.
Proof.
  intros H. unfold addNeighbour. rewrite bool_decide_eq_true_2; [done | lia].
Qed.

(** A neighbour list of fewer than three slots raises [ValueError]. *)
Lemma addNeighbour_short_list hp self n d :
  0 <= d <= 3 -> len (_neighbours (hp self)) < 3 ->
  addNeighbour hp self n d = Raise ValueError.
Proof.
  intros Hd H. unfold addNeighbour.
  rewrite bool_decide_eq_false_2 by lia.
  by rewrite bool_decide_eq_true_2.
Qed.

(** C8 (code defect): a neighbour list that does not have exactly four
    slots, but has at least three and one at the direction asked for, is
    accepted: the neighbour is stored and nothing is raised. *)
Theorem addNeighbour_accepts_malformed hp self n d :
  len (_neighbours (hp self)) ≠ 4 ->
  3 <= len (_neighbours (hp self)) ->
  0 <= d <= 3 ->
  d < len (_neighbours (hp self)) ->
  addNeighbour hp self n d =
    Ok (<[self := with_neighbours (hp self)
                    (<[Z.to_nat d := Some n]> (_neighbours (hp self)))]> hp).
Proof.
  intros _ Hlen Hd Hslot. unfold addNeighbour, py_setitem.
  rewrite bool_decide_eq_false_2 by lia.
  rewrite bool_decide_eq_false_2 by lia.
  rewrite (bool_decide_eq_false_2 (d < 0)) by lia.
  rewrite bool_decide_eq_false_2 by lia.
  reflexivity.
Qed.

Lemma addNeighbour_accepts_malformed_witness :
  addNeighbour short_store 0%nat 1%nat 0 =
    Ok (<[0%nat := with_neighbours (short_store 0%nat)
                     [Some 1%nat; None; None]]> short_store).
Proof.
  apply (addNeighbour_accepts_malformed short_store 0%nat 1%nat 0).
  - vm_compute. discriminate.
  - vm_compute. discriminate.
  - split; vm_compute; discriminate.
  - reflexivity.
Defined.

(** On a list of three slots the west direction is an [IndexError] of the
    list assignment, not the [ValueError] of the guard. *)
Lemma addNeighbour_three_slots_west :
  addNeighbour short_store 0%nat 1%nat 3 = Raise IndexError.
Proof. reflexivity. Qed.

End CellClaims.

(** ** Leaving a cell *)

Section Vacate.
Import GridPoint.
Implicit Types (hp : ref -> GridPoint.t) (self n : ref) (o : obj).

(** The slot [d] of a neighbour list, for a direction in 0..3. *)
Lemma py_getitem_slot {A : Type} (l : list A) (d : Z) (a : A) :
  0 <= d -> l !! Z.to_nat d = Some a -> py_getitem l d = Ok a.
Proof.
  intros Hd Hl. unfold py_getitem.
  rewrite (bool_decide_eq_false_2 (d < 0)) by lia.
  rewrite bool_decide_eq_false_2 by lia. by rewrite Hl.
Qed.

(** C1 (code defect): when the neighbour in direction [d] has room but is
    not adjacent to the cell, [vacate] removes the occupant from the cell,
    the neighbour's [occupy] refuses it, and [vacate] returns the cell it
    has just emptied of the occupant; the neighbour is unchanged. *)
Theorem vacate_drops_occupant hp self o d n :
  o ∈ _occupants (hp self) ->
  py_getitem (_neighbours (hp self)) d = Ok (Some n) ->
  occupied (hp n) = false ->
  ~ adjacent (x (hp self), y (hp self)) (hp n) ->
  exists l,
    py_remove o (_occupants (hp self)) = Some l
    /\ vacate hp self o (Some d)
       = Ok (<[self := with_occupants (hp self) l]> hp, Some self).
Proof.
  intros Ho Hnb Hfree Hfar.
  assert (n ≠ self) as Hne.
  { intros ->. apply Hfar. unfold adjacent. simpl. lia. }
  destruct (py_remove_elem o _ Ho) as (l & Hl & _).
  exists l. split; [done |].
  unfold vacate, remove_occupant.
  apply py_in_true in Ho. rewrite Ho. simpl.
  rewrite Hnb. simpl. rewrite Hfree, Hl. simpl.
  rewrite fn_lookup_insert. simpl.
  destruct (occupy_spec (<[self := with_occupants (hp self) l]> hp) n o
              (x (hp self), y (hp self))) as (H & _).
  rewrite H; [done |].
  by rewrite fn_lookup_insert_ne.
Qed.

Lemma vacate_drops_occupant_witness :
  exists l,
    py_remove 7%nat (_occupants (far_store 0%nat)) = Some l
    /\ vacate far_store 0%nat 7%nat (Some 1)
       = Ok (<[0%nat := with_occupants (far_store 0%nat) l]> far_store, Some 0%nat).
Proof.
  apply (vacate_drops_occupant far_store 0%nat 7%nat 1 1%nat).
  - apply list_elem_of_here.
  - reflexivity.
  - reflexivity.
  - intros [H _]. vm_compute in H. apply H. reflexivity.
Defined.

(** At that input the occupant is in neither cell afterwards, although the
    cell returned is the original one. *)
Lemma vacate_far_store_loses_occupant :
  exists hp',
    vacate far_store 0%nat 7%nat (Some 1) = Ok (hp', Some 0%nat)
    /\ _occupants (hp' 0%nat) = [] /\ _occupants (hp' 1%nat) = [].
Proof. eexists. split; [reflexivity |]. split; reflexivity. Qed.

(** An occupant listed twice in a cell moves once: it is then in both the
    cell and the neighbour. *)
Lemma vacate_twice_store_duplicates :
  exists hp',
    vacate twice_store 0%nat 7%nat (Some 1) = Ok (hp', Some 1%nat)
    /\ _occupants (hp' 0%nat) = [7%nat] /\ _occupants (hp' 1%nat) = [7%nat].
Proof. eexists. split; [reflexivity |]. split; reflexivity. Qed.

(** [vacate] keeps every cell within its capacity. *)
Lemma vacate_within_capacity hp self o d hp' r :
  (forall c, within_capacity (hp c)) ->
  vacate hp self o d = Ok (hp', r) ->
  forall c, within_capacity (hp' c).
Proof.
  intros Hinv. unfold vacate.
  destruct (py_in o (_occupants (hp self))) eqn:Ho; simpl;
    [| intros [= <- <-]; done].
  apply py_in_true in Ho.
  destruct (py_remove_elem o _ Ho) as (l & Hl & Hlen).
  assert (forall c, within_capacity
            ((<[self := with_occupants (hp self) l]> hp) c)) as Hinv1.
  { intros c. destruct (decide (self = c)) as [<- | Hne].
    - rewrite fn_lookup_insert. specialize (Hinv self).
      unfold within_capacity, len in *. simpl. lia.
    - by rewrite fn_lookup_insert_ne. }
  destruct d as [d|].
  - destruct (py_getitem _ d) as [[n|]|] eqn:Hget; simpl;
      [| intros [= <- <-]; done | discriminate].
    destruct (occupied (hp n)) eqn:Hocc; [intros [= <- <-]; done |].
    apply occupied_false in Hocc.
    unfold remove_occupant. rewrite Hl. simpl. unfold occupy.
    repeat case_bool_decide; simpl; intros [= <- <-]; try done.
    intros c. destruct (decide (n = c)) as [<- | Hne].
    + rewrite fn_lookup_insert. unfold within_capacity. simpl. rewrite len_app.
      destruct (decide (self = n)) as [<- | Hsn].
      * rewrite fn_lookup_insert. simpl. unfold len in *. lia.
      * rewrite fn_lookup_insert_ne by done. lia.
    + by rewrite fn_lookup_insert_ne.
  - unfold remove_occupant. rewrite Hl. simpl. intros [= <- <-]. done.
Qed.

Lemma vacate_within_capacity_witness :
  vacate near_store 0%nat 7%nat (Some 1)
  = Ok (<[1%nat := with_occupants (near_store 1%nat) [7%nat]]>
          (<[0%nat := with_occupants (near_store 0%nat) []]> near_store),
        Some 1%nat)
  /\ within_capacity
       ((<[1%nat := with_occupants (near_store 1%nat) [7%nat]]>
          (<[0%nat := with_occupants (near_store 0%nat) []]> near_store)) 1%nat).
Proof.
  split; [reflexivity |].
  apply (vacate_within_capacity near_store 0%nat 7%nat (Some 1) _ (Some 1%nat)).
  - intros [|[|c]]; vm_compute; discriminate.
  - reflexivity.
Defined.

End Vacate.

(** ** Agents *)

Section Agents.
Import GridObject.

(** C6: in a world other than the one the agent holds as its own,
    [chooseAction] returns an action of code -1 (no action), for every
    position, occupant list and random draw; the same action becomes the
    agent's current action.  [chooseAction] always returns. *)
Theorem chooseAction_foreign_world (self : obj) (s : GridObject.t)
    (world : option world_id) (px py : Z) (occupants : list obj) (rnd : Z) :
  world ≠ _world s ->
  Action.actionCode (GridAgentMethods.chooseAction self s world px py occupants rnd).2
    = Action.inaction
  /\ _currentAction (GridAgentMethods.chooseAction self s world px py occupants rnd).1
     = Some (GridAgentMethods.chooseAction self s world px py occupants rnd).2.
Proof.
  intros Hw. unfold GridAgentMethods.chooseAction.
  rewrite bool_decide_eq_true_2 by done. simpl. split; reflexivity.
Qed.

Lemma chooseAction_foreign_world_witness :
  Action.actionCode
    (GridAgentMethods.chooseAction 8%nat some_agent (Some 4%nat) 2 5 [8%nat] 1).2
    = Action.inaction
  /\ _currentAction
       (GridAgentMethods.chooseAction 8%nat some_agent (Some 4%nat) 2 5 [8%nat] 1).1
     = Some (GridAgentMethods.chooseAction 8%nat some_agent (Some 4%nat) 2 5 [8%nat] 1).2.
Proof.
  apply (chooseAction_foreign_world 8%nat some_agent (Some 4%nat) 2 5 [8%nat] 1).
  vm_compute. discriminate.
Defined.

(** An assignment to [_world] through [self._world = ...] is dropped. *)
Lemma setattr_world (s : GridObject.t) (w : option world_id) :
  setattr s (At_world w) = s.
Proof.
  unfold setattr, GridAgent.__setattr__, GridObject.__setattr__.
  destruct (cls s); reflexivity.
Qed.

Lemma setattr_xy_world (s : GridObject.t) (px py : Z) :
  _world (setattr (setattr s (At_x px)) (At_y py)) = _world s.
Proof.
  unfold setattr, GridAgent.__setattr__, GridObject.__setattr__.
  destruct s as [[] ? ? ? ? ? ? ? ? ? ? ?]; reflexivity.
Qed.

Lemma embed_world (s : GridObject.t) (w : option world_id) :
  _world (GridObjectMethods.embed s w) = _world s.
Proof. unfold GridObjectMethods.embed. by rewrite setattr_world. Qed.

Lemma place_world (s : GridObject.t) (w : option world_id) (px py : Z) :
  _world (GridObjectMethods.place s w px py) = _world s.
Proof.
  unfold GridObjectMethods.place. rewrite setattr_world.
  destruct (bool_decide (_world s = None)); case_bool_decide;
    by rewrite ?setattr_xy_world.
Qed.

(** C9: the constructor sets the world reference of an agent, and no
    sequence of [embed] and [place] calls changes the world reference of
    any object afterwards. *)
Theorem world_reference_fixed :
  (forall self fresh name obj_id world px py,
     _world (GridAgentMethods.init self fresh name obj_id world px py) = world)
  /\ (forall s calls, _world (run_calls s calls) = _world s).
Proof.
  split.
  - intros self fresh name obj_id world px py. destruct obj_id; reflexivity.
  - intros s calls. revert s. unfold run_calls.
    induction calls as [|c calls IH]; intros s; [reflexivity |].
    simpl. rewrite IH. destruct c; simpl.
    + apply embed_world.
    + apply place_world.
Qed.

End Agents.

(** ** Building the grid *)

Section Allocation.
Import GridPoint GridWorld.
Variables (wid : world_id) (points occupants : option (gmap (Z * Z) Z)).

(** A cell as the grid comprehension creates it. *)
Lemma new_point_shape (px py : Z) (c : GridPoint.t) :
  new_point wid points occupants px py = Ok c ->
  x c = px /\ y c = py /\ _occupants c = []
  /\ _neighbours c = [None; None; None; None] /\ _parent c = wid.
Proof.
  unfold new_point, dict_get.
  destruct points as [pts|]; [destruct occupants as [occ|] |].
  - destruct (pts !! (px, py)); simpl; [| discriminate].
    destruct (occ !! (px, py)); simpl; [| discriminate].
    intros [= <-]. repeat split.
  - destruct (pts !! (px, py)); simpl; [| discriminate].
    intros [= <-]. repeat split.
  - intros [= <-]. repeat split.
Qed.

Lemma new_row_spec (xs : list Z) :
  forall (st st' : (ref -> GridPoint.t) * ref) (py : Z) (rs : list ref),
  new_row wid points occupants st py xs = Ok (st', rs) ->
  rs = seq st.2 (length xs)
  /\ st'.2 = (st.2 + length xs)%nat
  /\ (forall (k : nat) (px : Z), xs !! k = Some px ->
        new_point wid points occupants px py = Ok (st'.1 (st.2 + k)%nat))
  /\ (forall r : ref, (r < st.2)%nat -> st'.1 r = st.1 r).
Proof.
  induction xs as [|px xs IH]; intros st st' py rs; simpl.
  - intros [= <- <-]. split_and!; [done | simpl; lia | | done].
    intros k px Hk. by rewrite lookup_nil in Hk.
  - destruct (new_point wid points occupants px py) as [c|] eqn:Hc; simpl;
      [| discriminate].
    destruct (new_row _ _ _ _ py xs) as [[st1 rs1]|] eqn:Hrow; simpl;
      [| discriminate].
    intros [= <- <-].
    destruct (IH _ _ _ _ Hrow) as (Hrs & Hnext & Hcells & Hframe). simpl in *.
    split_and!.
    + by rewrite Hrs.
    + lia.
    + intros [|k] qx Hk; simpl in Hk.
      * injection Hk as <-. rewrite Nat.add_0_r.
        rewrite Hframe by lia. by rewrite fn_lookup_insert.
      * replace (st.2 + S k)%nat with (S st.2 + k)%nat by lia. by apply Hcells.
    + intros r Hr. rewrite Hframe by lia. rewrite fn_lookup_insert_ne; [done | lia].
Qed.

Lemma new_grid_spec (w : Z) (ys : list Z) :
  forall (st st' : (ref -> GridPoint.t) * ref) (rows : list (list ref)),
  new_grid wid points occupants st w ys = Ok (st', rows) ->
  rows = (fun i => seq (st.2 + i * Z.to_nat w) (Z.to_nat w)) <$> seq 0 (length ys)
  /\ st'.2 = (st.2 + length ys * Z.to_nat w)%nat
  /\ (forall (i k : nat) (py : Z), ys !! i = Some py -> (k < Z.to_nat w)%nat ->
        new_point wid points occupants (Z.of_nat k) py
        = Ok (st'.1 (st.2 + i * Z.to_nat w + k)%nat))
  /\ (forall r : ref, (r < st.2)%nat -> st'.1 r = st.1 r).
Proof.
  induction ys as [|py ys IH]; intros st st' rows; simpl.
  - intros [= <- <-]. split_and!; [done | simpl; lia | | done].
    intros i k py Hi. by rewrite lookup_nil in Hi.
  - destruct (new_row _ _ _ st py (range w)) as [[st1 r1]|] eqn:Hrow; simpl;
      [| discriminate].
    destruct (new_grid _ _ _ st1 w ys) as [[st2 rs2]|] eqn:Hgrid; simpl;
      [| discriminate].
    intros [= <- <-].
    destruct (new_row_spec _ _ _ _ _ Hrow) as (Hr1 & Hn1 & Hc1 & Hf1).
    destruct (IH _ _ _ Hgrid) as (Hrs2 & Hn2 & Hc2 & Hf2).
    unfold range in *. rewrite length_seqZ in *.
    split_and!.
    + rewrite Hr1, Hrs2, Hn1. f_equal; [f_equal; lia |].
      rewrite <- fmap_S_seq, <- list_fmap_compose.
      apply list_fmap_ext. intros _ i _. simpl. f_equal. lia.
    + lia.
    + intros [|i] k qy Hi Hk; simpl in Hi.
      * injection Hi as <-. simpl. rewrite Nat.add_0_r.
        rewrite Hf2 by lia. apply Hc1. rewrite lookup_seqZ_lt by lia. reflexivity.
      * replace (st.2 + S i * Z.to_nat w + k)%nat
          with (st1.2 + i * Z.to_nat w + k)%nat by lia.
        by apply Hc2.
    + intros r Hr. rewrite Hf2 by lia. by apply Hf1.
Qed.

End Allocation.

Section Linking.
Import GridPoint GridWorld.
Variables (base Hn Wn : nat) (hpA : ref -> GridPoint.t).
Hypothesis unlinked : forall i k, (i < Hn)%nat -> (k < Wn)%nat ->
  _neighbours (hpA (pos base Wn i k)) = [None; None; None; None].

Lemma pos_inj (i k i' k' : nat) :
  (k < Wn)%nat -> (k' < Wn)%nat ->
  pos base Wn i k = pos base Wn i' k' -> i = i' /\ k = k'.
Proof.
  unfold pos. intros Hk Hk' H.
  destruct (decide (i = i')) as [-> | Hne]; [split; lia |].
  exfalso. destruct (decide (i < i')%nat).
  - assert (S i * Wn <= i' * Wn)%nat by (apply Nat.mul_le_mono_r; lia).
    rewrite Nat.mul_succ_l in *. lia.
  - assert (S i' * Wn <= i * Wn)%nat by (apply Nat.mul_le_mono_r; lia).
    rewrite Nat.mul_succ_l in *. lia.
Qed.

Lemma len_layout : len (layout base Hn Wn) = Z.of_nat Hn.
Proof. unfold len, layout. by rewrite length_fmap, length_seq. Qed.

Lemma py_getitem_layout (row : Z) :
  0 <= row < Z.of_nat Hn ->
  py_getitem (layout base Hn Wn) row
  = Ok (seq (base + Z.to_nat row * Wn) Wn).
Proof.
  intros Hrow. apply py_getitem_slot; [lia |].
  unfold layout. rewrite list_lookup_fmap, lookup_seq_lt by lia. reflexivity.
Qed.

Lemma cell_at_layout (row col : Z) :
  0 <= row < Z.of_nat Hn -> 0 <= col < Z.of_nat Wn ->
  cell_at (layout base Hn Wn) row col
  = Ok (pos base Wn (Z.to_nat row) (Z.to_nat col)).
Proof.
  intros Hrow Hcol. unfold cell_at. rewrite py_getitem_layout by done. simpl.
  apply py_getitem_slot; [lia |]. rewrite lookup_seq_lt by lia. reflexivity.
Qed.

(** One [if ...: addNeighbour(...)] statement on a cell with four slots. *)
Lemma link_spec (hp : ref -> GridPoint.t) (i k : nat) (guard : bool)
    (nrow ncol d : Z) :
  (i < Hn)%nat -> (k < Wn)%nat ->
  (guard = true -> 0 <= nrow < Z.of_nat Hn /\ 0 <= ncol < Z.of_nat Wn) ->
  0 <= d <= 3 ->
  length (_neighbours (hp (pos base Wn i k))) = 4%nat ->
  exists hp',
    link (layout base Hn Wn) hp (Z.of_nat i) (Z.of_nat k) guard nrow ncol d = Ok hp'
    /\ hp' (pos base Wn i k)
       = with_neighbours (hp (pos base Wn i k))
           (match edge hp guard (pos base Wn (Z.to_nat nrow) (Z.to_nat ncol)) with
            | Some n => <[Z.to_nat d := Some n]> (_neighbours (hp (pos base Wn i k)))
            | None => _neighbours (hp (pos base Wn i k))
            end)
    /\ (forall r, r ≠ pos base Wn i k -> hp' r = hp r).
Proof.
  intros Hi Hk Hin Hd Hlen. unfold link, edge.
  destruct guard; simpl.
  - destruct (Hin eq_refl) as [Hr Hc].
    rewrite cell_at_layout by done. simpl.
    case_bool_decide as Hcap; simpl.
    + rewrite cell_at_layout by lia. simpl. rewrite !Nat2Z.id.
      unfold addNeighbour, py_setitem, len. rewrite Hlen.
      rewrite bool_decide_eq_false_2 by lia.
      rewrite bool_decide_eq_false_2 by lia.
      rewrite (bool_decide_eq_false_2 (d < 0)) by lia.
      rewrite bool_decide_eq_false_2 by lia. simpl.
      eexists. split; [reflexivity |]. split.
      * by rewrite fn_lookup_insert.
      * intros r Hr'. by rewrite fn_lookup_insert_ne.
    + exists hp. split; [done |]. split; [| done]. by destruct (hp _).
  - exists hp. split; [done |]. split; [| done]. by destruct (hp _).
Qed.

Lemma link_step (hp : ref -> GridPoint.t) (i k : nat) (guard : bool)
    (nrow ncol d : Z) (ni nk : nat) :
  (i < Hn)%nat -> (k < Wn)%nat ->
  same_capacities hpA base Hn Wn hp ->
  (guard = true ->
   (ni < Hn)%nat /\ (nk < Wn)%nat /\ nrow = Z.of_nat ni /\ ncol = Z.of_nat nk) ->
  0 <= d <= 3 ->
  length (_neighbours (hp (pos base Wn i k))) = 4%nat ->
  exists hp',
    link (layout base Hn Wn) hp (Z.of_nat i) (Z.of_nat k) guard nrow ncol d = Ok hp'
    /\ hp' (pos base Wn i k)
       = with_neighbours (hp (pos base Wn i k))
           (match edge hpA guard (pos base Wn ni nk) with
            | Some n => <[Z.to_nat d := Some n]> (_neighbours (hp (pos base Wn i k)))
            | None => _neighbours (hp (pos base Wn i k))
            end)
    /\ (forall r, r ≠ pos base Wn i k -> hp' r = hp r)
    /\ same_capacities hpA base Hn Wn hp'
    /\ length (_neighbours (hp' (pos base Wn i k))) = 4%nat.
Proof.
  intros Hi Hk Hcap Hin Hd Hlen.
  destruct (link_spec hp i k guard nrow ncol d Hi Hk) as (hp' & Hrun & Hself & Hframe);
    [| done | done |].
  { intros Hg. destruct (Hin Hg) as (? & ? & -> & ->). lia. }
  assert (edge hp guard (pos base Wn (Z.to_nat nrow) (Z.to_nat ncol))
          = edge hpA guard (pos base Wn ni nk)) as He.
  { unfold edge. destruct guard; [| done]. simpl.
    destruct (Hin eq_refl) as (Hni & Hnk & -> & ->). rewrite !Nat2Z.id.
    by rewrite Hcap. }
  rewrite He in Hself.
  exists hp'. split; [done |]. split; [done |]. split; [done |]. split.
  - intros i' k' Hi' Hk'.
    destruct (decide (pos base Wn i' k' = pos base Wn i k)) as [-> | Hne].
    + rewrite Hself. simpl. by apply Hcap.
    + rewrite Hframe by done. by apply Hcap.
  - rewrite Hself. simpl. destruct (edge hpA guard _); [| done].
    by rewrite length_insert.
Qed.

(** The body of the adjacency loop on a cell that is not linked yet. *)
Lemma link_point_spec (hp : ref -> GridPoint.t) (i k : nat) :
  (i < Hn)%nat -> (k < Wn)%nat ->
  same_capacities hpA base Hn Wn hp ->
  _neighbours (hp (pos base Wn i k)) = [None; None; None; None] ->
  exists hp',
    link_point (layout base Hn Wn) (Z.of_nat i) hp (Z.of_nat k) = Ok hp'
    /\ hp' (pos base Wn i k)
       = with_neighbours (hp (pos base Wn i k))
           (linked_neighbours hpA base Hn Wn i k)
    /\ (forall r, r ≠ pos base Wn i k -> hp' r = hp r).
Proof.
  intros Hi Hk Hcap Hnone. unfold link_point.
  destruct (link_step hp i k (bool_decide (Z.of_nat i > 0))
              (Z.of_nat i - 1) (Z.of_nat k) 0 (i - 1) k)
    as (hp1 & -> & Hs1 & Hf1 & Hc1 & Hl1); try done.
  { intros Hg%bool_decide_eq_true. lia. }
  { by rewrite Hnone. }
  simpl. rewrite py_getitem_layout by lia. simpl.
  rewrite len_layout. unfold len. rewrite (length_seq Wn).
  destruct (link_step hp1 i k (bool_decide (Z.of_nat k < Z.of_nat Wn - 1))
              (Z.of_nat i) (Z.of_nat k + 1) 1 i (k + 1))
    as (hp2 & -> & Hs2 & Hf2 & Hc2 & Hl2); try done.
  { intros Hg%bool_decide_eq_true. lia. }
  simpl.
  destruct (link_step hp2 i k (bool_decide (Z.of_nat i < Z.of_nat Hn - 1))
              (Z.of_nat i + 1) (Z.of_nat k) 2 (i + 1) k)
    as (hp3 & -> & Hs3 & Hf3 & Hc3 & Hl3); try done.
  { intros Hg%bool_decide_eq_true. lia. }
  simpl.
  destruct (link_step hp3 i k (bool_decide (Z.of_nat k > 0))
              (Z.of_nat i) (Z.of_nat k - 1) 3 i (k - 1))
    as (hp4 & -> & Hs4 & Hf4 & Hc4 & Hl4); try done.
  { intros Hg%bool_decide_eq_true. lia. }
  exists hp4. split; [done |]. split.
  - rewrite Hs4, Hs3, Hs2, Hs1. simpl. rewrite Hnone.
    unfold linked_neighbours. f_equal.
    rewrite (bool_decide_ext (Z.of_nat i > 0) (0 < i)%nat) by lia.
    rewrite (bool_decide_ext (Z.of_nat k < Z.of_nat Wn - 1) (k + 1 < Wn)%nat) by lia.
    rewrite (bool_decide_ext (Z.of_nat i < Z.of_nat Hn - 1) (i + 1 < Hn)%nat) by lia.
    rewrite (bool_decide_ext (Z.of_nat k > 0) (0 < k)%nat) by lia.
    unfold edge.
    destruct (bool_decide (0 < i)%nat && _), (bool_decide (k + 1 < Wn)%nat && _),
      (bool_decide (i + 1 < Hn)%nat && _), (bool_decide (0 < k)%nat && _);
      reflexivity.
  - intros r Hr. rewrite Hf4, Hf3, Hf2, Hf1; done.
Qed.

Lemma linked_before_capacities (i k : nat) (hp : ref -> GridPoint.t) :
  linked_before hpA base Hn Wn i k hp -> same_capacities hpA base Hn Wn hp.
Proof.
  intros Hinv i' k' Hi' Hk'. rewrite (Hinv i' k' Hi' Hk').
  by case_bool_decide.
Qed.

(** The inner loop, from column [k0] on. *)
Lemma link_columns_spec (i : nat) (n : nat) :
  (i < Hn)%nat ->
  forall (k0 : nat) (hp : ref -> GridPoint.t),
  (k0 + n = Wn)%nat ->
  linked_before hpA base Hn Wn i k0 hp ->
  exists hp',
    foldM (link_point (layout base Hn Wn) (Z.of_nat i)) hp
          (seqZ (Z.of_nat k0) (Z.of_nat n)) = Ok hp'
    /\ linked_before hpA base Hn Wn i (k0 + n) hp'.
Proof.
  intros Hi. induction n as [|n IH]; intros k0 hp Hk0 Hinv.
  - rewrite seqZ_nil by lia. simpl. exists hp. split; [done |].
    by rewrite Nat.add_0_r.
  - rewrite seqZ_cons by lia. simpl.
    destruct (link_point_spec hp i k0) as (hp1 & -> & Hself & Hframe);
      [done | lia | by eapply linked_before_capacities | |].
    { rewrite (Hinv i k0) by lia. rewrite bool_decide_eq_false_2 by lia.
      apply unlinked; lia. }
    simpl.
    replace (Z.succ (Z.of_nat k0)) with (Z.of_nat (S k0)) by lia.
    replace (Z.pred (Z.of_nat (S n))) with (Z.of_nat n) by lia.
    replace (k0 + S n)%nat with (S k0 + n)%nat by lia.
    apply IH; [lia |].
    intros i' k' Hi' Hk'.
    destruct (decide (pos base Wn i' k' = pos base Wn i k0)) as [Heq | Hne].
    + apply pos_inj in Heq as [-> ->]; [| lia | lia].
      rewrite Hself, (Hinv i k0) by lia.
      rewrite bool_decide_eq_false_2 by lia.
      rewrite bool_decide_eq_true_2 by lia. done.
    + rewrite Hframe, (Hinv i' k') by done.
      assert (~ (i' = i /\ k' = k0)) by (intros [-> ->]; done).
      repeat case_bool_decide; (done || (exfalso; lia)).
Qed.

(** The outer loop, from row [i0] on. *)
Lemma link_rows_spec (n : nat) :
  forall (i0 : nat) (hp : ref -> GridPoint.t),
  (i0 + n = Hn)%nat ->
  linked_before hpA base Hn Wn i0 0 hp ->
  exists hp',
    foldM (link_row (layout base Hn Wn)) hp
          (seqZ (Z.of_nat i0) (Z.of_nat n)) = Ok hp'
    /\ linked_before hpA base Hn Wn (i0 + n) 0 hp'.
Proof.
  induction n as [|n IH]; intros i0 hp Hi0 Hinv.
  - rewrite seqZ_nil by lia. simpl. exists hp. split; [done |].
    by rewrite Nat.add_0_r.
  - rewrite seqZ_cons by lia. simpl. unfold link_row at 1.
    rewrite py_getitem_layout by lia. simpl.
    unfold len, range. rewrite (length_seq Wn).
    destruct (link_columns_spec i0 Wn ltac:(lia) 0%nat hp ltac:(lia) Hinv)
      as (hp1 & Hrun & Hinv1).
    change (Z.of_nat 0) with 0 in Hrun. rewrite Hrun. simpl.
    replace (Z.succ (Z.of_nat i0)) with (Z.of_nat (S i0)) by lia.
    replace (Z.pred (Z.of_nat (S n))) with (Z.of_nat n) by lia.
    replace (i0 + S n)%nat with (S i0 + n)%nat by lia.
    apply IH; [lia |].
    intros i' k' Hi' Hk'. rewrite (Hinv1 i' k') by done.
    repeat case_bool_decide; (done || (exfalso; lia)).
Qed.

(** The adjacency loop links every cell of the grid. *)
Lemma link_grid_spec :
  exists hp',
    link_grid (layout base Hn Wn) hpA = Ok hp'
    /\ forall i k, (i < Hn)%nat -> (k < Wn)%nat ->
         hp' (pos base Wn i k)
         = with_neighbours (hpA (pos base Wn i k))
             (linked_neighbours hpA base Hn Wn i k).
Proof.
  unfold link_grid, range. rewrite len_layout.
  destruct (link_rows_spec Hn 0%nat hpA ltac:(lia)) as (hp' & Hrun & Hinv).
  { intros i k Hi Hk. rewrite bool_decide_eq_false_2; [done | lia]. }
  exists hp'. split; [done |].
  intros i k Hi Hk. rewrite (Hinv i k) by done.
  rewrite bool_decide_eq_true_2; [done | lia].
Qed.

End Linking.

Section Construction.
Import GridPoint GridWorld.

Lemma edge_Some (hp : ref -> GridPoint.t) (inside : bool) (n a : ref) :
  edge hp inside n = Some a <-> inside = true /\ capacity (hp n) > 0 /\ a = n.
Proof.
  unfold edge. split.
  - destruct inside; simpl; [| discriminate].
    case_bool_decide; [| discriminate]. intros [= <-]. done.
  - intros (-> & Hc & ->). simpl. by rewrite bool_decide_eq_true_2.
Qed.

Lemma edge_ext (hp hp' : ref -> GridPoint.t) (inside : bool) (n : ref) :
  (inside = true -> capacity (hp n) = capacity (hp' n)) ->
  edge hp inside n = edge hp' inside n.
Proof.
  unfold edge. destruct inside; simpl; [| done]. intros H. by rewrite H.
Qed.

(** The neighbour lists depend on the capacities of the grid cells only. *)
Lemma linked_neighbours_ext (hp hp' : ref -> GridPoint.t) (base Hn Wn i k : nat) :
  same_capacities hp' base Hn Wn hp ->
  (i < Hn)%nat -> (k < Wn)%nat ->
  linked_neighbours hp base Hn Wn i k = linked_neighbours hp' base Hn Wn i k.
Proof.
  intros Hcap Hi Hk. unfold linked_neighbours.
  f_equal; [| f_equal; [| f_equal; [| f_equal]]];
    apply edge_ext; intros Hg%bool_decide_eq_true; apply Hcap; lia.
Qed.

(** What the constructor returns: the grid is laid out from [base], the
    cells are the ones the comprehension creates, linked by the loop. *)
Lemma init_spec (self : world_id) (base : ref) (hp0 : ref -> GridPoint.t)
    (h w mt ui : Z) (points occupants : option (gmap (Z * Z) Z))
    (W : GridWorld.t) (hp : ref -> GridPoint.t) :
  init self base hp0 h w mt ui points occupants = Ok (W, hp) ->
  _grid W = layout base (Z.to_nat h) (Z.to_nat w)
  /\ self_id W = self
  /\ well_linked hp base (Z.to_nat h) (Z.to_nat w)
  /\ (forall i k, (i < Z.to_nat h)%nat -> (k < Z.to_nat w)%nat ->
        exists c, new_point self points occupants (Z.of_nat k) (Z.of_nat i) = Ok c
          /\ hp (pos base (Z.to_nat w) i k)
             = with_neighbours c (_neighbours (hp (pos base (Z.to_nat w) i k)))).
Proof.
  unfold init.
  destruct (new_grid _ _ _ _ w (range h)) as [[st grid]|] eqn:Hgrid; simpl;
    [| discriminate].
  destruct (new_grid_spec _ _ _ _ _ _ _ _ Hgrid) as (Hrows & _ & Hcells & _).
  unfold range in Hrows, Hcells. rewrite length_seqZ in Hrows. simpl in *.
  fold (layout base (Z.to_nat h) (Z.to_nat w)) in Hrows. subst grid.
  assert (forall i k, (i < Z.to_nat h)%nat -> (k < Z.to_nat w)%nat ->
            new_point self points occupants (Z.of_nat k) (Z.of_nat i)
            = Ok (st.1 (pos base (Z.to_nat w) i k))) as Halloc.
  { intros i k Hi Hk. apply Hcells; [| done].
    rewrite lookup_seqZ_lt by lia. reflexivity. }
  destruct (link_grid_spec base (Z.to_nat h) (Z.to_nat w) st.1)
    as (hp' & -> & Hlinked).
  { intros i k Hi Hk.
    by destruct (new_point_shape _ _ _ _ _ _ (Halloc i k Hi Hk)) as (_ & _ & _ & ? & _). }
  simpl. intros [= <- <-]. simpl. split_and!; [done | done | |].
  - intros i k Hi Hk. rewrite (Hlinked i k Hi Hk). simpl.
    destruct (new_point_shape _ _ _ _ _ _ (Halloc i k Hi Hk)) as (Hx & Hy & _).
    split_and!; [done | done |].
    symmetry. apply linked_neighbours_ext; [| done | done].
    intros i' k' Hi' Hk'. by rewrite (Hlinked i' k' Hi' Hk').
  - intros i k Hi Hk. exists (st.1 (pos base (Z.to_nat w) i k)).
    split; [by apply Halloc |]. by rewrite (Hlinked i k Hi Hk).
Qed.

Lemma new_row_ok (self : world_id) (points occupants : option (gmap (Z * Z) Z))
    (py : Z) (xs : list Z) :
  (forall px, px ∈ xs -> exists c, new_point self points occupants px py = Ok c) ->
  forall st, exists st' rs, new_row self points occupants st py xs = Ok (st', rs).
Proof.
  induction xs as [|px xs IH]; intros Hok st; simpl.
  - by eexists _, _.
  - destruct (Hok px) as (c & ->); [apply list_elem_of_here |]. simpl.
    destruct (IH (fun qx Hq => Hok qx (list_elem_of_further _ _ _ Hq))
                (<[st.2 := c]> st.1, S st.2)) as (st' & rs & ->).
    simpl. by eexists _, _.
Qed.

Lemma new_grid_ok (self : world_id) (points occupants : option (gmap (Z * Z) Z))
    (w : Z) (ys : list Z) :
  (forall px py, px ∈ range w -> py ∈ ys ->
     exists c, new_point self points occupants px py = Ok c) ->
  forall st, exists st' rows, new_grid self points occupants st w ys = Ok (st', rows).
Proof.
  induction ys as [|py ys IH]; intros Hok st; simpl.
  - by eexists _, _.
  - destruct (new_row_ok self points occupants py (range w)) with (st := st)
      as (st1 & r1 & ->).
    { intros px Hpx. apply Hok; [done | apply list_elem_of_here]. }
    simpl.
    destruct (IH (fun qx qy Hx Hy => Hok qx qy Hx (list_elem_of_further _ _ _ Hy)) st1)
      as (st2 & rows & ->).
    simpl. by eexists _, _.
Qed.

(** The constructor returns a world whenever every cell of the grid can be
    created: the adjacency loop never raises. *)
Lemma init_succeeds (self : world_id) (base : ref) (hp0 : ref -> GridPoint.t)
    (h w mt ui : Z) (points occupants : option (gmap (Z * Z) Z)) :
  (forall px py, 0 <= px < w -> 0 <= py < h ->
     exists c, new_point self points occupants px py = Ok c) ->
  exists W hp, init self base hp0 h w mt ui points occupants = Ok (W, hp).
Proof.
  intros Hok. unfold init.
  destruct (new_grid_ok self points occupants w (range h)) with (st := (hp0, base))
    as (st & grid & Hgrid).
  { intros px py Hpx Hpy. unfold range in *.
    apply elem_of_seqZ in Hpx, Hpy. apply Hok; lia. }
  rewrite Hgrid. simpl.
  destruct (new_grid_spec _ _ _ _ _ _ _ _ Hgrid) as (Hrows & _ & Hcells & _).
  unfold range in Hrows, Hcells. rewrite length_seqZ in Hrows. simpl in *.
  fold (layout base (Z.to_nat h) (Z.to_nat w)) in Hrows. subst grid.
  destruct (link_grid_spec base (Z.to_nat h) (Z.to_nat w) st.1)
    as (hp' & -> & _).
  { intros i k Hi Hk.
    assert (new_point self points occupants (Z.of_nat k) (Z.of_nat i)
            = Ok (st.1 (pos base (Z.to_nat w) i k))) as Hc.
    { apply Hcells; [| done]. rewrite lookup_seqZ_lt by lia. reflexivity. }
    by destruct (new_point_shape _ _ _ _ _ _ Hc) as (_ & _ & _ & ? & _). }
  simpl. by eexists _, _.
Qed.

Lemma init_succeeds_witness :
  exists W hp, init 0%nat 0%nat empty_store 5 5 0 1 None None = Ok (W, hp).
Proof.
  apply (init_succeeds 0%nat 0%nat empty_store 5 5 0 1 None None).
  intros px py _ _. eexists. reflexivity.
Defined.

End Construction.

Section Adjacency.
Import GridPoint GridWorld.
Variables (base Hn Wn : nat) (hp : ref -> GridPoint.t).
Hypothesis linked : well_linked hp base Hn Wn.

Lemma py_getitem_inv {A : Type} (l : list A) (i : Z) (a : A) :
  0 <= i -> py_getitem l i = Ok a -> l !! Z.to_nat i = Some a.
Proof.
  intros Hi. unfold py_getitem.
  rewrite (bool_decide_eq_false_2 (i < 0)) by lia.
  rewrite bool_decide_eq_false_2 by lia.
  destruct (l !! Z.to_nat i); [by intros [= ->] | discriminate].
Qed.

(** A reference read from the grid at non-negative indices is the cell of
    that row and column. *)
Lemma cell_at_layout_inv (row col : Z) (b : ref) :
  0 <= row -> 0 <= col ->
  cell_at (layout base Hn Wn) row col = Ok b ->
  row < Z.of_nat Hn /\ col < Z.of_nat Wn
  /\ b = pos base Wn (Z.to_nat row) (Z.to_nat col).
Proof.
  intros Hrow Hcol. unfold cell_at.
  destruct (py_getitem (layout base Hn Wn) row) as [r|] eqn:Hr; simpl;
    [| discriminate].
  apply py_getitem_inv in Hr; [| done].
  unfold layout in Hr. rewrite list_lookup_fmap in Hr.
  destruct (seq 0 Hn !! Z.to_nat row) as [i|] eqn:Hi; simpl in Hr; [| discriminate].
  apply lookup_seq in Hi as [-> Hlt]. injection Hr as <-.
  intros Hb. apply py_getitem_inv in Hb; [| done].
  apply lookup_seq in Hb as [-> Hlt']. unfold pos. simpl. lia.
Qed.

(** The four slots of a grid cell, read one by one. *)
Lemma neighbour_of_linked (i k d : nat) (a : ref) :
  (i < Hn)%nat -> (k < Wn)%nat ->
  neighbour_of hp (pos base Wn i k) d a <->
  capacity (hp a) > 0 /\
  ((d = 0%nat /\ (0 < i)%nat /\ a = pos base Wn (i - 1) k)
   \/ (d = 1%nat /\ (k + 1 < Wn)%nat /\ a = pos base Wn i (k + 1))
   \/ (d = 2%nat /\ (i + 1 < Hn)%nat /\ a = pos base Wn (i + 1) k)
   \/ (d = 3%nat /\ (0 < k)%nat /\ a = pos base Wn i (k - 1))).
Proof.
  intros Hi Hk. unfold neighbour_of.
  destruct (linked i k Hi Hk) as (_ & _ & ->). unfold linked_neighbours.
  destruct d as [|[|[|[|d]]]]; simpl.
  - split.
    + intros [= (Hg%bool_decide_eq_true & Hc & ->)%edge_Some]. split; [done |].
      left. done.
    + intros (Hc & [(_ & Hg & ->) | [(? & _) | [(? & _) | (? & _)]]]); try discriminate.
      f_equal. apply edge_Some. by rewrite bool_decide_eq_true.
  - split.
    + intros [= (Hg%bool_decide_eq_true & Hc & ->)%edge_Some]. split; [done |].
      right; left. done.
    + intros (Hc & [(? & _) | [(_ & Hg & ->) | [(? & _) | (? & _)]]]); try discriminate.
      f_equal. apply edge_Some. by rewrite bool_decide_eq_true.
  - split.
    + intros [= (Hg%bool_decide_eq_true & Hc & ->)%edge_Some]. split; [done |].
      right; right; left. done.
    + intros (Hc & [(? & _) | [(? & _) | [(_ & Hg & ->) | (? & _)]]]); try discriminate.
      f_equal. apply edge_Some. by rewrite bool_decide_eq_true.
  - split.
    + intros [= (Hg%bool_decide_eq_true & Hc & ->)%edge_Some]. split; [done |].
      right; right; right. done.
    + intros (Hc & [(? & _) | [(? & _) | [(? & _) | (_ & Hg & ->)]]]); try discriminate.
      f_equal. apply edge_Some. by rewrite bool_decide_eq_true.
  - split; [discriminate |].
    intros (_ & [(? & _) | [(? & _) | [(? & _) | (? & _)]]]); discriminate.
Qed.

End Adjacency.

Section GridClaims.
Import GridPoint GridWorld.

(** C7: in a grid that the constructor has built, every cell has a
    neighbour list of four slots; a neighbour is always a cell of positive
    capacity; the neighbour of the cell at [(row, col)] in direction [d] is
    the cell one step in that direction, when it is inside the grid and its
    capacity is positive; and when the cell's own capacity is positive, it
    is in turn the neighbour of each of its neighbours in the opposite
    direction. *)
Theorem grid_adjacency (self : world_id) (base : ref) (hp0 : ref -> GridPoint.t)
    (h w mt ui : Z) (points occupants : option (gmap (Z * Z) Z))
    (W : GridWorld.t) (hp : ref -> GridPoint.t) :
  init self base hp0 h w mt ui points occupants = Ok (W, hp) ->
  forall (row col : Z) (b : ref),
    0 <= row -> 0 <= col -> cell_at (_grid W) row col = Ok b ->
    length (_neighbours (hp b)) = 4%nat
    /\ (forall d a, neighbour_of hp b d a -> capacity (hp a) > 0)
    /\ (forall d a, (d < 4)%nat ->
          neighbour_of hp b d a <->
          0 <= (towards d row col).1 /\ 0 <= (towards d row col).2
          /\ cell_at (_grid W) (towards d row col).1 (towards d row col).2 = Ok a
          /\ capacity (hp a) > 0)
    /\ (capacity (hp b) > 0 ->
        forall d a, neighbour_of hp b d a -> neighbour_of hp a (opposite d) b).
Proof.
  intros Hinit row col b Hrow Hcol Hb.
  destruct (init_spec _ _ _ _ _ _ _ _ _ _ _ Hinit) as (Hgrid & _ & Hlinked & _).
  rewrite Hgrid in *.
  set (Hn := Z.to_nat h) in *. set (Wn := Z.to_nat w) in *.
  destruct (cell_at_layout_inv base Hn Wn row col b Hrow Hcol Hb)
    as (Hrow' & Hcol' & ->).
  set (i := Z.to_nat row). set (k := Z.to_nat col).
  assert (i < Hn)%nat as Hi by lia. assert (k < Wn)%nat as Hk by lia.
  pose proof (neighbour_of_linked base Hn Wn hp Hlinked i k) as Hnb.
  split_and!.
  - destruct (Hlinked i k Hi Hk) as (_ & _ & ->). reflexivity.
  - intros d a Ha. apply Hnb in Ha; [| done | done]. by destruct Ha.
  - intros d a Hd. rewrite Hnb by done.
    destruct d as [|[|[|[|d]]]]; [| | | | lia]; simpl; split.
    + intros (Hc & [(_ & Hg & ->) | [(? & _) | [(? & _) | (? & _)]]]);
        try discriminate.
      split_and!; [lia | lia | | done].
      rewrite cell_at_layout by lia. do 2 f_equal; lia.
    + intros (Hr & Hc & Ha & Hcap).
      apply cell_at_layout_inv in Ha as (_ & _ & ->); [| done | done].
      split; [done |]. left. split_and!; [done | lia | f_equal; lia].
    + intros (Hc & [(? & _) | [(_ & Hg & ->) | [(? & _) | (? & _)]]]);
        try discriminate.
      split_and!; [lia | lia | | done].
      rewrite cell_at_layout by lia. do 2 f_equal; lia.
    + intros (Hr & Hc & Ha & Hcap).
      apply cell_at_layout_inv in Ha as (_ & ? & ->); [| done | done].
      split; [done |]. right; left. split_and!; [done | lia | f_equal; lia].
    + intros (Hc & [(? & _) | [(? & _) | [(_ & Hg & ->) | (? & _)]]]);
        try discriminate.
      split_and!; [lia | lia | | done].
      rewrite cell_at_layout by lia. do 2 f_equal; lia.
    + intros (Hr & Hc & Ha & Hcap).
      apply cell_at_layout_inv in Ha as (? & _ & ->); [| done | done].
      split; [done |]. right; right; left. split_and!; [done | lia | f_equal; lia].
    + intros (Hc & [(? & _) | [(? & _) | [(? & _) | (_ & Hg & ->)]]]);
        try discriminate.
      split_and!; [lia | lia | | done].
      rewrite cell_at_layout by lia. do 2 f_equal; lia.
    + intros (Hr & Hc & Ha & Hcap).
      apply cell_at_layout_inv in Ha as (_ & _ & ->); [| done | done].
      split; [done |]. right; right; right. split_and!; [done | lia | f_equal; lia].
  - intros Hcap d a Ha. apply Hnb in Ha; [| done | done].
    destruct Ha as (_ & [(-> & Hg & ->) | [(-> & Hg & ->) | [(-> & Hg & ->) | (-> & Hg & ->)]]]);
      simpl; apply (neighbour_of_linked base Hn Wn hp Hlinked); try lia;
      (split; [done |]).
    + right; right; left. split_and!; [done | lia | f_equal; lia].
    + right; right; right. split_and!; [done | lia | f_equal; lia].
    + left. split_and!; [done | lia | f_equal; lia].
    + right; left. split_and!; [done | lia | f_equal; lia].
Qed.

Lemma grid_adjacency_witness :
  length (_neighbours (walled_world.2 13%nat)) = 4%nat
  /\ (forall d a, neighbour_of walled_world.2 13%nat d a ->
        capacity (walled_world.2 a) > 0)
  /\ (forall d a, (d < 4)%nat ->
        neighbour_of walled_world.2 13%nat d a <->
        0 <= (towards d 1 1).1 /\ 0 <= (towards d 1 1).2
        /\ cell_at (_grid walled_world.1) (towards d 1 1).1 (towards d 1 1).2 = Ok a
        /\ capacity (walled_world.2 a) > 0)
  /\ (capacity (walled_world.2 13%nat) > 0 ->
      forall d a, neighbour_of walled_world.2 13%nat d a ->
        neighbour_of walled_world.2 a (opposite d) 13%nat).
Proof.
  apply (grid_adjacency 0%nat 10%nat empty_store 2 2 0 1 (Some walled_points) None
           walled_world.1 walled_world.2).
  - vm_compute. reflexivity.
  - lia.
  - lia.
  - vm_compute. reflexivity.
Defined.

(** In the walled grid, the cell below the wall has no north neighbour and
    the cell left of it no east neighbour, while the wall itself keeps its
    own outgoing slots. *)
Lemma walled_world_neighbours :
  _grid walled_world.1 = [[10; 11]; [12; 13]]%nat
  /\ _neighbours (walled_world.2 10%nat) = [None; None; Some 12%nat; None]
  /\ _neighbours (walled_world.2 11%nat) = [None; None; Some 13%nat; Some 10%nat]
  /\ _neighbours (walled_world.2 12%nat) = [Some 10%nat; Some 13%nat; None; None]
  /\ _neighbours (walled_world.2 13%nat) = [None; None; None; Some 12%nat].
Proof. vm_compute. done. Qed.

End GridClaims.

Section Moves.
Import GridPoint GridWorld.

Lemma same_topology_refl (hp : ref -> GridPoint.t) : same_topology hp hp.
Proof. intros r. done. Qed.

Lemma same_topology_trans (hp1 hp2 hp3 : ref -> GridPoint.t) :
  same_topology hp1 hp2 -> same_topology hp2 hp3 -> same_topology hp1 hp3.
Proof.
  intros H12 H23 r. destruct (H12 r) as (? & ? & ? & ?).
  destruct (H23 r) as (? & ? & ? & ?). split_and!; congruence.
Qed.

(** Changing the occupants of one cell keeps the topology. *)
Lemma with_occupants_same_topology (hp : ref -> GridPoint.t) (self : ref)
    (l : list obj) :
  same_topology (<[self := with_occupants (hp self) l]> hp) hp.
Proof.
  intros r. destruct (decide (self = r)) as [<- | Hne].
  - rewrite fn_lookup_insert. done.
  - rewrite fn_lookup_insert_ne by done. done.
Qed.

Lemma cell_placeOccupant_same_topology (hp : ref -> GridPoint.t) (self : ref)
    (parent : world_id) (o : obj) :
  same_topology (GridPoint.placeOccupant hp self parent o).1 hp.
Proof.
  unfold GridPoint.placeOccupant. destruct (_ || _); simpl.
  - apply same_topology_refl.
  - apply with_occupants_same_topology.
Qed.

Lemma occupy_same_topology (hp : ref -> GridPoint.t) (self : ref) (o : obj)
    (origin : Z * Z) :
  same_topology (occupy hp self o origin).1 hp.
Proof.
  unfold occupy. repeat case_bool_decide; simpl;
    try apply same_topology_refl. apply with_occupants_same_topology.
Qed.

Lemma vacate_same_topology (hp hp' : ref -> GridPoint.t) (self : ref) (o : obj)
    (d : option Z) (r : option ref) :
  vacate hp self o d = Ok (hp', r) -> same_topology hp' hp.
Proof.
  unfold vacate, remove_occupant.
  destruct (py_in _ _); simpl; [| intros [= <- <-]; apply same_topology_refl].
  destruct d as [d|].
  - destruct (py_getitem _ d) as [[n|]|]; simpl;
      [| intros [= <- <-]; apply same_topology_refl | discriminate].
    destruct (occupied (hp n)); [intros [= <- <-]; apply same_topology_refl |].
    destruct (py_remove _ _) as [l|]; simpl; [| discriminate].
    rewrite fn_lookup_insert.
    pose proof (occupy_same_topology
                  (<[self := with_occupants (hp self) l]> hp) n o
                  (x (with_occupants (hp self) l), y (with_occupants (hp self) l)))
      as Hocc.
    destruct (occupy _ n o _) as [hp2 [got|]]; simpl in *; intros [= <- <-];
      (eapply same_topology_trans;
       [exact Hocc | apply with_occupants_same_topology]).
  - destruct (py_remove _ _) as [l|]; simpl; [| discriminate].
    intros [= <- <-]. apply with_occupants_same_topology.
Qed.

(** Placing an occupant through the world keeps the grid and its topology. *)
Lemma placeOccupant_same_topology (W W' : GridWorld.t) (hp hp' : ref -> GridPoint.t)
    (objs : obj -> GridObject.t) (o : obj) (row col : Z) (isAgent placed : bool) :
  GridWorld.placeOccupant W hp objs o row col isAgent = Ok (W', hp', placed) ->
  _grid W' = _grid W /\ same_topology hp' hp.
Proof.
  unfold GridWorld.placeOccupant.
  set (W1 := if isAgent then _ else W).
  assert (_grid W1 = _grid W) as Hg by (unfold W1; by destruct isAgent).
  destruct (cell_at (_grid W1) row col) as [here|]; simpl; [| discriminate].
  pose proof (cell_placeOccupant_same_topology hp here (self_id W1) o) as Htop.
  destruct (GridPoint.placeOccupant hp here (self_id W1) o) as [hp1 b].
  intros [= <- <- <-]. done.
Qed.

(** Writing back the position an object already has changes nothing. *)
Lemma setattr_same_position (s : GridObject.t) :
  setattr (setattr s (GridObject.At_x (GridObject.x s)))
          (GridObject.At_y (GridObject.y s)) = s.
Proof. destruct s as [[] ? ? ? ? ? ? ? ? ? ? ?]; reflexivity. Qed.

End Moves.

Section MoveClaims.
Import GridPoint GridWorld.

Lemma odict_get_set {V : Type} (d : list (nat * V)) (k : nat) (v : V) :
  odict_get (odict_set d k v) k = Ok v.
Proof.
  induction d as [|[k' v'] d IH]; simpl.
  - by rewrite bool_decide_eq_true_2.
  - case_bool_decide as Hk; simpl.
    + by rewrite bool_decide_eq_true_2.
    + by rewrite bool_decide_eq_false_2.
Qed.

(** The topology of a built grid is that of every later store. *)
Lemma well_linked_same_topology (hp hpi : ref -> GridPoint.t) (base Hn Wn : nat) :
  well_linked hpi base Hn Wn -> same_topology hp hpi -> well_linked hp base Hn Wn.
Proof.
  intros Hl Htop i k Hi Hk. destruct (Hl i k Hi Hk) as (Hx & Hy & Hnb).
  destruct (Htop (pos base Wn i k)) as (-> & -> & -> & _).
  split_and!; [done | done |]. rewrite Hnb.
  symmetry. apply linked_neighbours_ext; [| done | done].
  intros i' k' _ _. unfold capacity. by destruct (Htop (pos base Wn i' k')) as (_ & _ & _ & ->).
Qed.

Lemma odict_set_id {V : Type} (d : list (nat * V)) (k : nat) (v : V) :
  odict_get d k = Ok v -> odict_set d k v = d.
Proof.
  induction d as [|[k' v'] d IH]; simpl; [discriminate |].
  case_bool_decide as Hk.
  - intros [= ->]. by subst k'.
  - intros H. by rewrite IH.
Qed.

(** A move from inside the grid to a destination outside of it, in a world
    built by the constructor.  The bounds test of [_applyAction] compares the
    destination column with the number of rows and the destination row with
    the number of columns; only a destination that passes it as written,
    [in_bounds w h], reaches [vacate], and only then must the agent be an
    occupant of the cell and have a roster entry. *)
Lemma applyAction_outside_grid (self : world_id) (base : ref)
    (hp0 : ref -> GridPoint.t) (h w mt ui : Z)
    (points occupants : option (gmap (Z * Z) Z))
    (W0 : GridWorld.t) (hpi : ref -> GridPoint.t)
    (W : GridWorld.t) (hp : ref -> GridPoint.t) (objs : obj -> GridObject.t)
    (a : Action.t) (here : ref) :
  init self base hp0 h w mt ui points occupants = Ok (W0, hpi) ->
  _grid W = _grid W0 ->
  same_topology hp hpi ->
  Action.actionCode a = Action.move ->
  in_bounds h w (Action.x a, Action.y a) ->
  ~ in_bounds h w (destination a) ->
  getLocation W (Action.x a) (Action.y a) = Ok here ->
  (in_bounds w h (destination a) ->
   Action.agent a ∈ _occupants (hp here)
   /\ exists e, odict_get (_agents W) (GridObject._objectID (objs (Action.agent a)))
               = Ok e) ->
  (exists W', _applyAction W hp objs a = Ok (W', hp, Some here)
              /\ _grid W' = _grid W
              /\ (forall e,
                    odict_get (_agents W) (GridObject._objectID (objs (Action.agent a)))
                    = Ok e ->
                    e.1 = (Action.x a, Action.y a) -> W' = W))
  /\ x (hp here) = Action.x a /\ y (hp here) = Action.y a
  /\ (forall s, GridObject._currentAction s = Some a ->
        GridObject.x s = Action.x a -> GridObject.y s = Action.y a ->
        GridAgentMethods.actionResult hp s (Some here) = Ok s).
Proof.
  intros Hinit Hgrid Htop Hcode [Hx Hy] Hout Hhere Hpass.
  simpl in Hx, Hy.
  destruct (init_spec _ _ _ _ _ _ _ _ _ _ _ Hinit) as (Hlay & _ & Hlinked & _).
  rewrite Hlay in Hgrid. unfold getLocation in Hhere. rewrite Hgrid in Hhere.
  set (Hn := Z.to_nat h) in *. set (Wn := Z.to_nat w) in *.
  apply (well_linked_same_topology hp) in Hlinked; [| done].
  pose proof Hhere as Hpos.
  apply cell_at_layout_inv in Hpos as (_ & _ & Hpos); [| lia | lia].
  set (i := Z.to_nat (Action.y a)) in *. set (k := Z.to_nat (Action.x a)) in *.
  assert (i < Hn)%nat as Hi by lia. assert (k < Wn)%nat as Hk by lia.
  destruct (Hlinked i k Hi Hk) as (Hcx & Hcy & Hnbs). rewrite <- Hpos in *.
  assert (x (hp here) = Action.x a) as Hxa by lia.
  assert (y (hp here) = Action.y a) as Hya by lia.
  split_and!; [| done | done |].
  - unfold _applyAction. rewrite Hcode. unfold Action.move.
    rewrite bool_decide_eq_false_2 by lia.
    rewrite bool_decide_eq_true_2 by done.
    destruct (destination a) as [dx dy] eqn:Hdest.
    rewrite Hgrid, Hhere. simpl.
    rewrite len_layout.
    assert (py_getitem (layout base Hn Wn) 0 = Ok (seq (base + 0 * Wn) Wn)) as Hr0.
    { rewrite py_getitem_layout by lia. reflexivity. }
    rewrite Hr0. clear Hr0.
    case_bool_decide as H1; simpl; [by exists W; rewrite Hgrid |].
    case_bool_decide as H2; simpl; [by exists W; rewrite Hgrid |].
    case_bool_decide as H3; simpl; [by exists W; rewrite Hgrid |].
    case_bool_decide as H4; simpl; [by exists W; rewrite Hgrid |].
    unfold len in H4. rewrite length_seq in H4.
    (* the bounds test let the move through: the slot taken is empty *)
    destruct Hpass as (Hocc & e & He).
    { unfold in_bounds. simpl. lia. }
    assert (py_getitem (_neighbours (hp here)) (Action.actionDirection a) = Ok None)
      as Hslot.
    { assert ((Action.actionDirection a = 1 /\ (k + 1)%nat = Wn)
              \/ (Action.actionDirection a = 2 /\ (i + 1)%nat = Hn)) as Hdir.
      { unfold destination in Hdest. injection Hdest as Hdx Hdy.
        unfold in_bounds in Hout. simpl in Hout.
        repeat case_bool_decide; lia. }
      rewrite Hnbs. unfold linked_neighbours.
      destruct Hdir as [[-> Hlast] | [-> Hlast]];
        (apply py_getitem_slot; [lia |]); simpl; f_equal;
        unfold edge; rewrite bool_decide_eq_false_2 by lia; reflexivity. }
    unfold vacate. apply py_in_true in Hocc. rewrite Hocc. simpl.
    rewrite Hslot. simpl. rewrite He. simpl.
    rewrite odict_get_set. simpl. eexists. split; [reflexivity |].
    split; [reflexivity |].
    intros e' [= <-] Hpos'. destruct e as [[ex ey] eo]. simpl in *.
    injection Hpos' as -> ->. rewrite Hxa, Hya.
    rewrite (odict_set_id _ _ _ He), (odict_set_id _ _ _ He), <- Hgrid.
    by destruct W.
  - intros s Hcur Hsx Hsy. unfold GridAgentMethods.actionResult.
    rewrite Hcur, Hcode. unfold Action.move. simpl.
    rewrite Hxa, Hya, <- Hsx, <- Hsy. by rewrite setattr_same_position.
Qed.

(** In a world built by the constructor, of any height and width, take
    a move proposed from a position inside the grid by an agent that is
    registered and is an occupant of the cell at that position.  If the
    destination lies outside the grid, [_applyAction] returns that cell and
    the store as it was, raising nothing, and the world is unchanged when
    its roster holds the agent at that position; the cell carries the
    position of the action, and an agent whose current action is this move
    and whose position is the action's is left unchanged by
    [actionResult]. *)
Theorem move_outside_grid_rejected (self : world_id) (base : ref)
    (hp0 : ref -> GridPoint.t) (h w mt ui : Z)
    (points occupants : option (gmap (Z * Z) Z))
    (W0 : GridWorld.t) (hpi : ref -> GridPoint.t)
    (W : GridWorld.t) (hp : ref -> GridPoint.t) (objs : obj -> GridObject.t)
    (a : Action.t) (here : ref) :
  init self base hp0 h w mt ui points occupants = Ok (W0, hpi) ->
  _grid W = _grid W0 ->
  same_topology hp hpi ->
  Action.actionCode a = Action.move ->
  in_bounds h w (Action.x a, Action.y a) ->
  ~ in_bounds h w (destination a) ->
  getLocation W (Action.x a) (Action.y a) = Ok here ->
  Action.agent a ∈ _occupants (hp here) ->
  (exists e, odict_get (_agents W) (GridObject._objectID (objs (Action.agent a))) = Ok e) ->
  (exists W', _applyAction W hp objs a = Ok (W', hp, Some here)
              /\ _grid W' = _grid W
              /\ (forall e,
                    odict_get (_agents W) (GridObject._objectID (objs (Action.agent a)))
                    = Ok e ->
                    e.1 = (Action.x a, Action.y a) -> W' = W))
  /\ x (hp here) = Action.x a /\ y (hp here) = Action.y a
  /\ (forall s, GridObject._currentAction s = Some a ->
        GridObject.x s = Action.x a -> GridObject.y s = Action.y a ->
        GridAgentMethods.actionResult hp s (Some here) = Ok s).
Proof.
  intros Hinit Hgrid Htop Hcode Hin Hout Hhere Hocc Hreg.
  eapply applyAction_outside_grid; eauto.
Qed.

Lemma move_outside_grid_rejected_witness :
  (exists W',
     _applyAction corner_world.1.1 corner_world.1.2 (fun _ => corner_choice.1)
                  corner_choice.2
     = Ok (W', corner_world.1.2, Some 0%nat)
     /\ _grid W' = _grid corner_world.1.1
     /\ (forall e,
           odict_get (_agents corner_world.1.1)
                     (GridObject._objectID (corner_choice.1)) = Ok e ->
           e.1 = (Action.x corner_choice.2, Action.y corner_choice.2) ->
           W' = corner_world.1.1))
  /\ x (corner_world.1.2 0%nat) = Action.x corner_choice.2
  /\ y (corner_world.1.2 0%nat) = Action.y corner_choice.2
  /\ (forall s, GridObject._currentAction s = Some corner_choice.2 ->
        GridObject.x s = Action.x corner_choice.2 ->
        GridObject.y s = Action.y corner_choice.2 ->
        GridAgentMethods.actionResult corner_world.1.2 s (Some 0%nat) = Ok s).
Proof.
  apply (move_outside_grid_rejected 0%nat 0%nat empty_store 5 5 0 1 None None
           open_world.1 open_world.2).
  - vm_compute. reflexivity.
  - vm_compute. reflexivity.
  - apply (placeOccupant_same_topology open_world.1 corner_world.1.1 open_world.2
             corner_world.1.2 (fun _ => corner_agent) 100%nat 0 0 true
             corner_world.2).
    vm_compute. reflexivity.
  - reflexivity.
  - split; vm_compute; split; (discriminate || reflexivity).
  - intros [[H _] _]. vm_compute in H. apply H. reflexivity.
  - vm_compute. reflexivity.
  - vm_compute. apply list_elem_of_here.
  - vm_compute. eexists. reflexivity.
Defined.

(** In a square world the bounds test catches every destination outside the
    grid: the move is rejected whether or not the agent is an occupant of
    the cell or has a roster entry, and the world is returned as it was. *)
Lemma move_outside_square_grid_rejected (self : world_id) (base : ref)
    (hp0 : ref -> GridPoint.t) (n mt ui : Z)
    (points occupants : option (gmap (Z * Z) Z))
    (W0 : GridWorld.t) (hpi : ref -> GridPoint.t)
    (W : GridWorld.t) (hp : ref -> GridPoint.t) (objs : obj -> GridObject.t)
    (a : Action.t) (here : ref) :
  init self base hp0 n n mt ui points occupants = Ok (W0, hpi) ->
  _grid W = _grid W0 ->
  same_topology hp hpi ->
  Action.actionCode a = Action.move ->
  in_bounds n n (Action.x a, Action.y a) ->
  ~ in_bounds n n (destination a) ->
  getLocation W (Action.x a) (Action.y a) = Ok here ->
  (exists W', _applyAction W hp objs a = Ok (W', hp, Some here)
              /\ _grid W' = _grid W)
  /\ x (hp here) = Action.x a /\ y (hp here) = Action.y a.
Proof.
  intros Hinit Hgrid Htop Hcode Hin Hout Hhere.
  destruct (applyAction_outside_grid self base hp0 n n mt ui points occupants
              W0 hpi W hp objs a here) as ((W' & Hrun & Hg & _) & Hx & Hy & _);
    try done.
  split_and!; [| done | done]. by exists W'.
Qed.

Lemma move_outside_square_grid_rejected_witness :
  (exists W',
     _applyAction open_world.1 open_world.2 (fun _ => corner_choice.1)
                  corner_choice.2
     = Ok (W', open_world.2, Some 0%nat)
     /\ _grid W' = _grid open_world.1)
  /\ x (open_world.2 0%nat) = Action.x corner_choice.2
  /\ y (open_world.2 0%nat) = Action.y corner_choice.2.
Proof.
  apply (move_outside_square_grid_rejected 0%nat 0%nat empty_store 5 0 1 None None
           open_world.1 open_world.2).
  - vm_compute. reflexivity.
  - reflexivity.
  - apply same_topology_refl.
  - reflexivity.
  - split; vm_compute; split; (discriminate || reflexivity).
  - intros [[H _] _]. vm_compute in H. apply H. reflexivity.
  - vm_compute. reflexivity.
Defined.

(** The scenario itself: the agent at [(0, 0)] of the 5 x 5 world proposes
    a move west; the world answers with the cell at [(0, 0)], itself
    unchanged, and the agent stays at [(0, 0)]. *)
Lemma west_from_corner :
  Action.actionCode corner_choice.2 = Action.move
  /\ Action.actionDirection corner_choice.2 = West
  /\ _applyAction corner_world.1.1 corner_world.1.2 (fun _ => corner_choice.1)
                  corner_choice.2
     = Ok (corner_world.1.1, corner_world.1.2, Some 0%nat)
  /\ (x (corner_world.1.2 0%nat), y (corner_world.1.2 0%nat)) = (0, 0)
  /\ _occupants (corner_world.1.2 0%nat) = [100%nat]
  /\ exists s,
       GridAgentMethods.actionResult corner_world.1.2 corner_choice.1 (Some 0%nat)
       = Ok s
       /\ (GridObject.x s, GridObject.y s) = (0, 0).
Proof.
  split_and!; try reflexivity.
  eexists. split; [vm_compute; reflexivity | reflexivity].
Qed.

(** In a world of one row and two columns the bounds test lets a move south
    from [(0, 0)] through, since it compares the row with the number of
    columns; the empty south slot of the cell then rejects the move, with
    the same result. *)
Lemma south_from_single_row :
  destination (choice 2).2 = (0, 1)
  /\ _applyAction (placed_world 1 2).1.1 (placed_world 1 2).1.2
                  (fun _ => (choice 2).1) (choice 2).2
     = Ok ((placed_world 1 2).1.1, (placed_world 1 2).1.2, Some 0%nat)
  /\ _neighbours ((placed_world 1 2).1.2 0%nat) = [None; Some 1%nat; None; None].
Proof. split_and!; vm_compute; reflexivity. Qed.

(** The same move for an agent that was never placed in the cell: [vacate]
    returns [None] for the missing occupant and reading the position of the
    result raises. *)
Lemma south_from_single_row_not_occupant :
  _applyAction (built_world 1 2).1 (built_world 1 2).2
               (fun _ => (choice 2).1) (choice 2).2
  = Raise AttributeError.
Proof. vm_compute. reflexivity. Qed.

(** C5 (code defect): a registered agent that its cell does not hold, as
    after a placement that the cell refused, proposes a move from a
    position inside the grid to a destination outside of it.  The bounds
    test of [_applyAction] compares the destination's column with the
    number of rows and its row with the number of columns; when the
    destination passes the test as coded, the move is not turned down:
    [vacate] answers [None] for the missing occupant and [_applyAction]
    raises [AttributeError] on reading the position of that answer. *)
Theorem move_outside_grid_raises (self : world_id) (base : ref)
    (hp0 : ref -> GridPoint.t) (h w mt ui : Z)
    (points occupants : option (gmap (Z * Z) Z))
    (W0 : GridWorld.t) (hpi : ref -> GridPoint.t)
    (W : GridWorld.t) (hp : ref -> GridPoint.t) (objs : obj -> GridObject.t)
    (a : Action.t) (here : ref) :
  init self base hp0 h w mt ui points occupants = Ok (W0, hpi) ->
  _grid W = _grid W0 ->
  Action.actionCode a = Action.move ->
  in_bounds h w (Action.x a, Action.y a) ->
  ~ in_bounds h w (destination a) ->
  in_bounds w h (destination a) ->
  getLocation W (Action.x a) (Action.y a) = Ok here ->
  (exists e, odict_get (_agents W) (GridObject._objectID (objs (Action.agent a))) = Ok e) ->
  Action.agent a ∉ _occupants (hp here) ->
  _applyAction W hp objs a = Raise AttributeError.
Proof.
  intros Hinit Hgrid Hcode [Hx Hy] _ Hpass Hhere _ Hno. simpl in Hx, Hy.
  destruct (init_spec _ _ _ _ _ _ _ _ _ _ _ Hinit) as (Hlay & _).
  unfold getLocation in Hhere.
  unfold _applyAction. rewrite Hcode. unfold Action.move.
  rewrite bool_decide_eq_false_2 by lia.
  rewrite bool_decide_eq_true_2 by done.
  destruct (destination a) as [dx dy]. destruct Hpass as [Hdx Hdy]. simpl in Hdx, Hdy.
  rewrite Hhere. rewrite Hgrid, Hlay, len_layout.
  assert (py_getitem (layout base (Z.to_nat h) (Z.to_nat w)) 0
          = Ok (seq (base + 0 * Z.to_nat w) (Z.to_nat w))) as ->.
  { rewrite py_getitem_layout by lia. reflexivity. }
  simpl. unfold len. rewrite (length_seq (Z.to_nat w)).
  rewrite (bool_decide_eq_false_2 (dx < 0)) by lia.
  rewrite (bool_decide_eq_false_2 (dy < 0)) by lia.
  rewrite (bool_decide_eq_false_2 (dx >= _)) by lia.
  simpl. rewrite (bool_decide_eq_false_2 (dy >= _)) by lia. simpl.
  unfold vacate. apply py_in_false in Hno. rewrite Hno. reflexivity.
Qed.

Lemma move_outside_grid_raises_witness :
  refused_world.2 = false
  /\ odict_get (_agents refused_world.1.1) (GridObject._objectID corner_agent)
     = Ok (0, 0, 100%nat)
  /\ destination (choice 2).2 = (0, 1)
  /\ _applyAction refused_world.1.1 refused_world.1.2
                  (fun _ => (choice 2).1) (choice 2).2
     = Raise AttributeError.
Proof.
  split; [vm_compute; reflexivity |].
  split; [vm_compute; reflexivity |].
  split; [vm_compute; reflexivity |].
  apply (move_outside_grid_raises 0%nat 0%nat empty_store 1 2 0 1
           (Some wall_row_points) None wall_row.1 wall_row.2
           refused_world.1.1 refused_world.1.2 (fun _ => (choice 2).1)
           (choice 2).2 0%nat).
  - vm_compute. reflexivity.
  - vm_compute. reflexivity.
  - reflexivity.
  - split; vm_compute; split; (discriminate || reflexivity).
  - intros [_ [_ H]]. vm_compute in H. discriminate H.
  - split; vm_compute; split; (discriminate || reflexivity).
  - vm_compute. reflexivity.
  - eexists. vm_compute. reflexivity.
  - vm_compute. apply not_elem_of_nil.
Defined.

(** The whole tick at that input: the agent registered on the wall cell
    draws south, and the tick raises. *)
Lemma tick_refused_agent_raises :
  _tick refused_world.1.1 refused_world.1.2 (fun _ => corner_agent) (fun _ => 2)
  = Raise AttributeError.
Proof. vm_compute. reflexivity. Qed.

End MoveClaims.

(** ** Ticks *)

Section Ticks.
Import GridPoint GridWorld.

(** [_applyAction] keeps every cell within its capacity. *)
Lemma applyAction_within_capacity (W W' : GridWorld.t) (hp hp' : ref -> GridPoint.t)
    (objs : obj -> GridObject.t) (a : Action.t) (r : option ref) :
  (forall c, within_capacity (hp c)) ->
  _applyAction W hp objs a = Ok (W', hp', r) ->
  forall c, within_capacity (hp' c).
Proof.
  intros Hinv. unfold _applyAction.
  case_bool_decide; [by intros [= <- <- <-] |].
  case_bool_decide; [| by intros [= <- <- <-]].
  destruct (destination a) as [dx dy].
  match goal with |- context [bind ?m _] => destruct m as [[]|] end; simpl;
    try discriminate.
  - destruct (cell_at _ _ _); simpl; [| discriminate]. by intros [= <- <- <-].
  - destruct (cell_at _ _ _) as [here|]; simpl; [| discriminate].
    destruct (vacate hp here _ _) as [[hp1 [sq|]]|] eqn:Hv; simpl;
      try discriminate.
    destruct (odict_get (_agents W) _); simpl; [| discriminate].
    destruct (odict_get _ _); simpl; [| discriminate].
    intros [= <- <- <-]. by eapply vacate_within_capacity.
Qed.

(** One agent's turn keeps every cell within its capacity. *)
Lemma turn_within_capacity (draws : nat -> Z) (key : nat)
    (W W' : GridWorld.t) (hp hp' : ref -> GridPoint.t)
    (objs objs' : obj -> GridObject.t) :
  (forall c, within_capacity (hp c)) ->
  turn draws (W, hp, objs) key = Ok (W', hp', objs') ->
  forall c, within_capacity (hp' c).
Proof.
  intros Hinv. unfold turn.
  destruct (odict_get (_agents W) key) as [[[a0 a1] a2]|]; simpl; [| discriminate].
  destruct (cell_at _ a0 a1) as [here|]; simpl; [| discriminate].
  destruct (GridAgentMethods.chooseAction _ _ _ _ _ _ _) as [s action].
  destruct (_applyAction W hp _ action) as [[[W1 hp1] r]|] eqn:Happ; simpl;
    [| discriminate].
  destruct (GridAgentMethods.actionResult _ _ _); simpl; [| discriminate].
  intros [= <- <- <-]. by eapply applyAction_within_capacity.
Qed.

(** The capacity invariant holds at every tick boundary: a tick that
    returns leaves every cell within its capacity, if every cell was. *)
Lemma tick_within_capacity (W W' : GridWorld.t) (hp hp' : ref -> GridPoint.t)
    (objs objs' : obj -> GridObject.t) (draws : nat -> Z) (more : bool) :
  (forall c, within_capacity (hp c)) ->
  _tick W hp objs draws = Ok (W', hp', objs', more) ->
  forall c, within_capacity (hp' c).
Proof.
  intros Hinv. unfold _tick.
  destruct (_ && _); [by intros [= <- <- <- <-] |].
  set (W1 := GridWorld.mk _ _ _ _ _ _).
  generalize (odict_keys (_agents W1)). intros keys.
  assert (forall st st', (forall c, within_capacity (st.1.2 c)) ->
            foldM (turn draws) st keys = Ok st' ->
            forall c, within_capacity (st'.1.2 c)) as Hloop.
  { induction keys as [|key keys IH]; intros st st' Hst; simpl.
    - by intros [= <-].
    - destruct (turn draws st key) as [st1|] eqn:Hturn; simpl; [| discriminate].
      apply IH. destruct st as [[? ?] ?], st1 as [[? ?] ?].
      by eapply turn_within_capacity. }
  destruct (foldM _ _ keys) as [[[W2 hp2] objs2]|] eqn:Hfold; simpl;
    [| discriminate].
  intros [= <- <- <- <-]. by apply (Hloop (W1, hp, objs) (W2, hp2, objs2) Hinv Hfold).
Qed.

Lemma tick_within_capacity_witness :
  ticked_world.2 = true /\ within_capacity (ticked_world.1.1.2 0%nat).
Proof.
  split; [vm_compute; reflexivity |].
  apply (tick_within_capacity corner_world.1.1 ticked_world.1.1.1
           corner_world.1.2 ticked_world.1.1.2
           (fun _ => corner_agent) ticked_world.1.2 (fun _ => 3) ticked_world.2).
  - intros c.
    do 26 (destruct c as [|c]; [vm_compute; discriminate |]).
    vm_compute. discriminate.
  - vm_compute. reflexivity.
Defined.

(** A tick of the 5 x 5 world in which the agent at [(0, 0)] draws west:
    the clock advances, the agent's cell and position stay, and the tick
    asks for more. *)
Lemma tick_west_from_corner :
  exists W' hp' objs',
    _tick corner_world.1.1 corner_world.1.2 (fun _ => corner_agent) (fun _ => 3)
    = Ok (W', hp', objs', true)
    /\ _time W' = 1
    /\ _agents W' = [(7%nat, (0, 0, 100%nat))]
    /\ _occupants (hp' 0%nat) = [100%nat]
    /\ (GridObject.x (objs' 100%nat), GridObject.y (objs' 100%nat)) = (0, 0).
Proof. do 3 eexists. split; [vm_compute; reflexivity |]. split_and!; reflexivity. Qed.

End Ticks.

(** ** Objects and agents: attributes, placement, observations *)

Section AgentState.
Import GridObject.

Lemma setattr_protected (s : GridObject.t) (a : attr) :
  cls (setattr s a) = cls s
  /\ _objectName (setattr s a) = _objectName s
  /\ _objectID (setattr s a) = _objectID s
  /\ _static (setattr s a) = _static s
  /\ _world (setattr s a) = _world s
  /\ (cls s = GridAgent_class -> _currentAction (setattr s a) = _currentAction s).
Proof.
  unfold setattr, GridAgent.__setattr__, GridObject.__setattr__.
  destruct s as [[] ? ? ? ? ? ? ? ? ? ? ?], a; simpl; split_and!; try done.
Qed.

(** No sequence of assignments to the attributes that the classes create
    changes the name, the identifier, the static flag or the world of an
    object, nor the current action of an agent: an assignment to one of
    the guarded names is dropped, and an assignment to any of the others
    leaves the guarded ones alone. *)
Lemma protected_attributes_fixed (s : GridObject.t) (l : list attr) :
  cls (assign_all s l) = cls s
  /\ _objectName (assign_all s l) = _objectName s
  /\ _objectID (assign_all s l) = _objectID s
  /\ _static (assign_all s l) = _static s
  /\ _world (assign_all s l) = _world s
  /\ (cls s = GridAgent_class ->
      _currentAction (assign_all s l) = _currentAction s).
Proof.
  unfold assign_all. revert s. induction l as [|a l IH]; intros s; simpl.
  - split_and!; done.
  - destruct (IH (setattr s a)) as (Hc & Hn & Hi & Hs & Hw & Ha).
    destruct (setattr_protected s a) as (Hc' & Hn' & Hi' & Hs' & Hw' & Ha').
    split_and!; try congruence.
    intros Hcls. rewrite Ha by congruence. by apply Ha'.
Qed.

(** [place] moves the object exactly when the world given is the object's
    own; the world reference and the identity are kept either way.  An
    object built without a world is never moved to a position of a world. *)
Lemma place_moves_iff_own_world (s : GridObject.t) (world : option world_id)
    (px py : Z) :
  (_world s = world ->
   x (GridObjectMethods.place s world px py) = px
   /\ y (GridObjectMethods.place s world px py) = py)
  /\ (_world s ≠ world -> GridObjectMethods.place s world px py = s)
  /\ _world (GridObjectMethods.place s world px py) = _world s
  /\ _objectID (GridObjectMethods.place s world px py) = _objectID s
  /\ (forall w, _world s = None ->
        GridObjectMethods.place s (Some w) px py = s).
Proof.
  assert (forall w', _world s ≠ w' -> GridObjectMethods.place s w' px py = s) as Hne.
  { intros w' H. unfold GridObjectMethods.place. rewrite setattr_world.
    destruct (bool_decide (_world s = None)); by rewrite bool_decide_eq_false_2. }
  split_and!.
  - intros <-. unfold GridObjectMethods.place. rewrite setattr_world.
    assert ((if bool_decide (_world s = None) then s else s) = s) as ->
      by (by destruct (bool_decide _)).
    rewrite bool_decide_eq_true_2 by done.
    unfold setattr, GridAgent.__setattr__, GridObject.__setattr__.
    destruct s as [[] ? ? ? ? ? ? ? ? ? ? ?]; simpl; done.
  - apply Hne.
  - apply place_world.
  - unfold GridObjectMethods.place. rewrite setattr_world.
    assert ((if bool_decide (_world s = None) then s else s) = s) as ->
      by (by destruct (bool_decide _)).
    case_bool_decide; [| done].
    unfold setattr, GridAgent.__setattr__, GridObject.__setattr__.
    destruct s as [[] ? ? ? ? ? ? ? ? ? ? ?]; simpl; done.
  - intros w Hw. apply Hne. rewrite Hw. discriminate.
Qed.

(** What the constructor of an agent leaves: the name is ["agent"] whatever
    name is passed, the identifier is the one given or the fresh one, and
    there is no current action, since the constructor's assignment to it is
    dropped by the agent's own [__setattr__]; so [actionResult] raises
    [AttributeError] on a new agent, whatever the result. *)
Lemma new_agent_has_no_action (self : obj) (fresh : nat) (name : string)
    (obj_id : option nat) (world : option world_id) (px py : Z) :
  _objectName (GridAgentMethods.init self fresh name obj_id world px py) = "agent"
  /\ _objectID (GridAgentMethods.init self fresh name obj_id world px py)
     = default fresh obj_id
  /\ x (GridAgentMethods.init self fresh name obj_id world px py) = px
  /\ y (GridAgentMethods.init self fresh name obj_id world px py) = py
  /\ _frontier (GridAgentMethods.init self fresh name obj_id world px py)
     = Some [(px, py)]
  /\ _currentAction (GridAgentMethods.init self fresh name obj_id world px py) = None
  /\ (forall hp result,
        GridAgentMethods.actionResult hp
          (GridAgentMethods.init self fresh name obj_id world px py) result
        = Raise AttributeError).
Proof.
  destruct obj_id; split_and!; reflexivity.
Qed.

(** After [chooseAction] in the agent's own world, the current action is a
    move in the direction drawn, from the agent's own position (not the one
    passed); [actionResult] then takes the coordinates of the cell it is
    given, keeps world and identifier, and raises [ValueError] when it is
    given [None]. *)
Lemma move_then_observe (self : obj) (s : GridObject.t) (px py : Z)
    (occupants : list obj) (rnd : Z) (hp : ref -> GridPoint.t) (c : ref) :
  (GridAgentMethods.chooseAction self s (_world s) px py occupants rnd).2
  = Action.mk self Action.move rnd None (x s) (y s)
  /\ (exists s',
        GridAgentMethods.actionResult hp
          (GridAgentMethods.chooseAction self s (_world s) px py occupants rnd).1
          (Some c) = Ok s'
        /\ x s' = GridPoint.x (hp c) /\ y s' = GridPoint.y (hp c)
        /\ _world s' = _world s /\ _objectID s' = _objectID s
        /\ _currentAction s'
           = Some (Action.mk self Action.move rnd None (x s) (y s)))
  /\ GridAgentMethods.actionResult hp
       (GridAgentMethods.chooseAction self s (_world s) px py occupants rnd).1 None
     = Raise ValueError.
Proof.
  unfold GridAgentMethods.chooseAction.
  rewrite bool_decide_eq_false_2 by (intros H; by apply H).
  simpl. split_and!.
  - reflexivity.
  - eexists. split; [reflexivity |].
    destruct s as [[] ? ? ? ? ? ? ? ? ? ? ?]; simpl; split_and!; reflexivity.
  - reflexivity.
Qed.

End AgentState.

(** ** Agents: directions and the frontier *)

Section Navigation.
Import GridObject GridAgentNavigation.

(** [_getDirection] and the offsets of [_applyAction] agree: for an agent
    that has a world, the direction towards the destination of a move in
    direction [d] from the agent's position is [d], and a move in the
    direction towards a target one step away along a row or a column has
    that target as destination.  The agent's own position gives [Nowhere];
    an agent without a world raises [AttributeError]. *)
Lemma getDirection_destination (s : GridObject.t) (self : obj) :
  (forall d, is_Some (_world s) -> 0 <= d <= 3 ->
     _getDirection s
       (GridWorld.destination (Action.init self (x s) (y s) Action.move None d))
     = Ok d)
  /\ (forall target, is_Some (_world s) ->
        Z.abs (target.1 - x s) + Z.abs (target.2 - y s) = 1 ->
        exists d, _getDirection s target = Ok d /\ 0 <= d <= 3
          /\ GridWorld.destination (Action.init self (x s) (y s) Action.move None d)
             = target)
  /\ (is_Some (_world s) -> _getDirection s (x s, y s) = Ok GridWorld.Nowhere)
  /\ (forall target, _world s = None ->
        _getDirection s target = Raise AttributeError).
Proof.
  split_and!.
  - intros d [w Hw] Hd. unfold _getDirection, world_constant, GridWorld.destination.
    rewrite Hw. simpl.
    assert (d = 0 \/ d = 1 \/ d = 2 \/ d = 3) as [-> | [-> | [-> | ->]]] by lia;
      simpl; repeat case_bool_decide; try lia; reflexivity.
  - intros [tx ty] [w Hw] Hadj. simpl in Hadj.
    unfold _getDirection, world_constant, GridWorld.destination. rewrite Hw. simpl.
    repeat case_bool_decide; try lia; eexists; (split; [reflexivity |]);
      (split; [done |]); simpl; f_equal; lia.
  - intros [w Hw]. unfold _getDirection, world_constant. rewrite Hw. simpl.
    by rewrite !bool_decide_eq_true_2.
  - intros target Hw. unfold _getDirection, world_constant. rewrite Hw.
    repeat case_bool_decide; reflexivity.
Qed.

Lemma find_frontier (target : Z * Z) (l : list (Z * Z)) :
  List.find (fun loc : Z * Z => bool_decide (loc.1 = target.1)
                                && bool_decide (loc.2 = target.2)) l
  = if bool_decide (target ∈ l) then Some target else None.
Proof.
  induction l as [|[a b] l IH]; simpl; [done |].
  destruct target as [tx ty]. simpl in *.
  destruct (decide (a = tx)) as [-> | Ha]; [destruct (decide (b = ty)) as [-> | Hb] |].
  - rewrite !bool_decide_eq_true_2 by done. simpl.
    rewrite bool_decide_eq_true_2; [done | apply list_elem_of_here].
  - rewrite (bool_decide_eq_false_2 (b = ty)) by done.
    rewrite andb_false_r, IH.
    rewrite (bool_decide_ext ((tx, ty) ∈ (tx, b) :: l) ((tx, ty) ∈ l)); [done |].
    rewrite elem_of_cons. split; [| by right].
    intros [[= ?] | ?]; [congruence | done].
  - rewrite (bool_decide_eq_false_2 (a = tx)) by done. simpl. rewrite IH.
    rewrite (bool_decide_ext ((tx, ty) ∈ (a, b) :: l) ((tx, ty) ∈ l)); [done |].
    rewrite elem_of_cons. split; [| by right].
    intros [[= ? ?] | ?]; [congruence | done].
Qed.

(** [_inFrontier] is a membership test on a frontier that is a list: it
    gives the target itself when the frontier holds it and [None] when it
    does not; the start point of a new agent is in its frontier; once
    [_pruneMap] has run, which takes at most one iteration and changes the
    frontier only, [_inFrontier] raises [TypeError]. *)
Lemma inFrontier_membership (s : GridObject.t) (target : Z * Z) :
  (forall l, _frontier s = Some l ->
     _inFrontier s target = if bool_decide (target ∈ l) then Found target else NotFound)
  /\ (forall self fresh name obj_id world px py,
        _inFrontier (GridAgentMethods.init self fresh name obj_id world px py) (px, py)
        = Found (px, py))
  /\ (forall fuel, exists s',
        _pruneMap (S (S fuel)) s = Some s'
        /\ _frontier s' = None
        /\ _map s' = _map s /\ _backtrack s' = _backtrack s
        /\ (x s', y s') = (x s, y s) /\ _world s' = _world s
        /\ _inFrontier s' target = NotIterable).
Proof.
  split_and!.
  - intros l Hl. unfold _inFrontier. rewrite Hl, find_frontier.
    by case_bool_decide.
  - intros self fresh name obj_id world px py. unfold _inFrontier.
    assert (_frontier (GridAgentMethods.init self fresh name obj_id world px py)
            = Some [(px, py)]) as -> by (by destruct obj_id).
    rewrite find_frontier.
    rewrite bool_decide_eq_true_2; [done | apply list_elem_of_here].
  - intros fuel. simpl.
    destruct (_frontier s) as [l|] eqn:Hf.
    + rewrite bool_decide_eq_true_2 by done.
      assert (_frontier (setattr s (At_frontier None)) = None) as Hnone
        by (by destruct s as [[] ? ? ? ? ? ? ? ? ? ? ?]).
      rewrite Hnone. rewrite bool_decide_eq_false_2 by (intros H; by apply H).
      eexists. split; [reflexivity |]. unfold _inFrontier. rewrite Hnone.
      destruct s as [[] ? ? ? ? ? ? ? ? ? ? ?]; simpl; done.
    + rewrite bool_decide_eq_false_2 by (intros H; by apply H).
      eexists. split; [reflexivity |]. unfold _inFrontier. rewrite Hf. done.
Qed.

End Navigation.

(** ** Cells: navigation, labels and the number of occupants *)

Section CellMoves.
Import GridPoint.
Implicit Types (hp : ref -> GridPoint.t) (self n : ref) (o : obj).

Lemma count_of_app (o : obj) (l l' : list obj) :
  count_of o (l ++ l') = (count_of o l + count_of o l')%nat.
Proof. induction l as [|a l IH]; simpl; [done |]. rewrite IH. lia. Qed.

Lemma count_of_elem (o : obj) (l : list obj) :
  (0 < count_of o l)%nat <-> o ∈ l.
Proof.
  induction l as [|a l IH]; simpl.
  - split; [lia | by intros ?%elem_of_nil].
  - rewrite elem_of_cons. case_bool_decide as Ha.
    + split; [intros _; by left | lia].
    + simpl. rewrite IH. split; [by right |].
      intros [-> | H']; [done | done].
Qed.

Lemma py_remove_count (v : obj) (l l' : list obj) (a : obj) :
  py_remove v l = Some l' ->
  count_of a l = (count_of a l' + (if bool_decide (a = v) then 1 else 0))%nat.
Proof.
  revert l'. induction l as [|b l IH]; intros l' H; simpl in H; [discriminate |].
  case_bool_decide as Hb.
  - injection H as <-. subst b. simpl.
    rewrite (bool_decide_ext (v = a) (a = v)) by done. lia.
  - destruct (py_remove v l) as [l0|] eqn:E; simpl in H; [| discriminate].
    injection H as <-. simpl. rewrite (IH l0 eq_refl). lia.
Qed.

(** Replacing one cell changes the total by the difference of its counts. *)
Lemma total_of_insert hp (refs : list ref) self (c : GridPoint.t) (a : obj) :
  NoDup refs -> self ∈ refs ->
  (total_of (<[self := c]> hp) refs a + count_of a (_occupants (hp self))
   = total_of hp refs a + count_of a (_occupants c))%nat.
Proof.
  unfold total_of. induction refs as [|r refs IH]; intros Hnd Hin.
  - by apply elem_of_nil in Hin.
  - apply NoDup_cons in Hnd as [Hr Hnd]. simpl.
    destruct (decide (self = r)) as [<- | Hne].
    + rewrite fn_lookup_insert.
      assert (sum_list_with (fun r => count_of a (_occupants ((<[self := c]> hp) r))) refs
              = sum_list_with (fun r => count_of a (_occupants (hp r))) refs) as ->.
      { clear IH Hnd Hin. induction refs as [|r' refs IH']; simpl; [done |].
        apply not_elem_of_cons in Hr as [Hr1 Hr2].
        rewrite fn_lookup_insert_ne by done. by rewrite IH'. }
      lia.
    + rewrite fn_lookup_insert_ne by done.
      apply elem_of_cons in Hin as [-> | Hin]; [done |].
      specialize (IH Hnd Hin). lia.
Qed.

(** Between a cell and a neighbour that is adjacent to it, distinct from it
    and does not hold the occupant already, a move is all or nothing: the
    occupant, which occurs exactly once in the cell, whatever else the cell
    holds, ends in exactly one of the two cells, and that cell is the one
    returned. *)
Lemma vacate_atomic hp self o d :
  0 <= d ->
  count_of o (_occupants (hp self)) = 1%nat ->
  (forall n, _neighbours (hp self) !! Z.to_nat d = Some (Some n) ->
     n ≠ self /\ (o ∉ _occupants (hp n))
     /\ adjacent (x (hp self), y (hp self)) (hp n)) ->
  is_Some (_neighbours (hp self) !! Z.to_nat d) ->
  exists hp' r,
    vacate hp self o (Some d) = Ok (hp', Some r)
    /\ (r = self \/ _neighbours (hp self) !! Z.to_nat d = Some (Some r))
    /\ o ∈ _occupants (hp' r)
    /\ (forall c, c = self \/ _neighbours (hp self) !! Z.to_nat d = Some (Some c) ->
          c ≠ r -> o ∉ _occupants (hp' c)).
Proof.
  intros Hd Hone Hnb [nb Hslot].
  assert (o ∈ _occupants (hp self)) as Ho by (apply count_of_elem; lia).
  pose proof (py_getitem_slot _ d nb Hd Hslot) as Hget.
  unfold vacate. pose proof Ho as Ho'. apply py_in_true in Ho'. rewrite Ho'. simpl.
  rewrite Hget. simpl.
  destruct nb as [n|].
  - destruct (Hnb n Hslot) as (Hne & Hon & Hadj).
    destruct (occupied (hp n)) eqn:Hocc.
    + exists hp, self. split; [done |]. split; [by left |]. split; [done |].
      intros c [-> | Hc] Hcr; [done |]. rewrite Hslot in Hc.
      injection Hc as <-. done.
    + apply occupied_false in Hocc.
      destruct (py_remove_elem o _ Ho) as (l & Hl & _).
      unfold remove_occupant. rewrite Hl. simpl. rewrite fn_lookup_insert. simpl.
      assert (o ∉ l) as Hol.
      { intros Hin%count_of_elem. pose proof (py_remove_count o _ l o Hl) as Hc.
        rewrite bool_decide_eq_true_2 in Hc by done. lia. }
      destruct (occupy_spec (<[self := with_occupants (hp self) l]> hp) n o
                  (x (hp self), y (hp self))) as (_ & _ & H).
      rewrite H; rewrite ?fn_lookup_insert_ne by done; [| done | lia].
      eexists _, n. split; [reflexivity |]. split; [by right |]. split.
      * rewrite fn_lookup_insert. simpl. apply elem_of_app. right.
        apply list_elem_of_here.
      * intros c [-> | Hc] Hcr.
        -- rewrite fn_lookup_insert_ne by done. rewrite fn_lookup_insert. done.
        -- rewrite Hslot in Hc. injection Hc as <-. done.
  - exists hp, self. split; [done |]. split; [by left |]. split; [done |].
    intros c [-> | Hc] Hcr; [done |]. rewrite Hslot in Hc. discriminate.
Qed.

Lemma vacate_atomic_witness :
  exists hp' r,
    vacate near_store 0%nat 7%nat (Some 1) = Ok (hp', Some r)
    /\ (r = 0%nat \/ _neighbours (near_store 0%nat) !! Z.to_nat 1 = Some (Some r))
    /\ 7%nat ∈ _occupants (hp' r)
    /\ (forall c, c = 0%nat
                  \/ _neighbours (near_store 0%nat) !! Z.to_nat 1 = Some (Some c) ->
          c ≠ r -> 7%nat ∉ _occupants (hp' c)).
Proof.
  apply (vacate_atomic near_store 0%nat 7%nat 1).
  - lia.
  - reflexivity.
  - intros n [= <-]. split_and!.
    + discriminate.
    + apply not_elem_of_nil.
    + split; vm_compute; discriminate.
  - eexists. reflexivity.
Defined.

(** [canGo] tells what [vacate] will do for an occupant of the cell: when
    it is false the occupant stays and nothing changes; when it is true and
    the neighbour is adjacent, the occupant's first occurrence leaves the
    cell and joins the end of the neighbour's list, and the neighbour is
    returned; when it raises, [vacate] raises the same. *)
Lemma canGo_predicts_vacate hp self o (d : Z) :
  o ∈ _occupants (hp self) ->
  (canGo hp self d = Ok false -> vacate hp self o (Some d) = Ok (hp, Some self))
  /\ (canGo hp self d = Ok true ->
      (forall n, py_getitem (_neighbours (hp self)) d = Ok (Some n) ->
         adjacent (x (hp self), y (hp self)) (hp n)) ->
      exists n l,
        py_getitem (_neighbours (hp self)) d = Ok (Some n)
        /\ py_remove o (_occupants (hp self)) = Some l
        /\ vacate hp self o (Some d)
           = Ok (<[n := with_occupants
                          ((<[self := with_occupants (hp self) l]> hp) n)
                          (_occupants ((<[self := with_occupants (hp self) l]> hp) n)
                           ++ [o])]>
                   (<[self := with_occupants (hp self) l]> hp),
                 Some n))
  /\ (forall e, canGo hp self d = Raise e -> vacate hp self o (Some d) = Raise e).
Proof.
  intros Ho. pose proof Ho as Hin. apply py_in_true in Hin.
  destruct (py_remove_elem o _ Ho) as (l & Hl & Hlen).
  unfold canGo, vacate. rewrite Hin. simpl.
  destruct (py_getitem (_neighbours (hp self)) d) as [[n|]|e'] eqn:Hget; simpl.
  - split_and!.
    + intros [= Hocc%negb_false_iff]. by rewrite Hocc.
    + intros [= Hocc%negb_true_iff] Hadj. rewrite Hocc.
      exists n, l. split; [done |]. split; [done |].
      unfold remove_occupant. rewrite Hl. simpl. rewrite fn_lookup_insert. simpl.
      destruct (occupy_spec (<[self := with_occupants (hp self) l]> hp) n o
                  (x (hp self), y (hp self))) as (_ & _ & H).
      rewrite H; [done | |].
      * destruct (decide (self = n)) as [<- | Hne].
        -- rewrite fn_lookup_insert. unfold adjacent. simpl. lia.
        -- rewrite fn_lookup_insert_ne by done. by apply Hadj.
      * apply occupied_false in Hocc.
        destruct (decide (self = n)) as [<- | Hne].
        -- rewrite fn_lookup_insert. simpl. unfold len in *. lia.
        -- rewrite fn_lookup_insert_ne by done. lia.
    + discriminate.
  - split_and!; [done | discriminate | discriminate].
  - split_and!; [discriminate | discriminate |]. by intros e [= ->].
Qed.

Lemma canGo_predicts_vacate_witness :
  (canGo near_store 0%nat 1 = Ok false ->
   vacate near_store 0%nat 7%nat (Some 1) = Ok (near_store, Some 0%nat))
  /\ (canGo near_store 0%nat 1 = Ok true ->
      (forall n, py_getitem (_neighbours (near_store 0%nat)) 1 = Ok (Some n) ->
         adjacent (x (near_store 0%nat), y (near_store 0%nat)) (near_store n)) ->
      exists n l,
        py_getitem (_neighbours (near_store 0%nat)) 1 = Ok (Some n)
        /\ py_remove 7%nat (_occupants (near_store 0%nat)) = Some l
        /\ vacate near_store 0%nat 7%nat (Some 1)
           = Ok (<[n := with_occupants
                          ((<[0%nat := with_occupants (near_store 0%nat) l]> near_store) n)
                          (_occupants
                             ((<[0%nat := with_occupants (near_store 0%nat) l]> near_store) n)
                           ++ [7%nat])]>
                   (<[0%nat := with_occupants (near_store 0%nat) l]> near_store),
                 Some n))
  /\ (forall e, canGo near_store 0%nat 1 = Raise e ->
        vacate near_store 0%nat 7%nat (Some 1) = Raise e).
Proof.
  apply (canGo_predicts_vacate near_store 0%nat 7%nat 1).
  apply list_elem_of_here.
Defined.

(** Labels play no part in navigation: setting or clearing the label of any
    cell changes neither what [canGo] answers for any cell nor any occupant
    list; the label set is the label read, and a cleared label reads
    [None]. *)
Lemma labels_do_not_affect_navigation hp (c : ref) (l : string) self (d : Z) :
  canGo (setLabel hp c l) self d = canGo hp self d
  /\ canGo (clearLabel hp c) self d = canGo hp self d
  /\ (forall r, _occupants (setLabel hp c l r) = _occupants (hp r)
                /\ _occupants (clearLabel hp c r) = _occupants (hp r))
  /\ label (setLabel hp c l c) = Some l
  /\ label (clearLabel (setLabel hp c l) c c) = None.
Proof.
  assert (forall (v : option string) r,
            _neighbours ((<[c := with_label (hp c) v]> hp) r) = _neighbours (hp r)
            /\ _occupants ((<[c := with_label (hp c) v]> hp) r) = _occupants (hp r)
            /\ occupied ((<[c := with_label (hp c) v]> hp) r) = occupied (hp r))
    as Hsame.
  { intros v r. destruct (decide (c = r)) as [<- | Hne].
    - rewrite fn_lookup_insert. done.
    - rewrite fn_lookup_insert_ne by done. done. }
  assert (forall v, canGo (<[c := with_label (hp c) v]> hp) self d = canGo hp self d)
    as Hgo.
  { intros v. unfold canGo. destruct (Hsame v self) as (-> & _ & _).
    destruct (py_getitem _ d) as [[n|]|]; simpl; try done.
    by destruct (Hsame v n) as (_ & _ & ->). }
  unfold setLabel, clearLabel. split_and!.
  - apply Hgo.
  - apply Hgo.
  - intros r. split; apply Hsame.
  - by rewrite fn_lookup_insert.
  - by rewrite fn_lookup_insert.
Qed.

(** A move conserves occupants: when the neighbour in the direction taken,
    if any, is among the cells counted and adjacent to the cell, [vacate]
    leaves the number of occurrences of every object over those cells as it
    was. *)
Lemma vacate_conserves hp self o (d : Z) (refs : list ref) hp' (r : option ref) :
  NoDup refs -> self ∈ refs ->
  (forall n, py_getitem (_neighbours (hp self)) d = Ok (Some n) ->
     n ∈ refs /\ adjacent (x (hp self), y (hp self)) (hp n)) ->
  vacate hp self o (Some d) = Ok (hp', r) ->
  forall a, total_of hp' refs a = total_of hp refs a.
Proof.
  intros Hnd Hself Hnb. unfold vacate.
  destruct (py_in o (_occupants (hp self))) eqn:Ho; simpl;
    [| by intros [= <- <-]].
  apply py_in_true in Ho.
  destruct (py_remove_elem o _ Ho) as (l & Hl & _).
  destruct (py_getitem _ d) as [[n|]|] eqn:Hget; simpl;
    [| by intros [= <- <-] | discriminate].
  destruct (Hnb n eq_refl) as [Hn Hadj].
  destruct (occupied (hp n)) eqn:Hocc; [by intros [= <- <-] |].
  apply occupied_false in Hocc.
  unfold remove_occupant. rewrite Hl. simpl. rewrite fn_lookup_insert. simpl.
  set (hp1 := <[self := with_occupants (hp self) l]> hp).
  destruct (occupy_spec hp1 n o (x (hp self), y (hp self))) as (_ & _ & H).
  rewrite H.
  - intros [= <- <-] a.
    pose proof (total_of_insert hp1 refs n
                  (with_occupants (hp1 n) (_occupants (hp1 n) ++ [o])) a Hnd Hn) as H2.
    pose proof (total_of_insert hp refs self (with_occupants (hp self) l) a Hnd Hself)
      as H1.
    fold hp1 in H1. simpl in H1, H2. rewrite count_of_app in H2. simpl in H2.
    rewrite (py_remove_count o _ l a Hl) in H1.
    rewrite (bool_decide_ext (o = a) (a = o)) in H2 by done. lia.
  - unfold hp1. destruct (decide (self = n)) as [<- | Hne].
    + rewrite fn_lookup_insert. unfold adjacent. simpl. lia.
    + by rewrite fn_lookup_insert_ne.
  - unfold hp1. destruct (decide (self = n)) as [<- | Hne].
    + rewrite fn_lookup_insert. simpl.
      apply py_remove_elem in Ho as (l2 & Hl2 & Hlen). rewrite Hl in Hl2.
      injection Hl2 as <-. unfold len in *. lia.
    + rewrite fn_lookup_insert_ne by done. lia.
Qed.

Lemma vacate_conserves_witness :
  vacate near_store 0%nat 7%nat (Some 1)
  = Ok (<[1%nat := with_occupants (near_store 1%nat) [7%nat]]>
          (<[0%nat := with_occupants (near_store 0%nat) []]> near_store),
        Some 1%nat)
  /\ forall a,
       total_of (<[1%nat := with_occupants (near_store 1%nat) [7%nat]]>
                   (<[0%nat := with_occupants (near_store 0%nat) []]> near_store))
                [0%nat; 1%nat] a
       = total_of near_store [0%nat; 1%nat] a.
Proof.
  split; [reflexivity |].
  apply (vacate_conserves near_store 0%nat 7%nat 1 [0%nat; 1%nat] _ (Some 1%nat)).
  - apply NoDup_cons. split; [| apply NoDup_singleton].
    intros H%list_elem_of_singleton. discriminate.
  - apply list_elem_of_here.
  - intros n [= <-]. split.
    + apply list_elem_of_further, list_elem_of_here.
    + split; vm_compute; discriminate.
  - reflexivity.
Defined.

(** Leaving the grid removes one occurrence: with no direction, [vacate]
    lowers the number of occurrences of the occupant over the cells counted
    by exactly one and keeps that of every other object. *)
Lemma vacate_exit_removes_one hp self o (refs : list ref) :
  NoDup refs -> self ∈ refs -> o ∈ _occupants (hp self) ->
  exists hp',
    vacate hp self o None = Ok (hp', None)
    /\ (total_of hp' refs o + 1 = total_of hp refs o)%nat
    /\ (forall a, a ≠ o -> total_of hp' refs a = total_of hp refs a)
    /\ (forall r, r ≠ self -> hp' r = hp r).
Proof.
  intros Hnd Hself Ho. unfold vacate, remove_occupant.
  pose proof Ho as Hin. apply py_in_true in Hin. rewrite Hin. simpl.
  destruct (py_remove_elem o _ Ho) as (l & Hl & _). rewrite Hl. simpl.
  eexists. split; [reflexivity |].
  split_and!.
  - pose proof (total_of_insert hp refs self (with_occupants (hp self) l) o Hnd Hself)
      as H1.
    simpl in H1. rewrite (py_remove_count o _ l o Hl) in H1.
    rewrite bool_decide_eq_true_2 in H1 by done. lia.
  - intros a Ha.
    pose proof (total_of_insert hp refs self (with_occupants (hp self) l) a Hnd Hself)
      as H1.
    simpl in H1. rewrite (py_remove_count o _ l a Hl) in H1.
    rewrite bool_decide_eq_false_2 in H1 by done. lia.
  - intros r Hr. by rewrite fn_lookup_insert_ne.
Qed.

Lemma vacate_exit_removes_one_witness :
  exists hp',
    vacate twice_store 0%nat 7%nat None = Ok (hp', None)
    /\ (total_of hp' [0%nat; 1%nat] 7%nat + 1
        = total_of twice_store [0%nat; 1%nat] 7%nat)%nat
    /\ (forall a, a ≠ 7%nat ->
          total_of hp' [0%nat; 1%nat] a = total_of twice_store [0%nat; 1%nat] a)
    /\ (forall r, r ≠ 0%nat -> hp' r = twice_store r).
Proof.
  apply (vacate_exit_removes_one twice_store 0%nat 7%nat [0%nat; 1%nat]).
  - apply NoDup_cons. split; [| apply NoDup_singleton].
    intros H%list_elem_of_singleton. discriminate.
  - apply list_elem_of_here.
  - apply list_elem_of_here.
Defined.

End CellMoves.

(** ** The cells of a built grid *)

Section GridCells.
Import GridPoint GridWorld.
Variables (base Hn Wn : nat).

Lemma py_getitem_elem {A : Type} (l : list A) (i : Z) (a : A) :
  py_getitem l i = Ok a -> a ∈ l.
Proof.
  unfold py_getitem. case_bool_decide; [discriminate |].
  destruct (l !! _) eqn:Hl; [| discriminate].
  intros [= ->]. by eapply list_elem_of_lookup_2.
Qed.

Lemma layout_concat : concat (layout base Hn Wn) = seq base (Hn * Wn).
Proof.
  unfold layout. induction Hn as [|n IH]; [done |].
  rewrite seq_S, fmap_app, concat_app, IH. simpl.
  rewrite app_nil_r, <- seq_app. f_equal. lia.
Qed.

Lemma layout_NoDup : NoDup (concat (layout base Hn Wn)).
Proof. rewrite layout_concat. apply NoDup_seq. Qed.

Lemma elem_of_layout (b : ref) :
  b ∈ concat (layout base Hn Wn) <->
  exists i k, (i < Hn)%nat /\ (k < Wn)%nat /\ b = pos base Wn i k.
Proof.
  rewrite list_elem_of_In, in_concat. unfold layout. split.
  - intros (r & Hr & Hb). apply list_elem_of_In, list_elem_of_fmap in Hr as (i & -> & Hi).
    apply elem_of_seq in Hi. apply list_elem_of_In, elem_of_seq in Hb.
    exists i, (b - (base + i * Wn))%nat. unfold pos. lia.
  - intros (i & k & Hi & Hk & ->). exists (seq (base + i * Wn) Wn). split.
    + apply list_elem_of_In, list_elem_of_fmap. exists i. split; [done |].
      apply elem_of_seq. lia.
    + apply list_elem_of_In, elem_of_seq. unfold pos. lia.
Qed.

(** Whatever the indices, a cell read from the grid is a cell of the grid. *)
Lemma cell_at_elem (row col : Z) (b : ref) :
  cell_at (layout base Hn Wn) row col = Ok b -> b ∈ concat (layout base Hn Wn).
Proof.
  unfold cell_at. destruct (py_getitem _ row) as [r|] eqn:Hr; simpl; [| discriminate].
  intros Hb. apply list_elem_of_In, in_concat. exists r.
  split; apply list_elem_of_In; by eapply py_getitem_elem.
Qed.

Variable hp : ref -> GridPoint.t.
Hypothesis linked : well_linked hp base Hn Wn.

(** In a linked grid every neighbour is a cell of the grid next to the cell. *)
Lemma linked_neighbour_adjacent (b : ref) (d : Z) (n : ref) :
  b ∈ concat (layout base Hn Wn) ->
  py_getitem (_neighbours (hp b)) d = Ok (Some n) ->
  n ∈ concat (layout base Hn Wn) /\ adjacent (x (hp b), y (hp b)) (hp n).
Proof.
  intros (i & k & Hi & Hk & ->)%elem_of_layout Hget.
  apply py_getitem_elem, list_elem_of_lookup in Hget as [j Hj].
  assert (neighbour_of hp (pos base Wn i k) j n) as Hnb by exact Hj.
  apply (neighbour_of_linked base Hn Wn hp linked i k j n Hi Hk) in Hnb
    as (_ & Hcases).
  destruct (linked i k Hi Hk) as (Hx & Hy & _).
  assert (forall i' k', (i' < Hn)%nat -> (k' < Wn)%nat -> n = pos base Wn i' k' ->
            (Z.abs (Z.of_nat k - Z.of_nat k') <= 1) ->
            (Z.abs (Z.of_nat i - Z.of_nat i') <= 1) ->
            n ∈ concat (layout base Hn Wn)
            /\ adjacent (x (hp (pos base Wn i k)), y (hp (pos base Wn i k))) (hp n))
    as Hok.
  { intros i' k' Hi' Hk' -> Hdk Hdi. split.
    - apply elem_of_layout. by exists i', k'.
    - destruct (linked i' k' Hi' Hk') as (Hx' & Hy' & _).
      unfold adjacent. simpl. rewrite Hx, Hy, Hx', Hy'. done. }
  destruct Hcases as [(_ & Hg & Hn') | [(_ & Hg & Hn') | [(_ & Hg & Hn') | (_ & Hg & Hn')]]].
  - apply (Hok (i - 1)%nat k); [lia | lia | done | lia | lia].
  - apply (Hok i (k + 1)%nat); [lia | lia | done | lia | lia].
  - apply (Hok (i + 1)%nat k); [lia | lia | done | lia | lia].
  - apply (Hok i (k - 1)%nat); [lia | lia | done | lia | lia].
Qed.

End GridCells.

(** ** Moves on a linked grid *)

Section CellSteps.
Import GridPoint.
Implicit Types (hp : ref -> GridPoint.t) (self n : ref) (o : obj).

(** A move to a free, adjacent neighbour. *)
Lemma vacate_moves hp self o (d : Z) n :
  o ∈ _occupants (hp self) ->
  py_getitem (_neighbours (hp self)) d = Ok (Some n) ->
  occupied (hp n) = false ->
  adjacent (x (hp self), y (hp self)) (hp n) ->
  vacate hp self o (Some d) = Ok (moved hp self n o, Some n).
Proof.
  intros Ho Hget Hocc Hadj. pose proof Ho as Hin. apply py_in_true in Hin.
  destruct (py_remove_elem o _ Ho) as (l & Hl & Hlen).
  unfold vacate, moved. rewrite Hin. simpl. rewrite Hget. simpl. rewrite Hocc.
  unfold remove_occupant. rewrite Hl. simpl. rewrite fn_lookup_insert. simpl.
  destruct (occupy_spec (<[self := with_occupants (hp self) l]> hp) n o
              (x (hp self), y (hp self))) as (_ & _ & H).
  rewrite H; [done | |].
  - destruct (decide (self = n)) as [<- | Hne].
    + rewrite fn_lookup_insert. unfold adjacent. simpl. lia.
    + by rewrite fn_lookup_insert_ne.
  - apply occupied_false in Hocc.
    destruct (decide (self = n)) as [<- | Hne].
    + rewrite fn_lookup_insert. simpl. unfold len in *. lia.
    + rewrite fn_lookup_insert_ne by done. lia.
Qed.

Lemma moved_same_topology hp self n o : same_topology (moved hp self n o) hp.
Proof.
  unfold moved. eapply same_topology_trans; apply with_occupants_same_topology.
Qed.

Lemma moved_same_parents hp self n o : same_parents (moved hp self n o) hp.
Proof.
  intros r. unfold moved.
  destruct (decide (n = r)) as [<- | Hn].
  - rewrite fn_lookup_insert. simpl.
    destruct (decide (self = n)) as [<- | Hs].
    + by rewrite fn_lookup_insert.
    + by rewrite fn_lookup_insert_ne.
  - rewrite fn_lookup_insert_ne by done.
    destruct (decide (self = r)) as [<- | Hs].
    + by rewrite fn_lookup_insert.
    + by rewrite fn_lookup_insert_ne.
Qed.

(** The mover is in the cell it moved to. *)
Lemma moved_holds hp self n o : o ∈ _occupants (moved hp self n o n).
Proof.
  unfold moved. rewrite fn_lookup_insert. simpl.
  apply elem_of_app. right. apply list_elem_of_here.
Qed.

(** Every other occupant stays where it is. *)
Lemma moved_keeps hp self n o (o' : obj) (c : ref) :
  o ∈ _occupants (hp self) -> o' ≠ o ->
  o' ∈ _occupants (hp c) -> o' ∈ _occupants (moved hp self n o c).
Proof.
  intros Ho Hne Hin. destruct (py_remove_elem o _ Ho) as (l & Hl & _).
  unfold moved. rewrite Hl. simpl.
  assert (o' ∈ _occupants ((<[self := with_occupants (hp self) l]> hp) c)) as H1.
  { destruct (decide (self = c)) as [<- | Hs].
    - rewrite fn_lookup_insert. simpl. by eapply py_remove_other.
    - by rewrite fn_lookup_insert_ne. }
  destruct (decide (n = c)) as [<- | Hn].
  - rewrite fn_lookup_insert. simpl. apply elem_of_app. by left.
  - by rewrite fn_lookup_insert_ne.
Qed.

End CellSteps.

Section Roster.

Lemma odict_set_set {V : Type} (d : list (nat * V)) (k : nat) (v v' : V) :
  odict_set (odict_set d k v) k v' = odict_set d k v'.
Proof.
  induction d as [|[k0 v0] d IH]; simpl.
  - by rewrite bool_decide_eq_true_2.
  - case_bool_decide as Hk; simpl.
    + by rewrite bool_decide_eq_true_2.
    + rewrite bool_decide_eq_false_2 by done. by rewrite IH.
Qed.

Lemma odict_get_set_ne {V : Type} (d : list (nat * V)) (k k' : nat) (v : V) :
  k ≠ k' -> odict_get (odict_set d k v) k' = odict_get d k'.
Proof.
  intros Hne. induction d as [|[k0 v0] d IH]; simpl.
  - by rewrite bool_decide_eq_false_2.
  - case_bool_decide as Hk; simpl.
    + subst k0. by rewrite !bool_decide_eq_false_2.
    + case_bool_decide; [done | apply IH].
Qed.

(** Assigning to a key of the roster keeps its keys and their order. *)
Lemma odict_keys_set {V : Type} (d : list (nat * V)) (k : nat) (v v' : V) :
  odict_get d k = Ok v -> odict_keys (odict_set d k v') = odict_keys d.
Proof.
  unfold odict_keys. induction d as [|[k0 v0] d IH]; [discriminate |].
  cbn [odict_get odict_set]. case_bool_decide as Hk.
  - by subst k0.
  - intros H. rewrite !fmap_cons. f_equal. by apply IH.
Qed.

Lemma odict_get_keys {V : Type} (d : list (nat * V)) (k : nat) :
  k ∈ odict_keys d <-> exists v, odict_get d k = Ok v.
Proof.
  unfold odict_keys. induction d as [|[k0 v0] d IH].
  - split; [by intros ?%elem_of_nil | by intros [? ?]].
  - rewrite fmap_cons, elem_of_cons. cbn [odict_get fst]. case_bool_decide as Hk.
    + split; [by eexists | by left].
    + rewrite IH. split; [| by right]. intros [-> | H]; done.
Qed.

End Roster.

Section LinkedMoves.
Import GridPoint GridWorld.
Variables (base Hn Wn : nat).
Variables (W : GridWorld.t) (hp : ref -> GridPoint.t) (objs : obj -> GridObject.t).
Hypothesis Hgrid : _grid W = layout base Hn Wn.
Hypothesis Hlinked : well_linked hp base Hn Wn.

Local Abbreviation cell_of px py := (pos base Wn (Z.to_nat py) (Z.to_nat px)).

(** The neighbour slot of a grid cell in the direction of a move: the cell
    at the destination, when that lies in the grid and has room at all. *)
Lemma slot_towards (a : Action.t) :
  0 <= Action.actionDirection a <= 3 ->
  0 <= Action.x a < Z.of_nat Wn -> 0 <= Action.y a < Z.of_nat Hn ->
  py_getitem (_neighbours (hp (cell_of (Action.x a) (Action.y a))))
             (Action.actionDirection a)
  = Ok (edge hp (bool_decide (0 <= (destination a).1 < Z.of_nat Wn
                              /\ 0 <= (destination a).2 < Z.of_nat Hn))
          (cell_of (destination a).1 (destination a).2)).
Proof.
  intros Hd Hx Hy.
  destruct (Hlinked (Z.to_nat (Action.y a)) (Z.to_nat (Action.x a)))
    as (_ & _ & ->); [lia | lia |].
  unfold linked_neighbours, destination.
  assert (forall b1 b2 p1 p2, b1 = b2 -> p1 = p2 -> edge hp b1 p1 = edge hp b2 p2)
    as Hedge by (by intros ? ? ? ? -> ->).
  assert (Action.actionDirection a = 0 \/ Action.actionDirection a = 1
          \/ Action.actionDirection a = 2 \/ Action.actionDirection a = 3)
    as [-> | [-> | [-> | ->]]] by lia; simpl;
    (apply py_getitem_slot; [lia |]); simpl; f_equal;
    (apply Hedge; [apply bool_decide_ext; lia | unfold pos; lia]).
Qed.

(** [_applyAction] on a move of an occupant that has a roster entry, in
    closed form: the bounds test as coded, then the slot, then the room in
    the neighbour. *)
Lemma applyAction_linked (a : Action.t) (e : Z * Z * obj) :
  Action.actionCode a = Action.move ->
  0 <= Action.actionDirection a <= 3 ->
  0 <= Action.x a < Z.of_nat Wn -> 0 <= Action.y a < Z.of_nat Hn ->
  Action.agent a ∈ _occupants (hp (cell_of (Action.x a) (Action.y a))) ->
  odict_get (_agents W) (GridObject._objectID (objs (Action.agent a))) = Ok e ->
  _applyAction W hp objs a =
    if bool_decide (0 <= (destination a).1 < Z.of_nat Hn
                    /\ 0 <= (destination a).2 < Z.of_nat Wn)
    then
      match edge hp (bool_decide (0 <= (destination a).1 < Z.of_nat Wn
                                  /\ 0 <= (destination a).2 < Z.of_nat Hn))
                 (cell_of (destination a).1 (destination a).2) with
      | Some n =>
          if occupied (hp n)
          then Ok (with_entry W (GridObject._objectID (objs (Action.agent a)))
                     (Action.x a, Action.y a, e.2),
                   hp, Some (cell_of (Action.x a) (Action.y a)))
          else Ok (with_entry W (GridObject._objectID (objs (Action.agent a)))
                     ((destination a).1, (destination a).2, e.2),
                   moved hp (cell_of (Action.x a) (Action.y a)) n (Action.agent a),
                   Some n)
      | None =>
          Ok (with_entry W (GridObject._objectID (objs (Action.agent a)))
                (Action.x a, Action.y a, e.2),
              hp, Some (cell_of (Action.x a) (Action.y a)))
      end
    else Ok (W, hp, Some (cell_of (Action.x a) (Action.y a))).
Proof.
  intros Hcode Hd Hx Hy Ho He.
  pose proof (slot_towards a Hd Hx Hy) as Hslot.
  destruct (Hlinked (Z.to_nat (Action.y a)) (Z.to_nat (Action.x a)))
    as (Hcx & Hcy & _); [lia | lia |].
  unfold _applyAction. rewrite Hcode. unfold Action.move.
  rewrite bool_decide_eq_false_2 by lia.
  rewrite bool_decide_eq_true_2 by done.
  destruct (destination a) as [dx dy] eqn:Hdest. simpl in *.
  rewrite Hgrid, len_layout, cell_at_layout by lia.
  assert (py_getitem (layout base Hn Wn) 0 = Ok (seq (base + 0 * Wn) Wn)) as ->.
  { rewrite py_getitem_layout by lia. reflexivity. }
  simpl.
  unfold len. rewrite (length_seq Wn).
  destruct (decide (0 <= dx < Z.of_nat Hn /\ 0 <= dy < Z.of_nat Wn)) as [Hpass | Hout].
  2:{ rewrite (bool_decide_eq_false_2 (0 <= dx < _ /\ _)) by done.
      destruct (bool_decide (dx < 0)) eqn:H1; [done |].
      destruct (bool_decide (dy < 0)) eqn:H2; [done |].
      destruct (bool_decide (dx >= Z.of_nat Hn)) eqn:H3; [done |].
      apply bool_decide_eq_false in H1, H2, H3.
      simpl. rewrite bool_decide_eq_true_2 by lia. done. }
  rewrite (bool_decide_eq_true_2 (0 <= dx < _ /\ _)) by done.
  rewrite (bool_decide_eq_false_2 (dx < 0)) by lia.
  rewrite (bool_decide_eq_false_2 (dy < 0)) by lia.
  rewrite (bool_decide_eq_false_2 (dx >= _)) by lia.
  simpl. rewrite (bool_decide_eq_false_2 (dy >= _)) by lia.
  destruct (edge hp _ _) as [n|] eqn:Hedge.
  - destruct (occupied (hp n)) eqn:Hocc.
    + unfold vacate. pose proof Ho as Hmem. apply py_in_true in Hmem. rewrite Hmem.
      simpl. rewrite Hslot. simpl. rewrite Hocc. simpl. rewrite He. simpl.
      rewrite odict_get_set. simpl. rewrite odict_set_set.
      unfold with_entry. rewrite Hgrid, Hcx, Hcy, !Z2Nat.id by lia. reflexivity.
    + apply edge_Some in Hedge as (Hin%bool_decide_eq_true & Hcap & ->).
      destruct (Hlinked (Z.to_nat dy) (Z.to_nat dx)) as (Hnx & Hny & _);
        [lia | lia |].
      rewrite (vacate_moves hp _ _ _ _ Ho Hslot Hocc).
      * simpl. rewrite He. simpl. rewrite odict_get_set. simpl.
        rewrite odict_set_set. unfold with_entry. rewrite Hgrid.
        destruct (moved_same_topology hp (cell_of (Action.x a) (Action.y a))
                    (cell_of dx dy) (Action.agent a) (cell_of dx dy))
          as (-> & -> & _).
        rewrite Hnx, Hny, !Z2Nat.id by lia. reflexivity.
      * unfold adjacent. simpl. rewrite Hcx, Hcy, Hnx, Hny.
        unfold destination in Hdest. injection Hdest as <- <-.
        repeat case_bool_decide; lia.
  - unfold vacate. pose proof Ho as Hmem. apply py_in_true in Hmem. rewrite Hmem.
    simpl. rewrite Hslot. simpl. rewrite He. simpl.
    rewrite odict_get_set. simpl. rewrite odict_set_set.
    unfold with_entry. rewrite Hgrid, Hcx, Hcy, !Z2Nat.id by lia. reflexivity.
Qed.


(** The same in summary: the move returns a cell of the grid that now holds
    the agent, and files the agent under that cell's position. *)
Lemma applyAction_linked_summary (a : Action.t) (e : Z * Z * obj) :
  Action.actionCode a = Action.move ->
  0 <= Action.actionDirection a <= 3 ->
  0 <= Action.x a < Z.of_nat Wn -> 0 <= Action.y a < Z.of_nat Hn ->
  Action.agent a ∈ _occupants (hp (cell_of (Action.x a) (Action.y a))) ->
  odict_get (_agents W) (GridObject._objectID (objs (Action.agent a))) = Ok e ->
  e.1 = (Action.x a, Action.y a) ->
  exists (hp' : ref -> GridPoint.t) (i k : nat),
    _applyAction W hp objs a
    = Ok (with_entry W (GridObject._objectID (objs (Action.agent a)))
            (Z.of_nat k, Z.of_nat i, e.2),
          hp', Some (pos base Wn i k))
    /\ (i < Hn)%nat /\ (k < Wn)%nat
    /\ ((hp' = hp /\ pos base Wn i k = cell_of (Action.x a) (Action.y a))
        \/ (hp' = moved hp (cell_of (Action.x a) (Action.y a)) (pos base Wn i k)
                     (Action.agent a))).
Proof.
  intros Hcode Hd Hx Hy Ho He Hpos.
  rewrite (applyAction_linked a e Hcode Hd Hx Hy Ho He).
  assert (W = with_entry W (GridObject._objectID (objs (Action.agent a)))
                (Action.x a, Action.y a, e.2)) as Hsame.
  { unfold with_entry. rewrite odict_set_id; [by destruct W |].
    rewrite He. destruct e as [[? ?] ?]. simpl in *. by injection Hpos as -> ->. }
  assert (exists (hp' : ref -> GridPoint.t) (i k : nat),
            Ok (with_entry W (GridObject._objectID (objs (Action.agent a)))
                  (Action.x a, Action.y a, e.2),
                hp, Some (cell_of (Action.x a) (Action.y a)))
            = Ok (with_entry W (GridObject._objectID (objs (Action.agent a)))
                    (Z.of_nat k, Z.of_nat i, e.2),
                  hp', Some (pos base Wn i k))
            /\ (i < Hn)%nat /\ (k < Wn)%nat
            /\ ((hp' = hp /\ pos base Wn i k = cell_of (Action.x a) (Action.y a))
                \/ (hp' = moved hp (cell_of (Action.x a) (Action.y a)) (pos base Wn i k)
                             (Action.agent a)))) as Hstay.
  { exists hp, (Z.to_nat (Action.y a)), (Z.to_nat (Action.x a)).
    rewrite !Z2Nat.id by lia. split_and!; [done | lia | lia | by left]. }
  case_bool_decide as Hpass; [| by rewrite <- Hsame in Hstay].
  destruct (edge hp _ _) as [n|] eqn:Hedge; [| done].
  destruct (occupied (hp n)); [done |].
  apply edge_Some in Hedge as (Hin%bool_decide_eq_true & _ & ->).
  exists (moved hp (cell_of (Action.x a) (Action.y a))
            (cell_of (destination a).1 (destination a).2) (Action.agent a)),
    (Z.to_nat (destination a).2), (Z.to_nat (destination a).1).
  rewrite !Z2Nat.id by lia. split_and!; [done | lia | lia | by right].
Qed.

End LinkedMoves.

(** ** Turns in a settled world *)

Section SettledTurns.
Import GridPoint GridWorld.
Variables (base Hn Wn : nat).

Lemma setattr_position (s : GridObject.t) (vx vy : Z) :
  setattr (setattr s (GridObject.At_x vx)) (GridObject.At_y vy)
  = GridObject.object_setattr (GridObject.object_setattr s (GridObject.At_x vx))
      (GridObject.At_y vy).
Proof. destruct s as [[] ? ? ? ? ? ? ? ? ? ? ?]; reflexivity. Qed.

(** A settled agent of a linked grid stands on a cell of the grid. *)
Lemma settled_in_grid (W : GridWorld.t) (hp : ref -> GridPoint.t)
    (objs : obj -> GridObject.t) (key : nat) (a0 a1 : Z) (o : obj) :
  _grid W = layout base Hn Wn ->
  settled W hp objs ->
  odict_get (_agents W) key = Ok (a0, a1, o) ->
  GridObject.cls (objs o) = GridObject.GridAgent_class
  /\ GridObject._objectID (objs o) = key
  /\ GridObject.x (objs o) = a0 /\ GridObject.y (objs o) = a1
  /\ 0 <= a0 < Z.of_nat Wn /\ 0 <= a1 < Z.of_nat Hn
  /\ o ∈ _occupants (hp (pos base Wn (Z.to_nat a1) (Z.to_nat a0))).
Proof.
  intros Hgrid Hset He.
  destruct (Hset key a0 a1 o He) as (Hcls & Hid & Hx & Hy & H0 & H1 & here & Hhere & Ho).
  unfold getLocation in Hhere. rewrite Hgrid in Hhere.
  apply cell_at_layout_inv in Hhere as (? & ? & ->); [| done | done].
  split_and!; try done; lia.
Qed.

(** One turn of a settled world: it returns, and the world stays settled.
    The cell that [_tick] reads for the agent's surroundings is the one at
    row [a0], column [a1] of the grid, which has to exist. *)
Lemma turn_settled (W : GridWorld.t) (hp : ref -> GridPoint.t)
    (objs : obj -> GridObject.t) (draws : nat -> Z) (key : nat)
    (a0 a1 : Z) (o : obj) :
  _grid W = layout base Hn Wn ->
  well_linked hp base Hn Wn ->
  settled W hp objs ->
  odict_get (_agents W) key = Ok (a0, a1, o) ->
  a0 < Z.of_nat Hn -> a1 < Z.of_nat Wn ->
  0 <= draws key <= 3 ->
  exists W' hp' objs',
    turn draws (W, hp, objs) key = Ok (W', hp', objs')
    /\ _grid W' = _grid W /\ self_id W' = self_id W /\ _time W' = _time W
    /\ _maxTime W' = _maxTime W /\ _waitTime W' = _waitTime W
    /\ odict_keys (_agents W') = odict_keys (_agents W)
    /\ same_topology hp' hp /\ same_parents hp' hp
    /\ settled W' hp' objs'.
Proof.
  intros Hgrid Hlinked Hset He Ha0 Ha1 Hd.
  destruct (settled_in_grid W hp objs key a0 a1 o Hgrid Hset He)
    as (Hcls & Hid & Hx & Hy & Hx0 & Hy0 & Ho).
  unfold turn. rewrite He. simpl. rewrite Hgrid, cell_at_layout by lia. simpl.
  unfold GridAgentMethods.chooseAction.
  case_bool_decide as Hworld.
  - (* the agent does not belong to this world *)
    simpl. rewrite fn_lookup_insert.
    unfold GridAgentMethods.actionResult. simpl.
    eexists _, _, _. split; [reflexivity |].
    split_and!; try done.
    intros key' b0 b1 o' He'.
    destruct (Hset key' b0 b1 o' He') as (Hc' & Hi' & Hx' & Hy' & ? & ? & Hh').
    destruct (decide (o = o')) as [<- | Hne].
    + rewrite fn_lookup_insert. done.
    + rewrite !fn_lookup_insert_ne by done. done.
  - (* the agent proposes a move in the drawn direction *)
    unfold Action.init. simpl.
    set (act := Action.mk o Action.move (draws key) None _ _).
    set (s1 := GridObject.__setattr__ (objs o) _).
    assert (GridObject._objectID s1 = key /\ GridObject.cls s1 = GridObject.cls (objs o)
            /\ GridObject._currentAction s1 = Some act) as (Hid1 & Hcls1 & Hcur1) by done.
    pose proof (applyAction_linked_summary base Hn Wn W hp (<[o := s1]> objs)
                  Hgrid Hlinked act (a0, a1, o)) as Happ.
    unfold act at 1 2 3 4 5 6 7 8 9 in Happ. simpl in Happ.
    rewrite fn_lookup_insert, Hid1, Hx, Hy in Happ.
    destruct Happ as (hp' & i & k & Happ & Hi & Hk & Hcases);
      [done | done | lia | lia | done | done | done |].
    fold act in Happ. rewrite Happ. simpl. rewrite fn_lookup_insert.
    unfold GridAgentMethods.actionResult. rewrite Hcur1. simpl.
    rewrite setattr_position.
    eexists _, _, _. split; [reflexivity |].
    assert (same_topology hp' hp /\ same_parents hp' hp
            /\ o ∈ _occupants (hp' (pos base Wn i k))
            /\ (forall o' c, o' ≠ o -> o' ∈ _occupants (hp c) ->
                  o' ∈ _occupants (hp' c))) as (Htop & Hpar & Hnew & Hkeep).
    { destruct Hcases as [[-> Hsame] | ->].
      - split_and!; [apply same_topology_refl | done | by rewrite Hsame | done].
      - split_and!; [apply moved_same_topology | apply moved_same_parents
                     | apply moved_holds |].
        intros o' c Hne Hin. by apply moved_keeps. }
    simpl. split_and!; try done.
    { by apply (odict_keys_set _ _ (a0, a1, o)). }
    assert (well_linked hp' base Hn Wn) as Hlinked'
      by (by eapply well_linked_same_topology).
    destruct (Hlinked' i k Hi Hk) as (Hsx & Hsy & _).
    intros key' b0 b1 o' He'. unfold with_entry in He'. simpl in He'.
    destruct (decide (key = key')) as [<- | Hkey].
    + rewrite odict_get_set in He'. injection He' as <- <- <-.
      rewrite fn_lookup_insert. simpl. rewrite Hsx, Hsy.
      split_and!; try done; try lia.
      exists (pos base Wn i k). split; [| done].
      unfold getLocation, with_entry. simpl. rewrite Hgrid.
      rewrite cell_at_layout by lia. by rewrite !Nat2Z.id.
    + rewrite odict_get_set_ne in He' by done.
      destruct (Hset key' b0 b1 o' He') as (Hc' & Hi' & Hx' & Hy' & ? & ? & h' & Hh' & Ho').
      assert (o ≠ o') as Hne by (intros <-; congruence).
      rewrite !fn_lookup_insert_ne by done.
      split_and!; try done.
      exists h'. split; [done |]. apply Hkeep; done.
Qed.

End SettledTurns.

(** ** What a tick keeps *)

Section Frames.
Import GridPoint GridWorld.

Lemma same_frame_refl (W : GridWorld.t) (hp : ref -> GridPoint.t) :
  same_frame W W hp hp.
Proof. unfold same_frame. split_and!; done. Qed.

Lemma same_frame_trans (W1 W2 W3 : GridWorld.t) (hp1 hp2 hp3 : ref -> GridPoint.t) :
  same_frame W1 W2 hp1 hp2 -> same_frame W2 W3 hp2 hp3 -> same_frame W1 W3 hp1 hp3.
Proof.
  unfold same_frame. intros (? & ? & ? & ? & ? & ? & ?) (? & ? & ? & ? & ? & ? & ?).
  split_and!; try congruence. by eapply same_topology_trans.
Qed.

Lemma applyAction_frame (W W' : GridWorld.t) (hp hp' : ref -> GridPoint.t)
    (objs : obj -> GridObject.t) (a : Action.t) (r : option ref) :
  _applyAction W hp objs a = Ok (W', hp', r) -> same_frame W' W hp' hp.
Proof.
  unfold _applyAction.
  case_bool_decide; [intros [= <- <- <-]; apply same_frame_refl |].
  case_bool_decide; [| intros [= <- <- <-]; apply same_frame_refl].
  destruct (destination a) as [dx dy].
  match goal with |- context [bind ?m _] => destruct m as [[]|] end; simpl;
    try discriminate.
  - destruct (cell_at _ _ _); simpl; [| discriminate].
    intros [= <- <- <-]. apply same_frame_refl.
  - destruct (cell_at _ _ _) as [here|]; simpl; [| discriminate].
    destruct (vacate hp here _ _) as [[hp1 [sq|]]|] eqn:Hv; simpl;
      try discriminate.
    destruct (odict_get (_agents W) _) as [e|] eqn:He; simpl; [| discriminate].
    rewrite odict_get_set. simpl. rewrite odict_set_set.
    intros [= <- <- <-]. unfold same_frame. simpl.
    split_and!; try done.
    + by eapply odict_keys_set.
    + by eapply vacate_same_topology.
Qed.

Lemma turn_frame (draws : nat -> Z) (key : nat) (W W' : GridWorld.t)
    (hp hp' : ref -> GridPoint.t) (objs objs' : obj -> GridObject.t) :
  turn draws (W, hp, objs) key = Ok (W', hp', objs') -> same_frame W' W hp' hp.
Proof.
  unfold turn.
  destruct (odict_get (_agents W) key) as [[[a0 a1] a2]|]; simpl; [| discriminate].
  destruct (cell_at _ a0 a1) as [here|]; simpl; [| discriminate].
  destruct (GridAgentMethods.chooseAction _ _ _ _ _ _ _) as [s action].
  destruct (_applyAction W hp _ action) as [[[W1 hp1] r]|] eqn:Happ; simpl;
    [| discriminate].
  destruct (GridAgentMethods.actionResult _ _ _); simpl; [| discriminate].
  intros [= <- <- <-]. by eapply applyAction_frame.
Qed.

Lemma turns_frame (draws : nat -> Z) (keys : list nat) :
  forall (W W' : GridWorld.t) (hp hp' : ref -> GridPoint.t)
         (objs objs' : obj -> GridObject.t),
  foldM (turn draws) (W, hp, objs) keys = Ok (W', hp', objs') ->
  same_frame W' W hp' hp.
Proof.
  induction keys as [|key keys IH]; intros W W' hp hp' objs objs'; cbn [foldM].
  - intros [= <- <- <-]. apply same_frame_refl.
  - destruct (turn draws (W, hp, objs) key) as [[[W1 hp1] objs1]|] eqn:Hturn;
      cbn [bind]; [| discriminate].
    intros Hrest. eapply same_frame_trans; [by eapply IH | by eapply turn_frame].
Qed.

End Frames.

(** ** Occupants are conserved *)

Section Conservation.
Import GridPoint GridWorld.
Variables (base Hn Wn : nat).

Lemma applyAction_conserves (W W' : GridWorld.t) (hp hp' : ref -> GridPoint.t)
    (objs : obj -> GridObject.t) (a : Action.t) (r : option ref) :
  _grid W = layout base Hn Wn ->
  well_linked hp base Hn Wn ->
  _applyAction W hp objs a = Ok (W', hp', r) ->
  forall o, total_of hp' (concat (layout base Hn Wn)) o
            = total_of hp (concat (layout base Hn Wn)) o.
Proof.
  intros Hgrid Hlinked. unfold _applyAction.
  case_bool_decide; [by intros [= <- <- <-] |].
  case_bool_decide; [| by intros [= <- <- <-]].
  destruct (destination a) as [dx dy].
  match goal with |- context [bind ?m _] => destruct m as [[]|] end; simpl;
    try discriminate.
  - destruct (cell_at _ _ _); simpl; [| discriminate]. by intros [= <- <- <-].
  - destruct (cell_at _ _ _) as [here|] eqn:Hhere; simpl; [| discriminate].
    destruct (vacate hp here _ _) as [[hp1 [sq|]]|] eqn:Hv; simpl;
      try discriminate.
    destruct (odict_get (_agents W) _); simpl; [| discriminate].
    destruct (odict_get _ _); simpl; [| discriminate].
    intros [= <- <- <-]. rewrite Hgrid in Hhere. apply cell_at_elem in Hhere.
    eapply vacate_conserves; [apply layout_NoDup | exact Hhere | | exact Hv].
    intros n Hn'. by eapply linked_neighbour_adjacent.
Qed.

Lemma turn_conserves (draws : nat -> Z) (key : nat) (W W' : GridWorld.t)
    (hp hp' : ref -> GridPoint.t) (objs objs' : obj -> GridObject.t) :
  _grid W = layout base Hn Wn ->
  well_linked hp base Hn Wn ->
  turn draws (W, hp, objs) key = Ok (W', hp', objs') ->
  forall o, total_of hp' (concat (layout base Hn Wn)) o
            = total_of hp (concat (layout base Hn Wn)) o.
Proof.
  intros Hgrid Hlinked. unfold turn.
  destruct (odict_get (_agents W) key) as [[[a0 a1] a2]|]; simpl; [| discriminate].
  destruct (cell_at _ a0 a1) as [here|]; simpl; [| discriminate].
  destruct (GridAgentMethods.chooseAction _ _ _ _ _ _ _) as [s action].
  destruct (_applyAction W hp _ action) as [[[W1 hp1] r]|] eqn:Happ; simpl;
    [| discriminate].
  destruct (GridAgentMethods.actionResult _ _ _); simpl; [| discriminate].
  intros [= <- <- <-]. by eapply applyAction_conserves.
Qed.

Lemma turns_conserve (draws : nat -> Z) (keys : list nat) :
  forall (W W' : GridWorld.t) (hp hp' : ref -> GridPoint.t)
         (objs objs' : obj -> GridObject.t),
  _grid W = layout base Hn Wn ->
  well_linked hp base Hn Wn ->
  foldM (turn draws) (W, hp, objs) keys = Ok (W', hp', objs') ->
  forall o, total_of hp' (concat (layout base Hn Wn)) o
            = total_of hp (concat (layout base Hn Wn)) o.
Proof.
  induction keys as [|key keys IH]; intros W W' hp hp' objs objs' Hgrid Hlinked;
    cbn [foldM].
  - by intros [= <- <- <-].
  - destruct (turn draws (W, hp, objs) key) as [[[W1 hp1] objs1]|] eqn:Hturn;
      cbn [bind]; [| discriminate].
    intros Hrest o.
    destruct (turn_frame _ _ _ _ _ _ _ _ Hturn) as (Hg & _ & _ & _ & _ & _ & Htop).
    rewrite (IH _ _ _ _ _ _ (eq_trans Hg Hgrid)
               (well_linked_same_topology _ _ _ _ _ Hlinked Htop) Hrest).
    by eapply turn_conserves.
Qed.

End Conservation.

(** ** Ticks of a settled square world *)

Section SquareTicks.
Import GridPoint GridWorld.
Variables (base n : nat).

Lemma turns_settled (draws : nat -> Z) (keys : list nat) :
  (forall key, 0 <= draws key <= 3) ->
  forall (W : GridWorld.t) (hp : ref -> GridPoint.t) (objs : obj -> GridObject.t),
  _grid W = layout base n n ->
  well_linked hp base n n ->
  settled W hp objs ->
  (forall key, key ∈ keys -> key ∈ odict_keys (_agents W)) ->
  exists W' hp' objs',
    foldM (turn draws) (W, hp, objs) keys = Ok (W', hp', objs')
    /\ same_frame W' W hp' hp /\ same_parents hp' hp
    /\ settled W' hp' objs'.
Proof.
  intros Hd. induction keys as [|key keys IH]; intros W hp objs Hgrid Hlinked Hset Hkeys;
    cbn [foldM].
  - eexists _, _, _. split; [reflexivity |].
    split_and!; [apply same_frame_refl | done | done].
  - destruct (proj1 (odict_get_keys (_agents W) key)) as ([[a0 a1] o] & He).
    { apply Hkeys, list_elem_of_here. }
    destruct (settled_in_grid base n n W hp objs key a0 a1 o Hgrid Hset He)
      as (_ & _ & _ & _ & Hx0 & Hy0 & _).
    destruct (turn_settled base n n W hp objs draws key a0 a1 o Hgrid Hlinked Hset He)
      as (W1 & hp1 & objs1 & Hturn & Hg & Hs & Ht & Hm & Hw & Hk & Htop & Hpar & Hset1);
      [lia | lia | done |].
    rewrite Hturn. cbn [bind].
    destruct (IH W1 hp1 objs1) as (W2 & hp2 & objs2 & Hrest & Hfr & Hpar2 & Hset2).
    { by rewrite Hg. }
    { by eapply well_linked_same_topology. }
    { done. }
    { intros key' Hin. rewrite Hk. by apply Hkeys, list_elem_of_further. }
    eexists _, _, _. split; [exact Hrest |]. split_and!; [| | done].
    + eapply same_frame_trans; [exact Hfr |]. unfold same_frame. done.
    + intros r. by rewrite Hpar2.
Qed.

(** A tick of a settled square world in closed form for its flag and
    clock. *)
Lemma tick_settled (draws : nat -> Z) (W : GridWorld.t) (hp : ref -> GridPoint.t)
    (objs : obj -> GridObject.t) :
  (forall key, 0 <= draws key <= 3) ->
  _grid W = layout base n n ->
  well_linked hp base n n ->
  settled W hp objs ->
  exists W' hp' objs',
    _tick W hp objs draws
    = Ok (W', hp', objs',
          negb (bool_decide (_maxTime W > 0) && bool_decide (_time W >= _maxTime W)))
    /\ _time W'
       = (if bool_decide (_maxTime W > 0) && bool_decide (_time W >= _maxTime W)
          then _time W else _time W + 1)
    /\ _grid W' = _grid W /\ self_id W' = self_id W
    /\ _maxTime W' = _maxTime W /\ _waitTime W' = _waitTime W
    /\ odict_keys (_agents W') = odict_keys (_agents W)
    /\ same_topology hp' hp /\ same_parents hp' hp
    /\ settled W' hp' objs'.
Proof.
  intros Hd Hgrid Hlinked Hset. unfold _tick.
  destruct (_ && _).
  - eexists _, _, _. split; [reflexivity |].
    split_and!; done.
  - destruct (turns_settled draws (odict_keys (_agents W)) Hd
                (at_time W (_time W + 1)) hp objs)
      as (W' & hp' & objs' & Hrun & (Hg & Hs & Ht & Hm & Hw & Hk & Htop) & Hpar & Hset');
      try done.
    unfold at_time in Hrun. simpl in Hrun. simpl. rewrite Hrun. simpl.
    eexists _, _, _. split; [reflexivity |]. split_and!; done.
Qed.

End SquareTicks.

(** ** Runs of a settled square world *)

Section Runs.
Import GridPoint GridWorld GridWorldRun.
Variables (base n : nat) (sleeps : Z -> bool) (draws : Z -> nat -> Z) (ticks : Z).
Hypothesis Hdraws : forall tc key, 0 <= draws tc key <= 3.

(** The loop makes [m] ticks and stops, when neither the number of ticks
    asked for nor the clock ends it earlier and one of them ends it then. *)
Lemma run_loop_reaches (m : nat) :
  forall (fuel : nat) (tc : Z) (W : GridWorld.t) (hp : ref -> GridPoint.t)
         (objs : obj -> GridObject.t),
  _grid W = layout base n n -> well_linked hp base n n -> settled W hp objs ->
  sleeps (_waitTime W) = true ->
  (m < fuel)%nat ->
  (ticks = 0 \/ tc + Z.of_nat m <= ticks) ->
  (_maxTime W <= 0 \/ _time W + Z.of_nat m <= _maxTime W) ->
  ((ticks ≠ 0 /\ tc + Z.of_nat m = ticks)
   \/ (_maxTime W > 0 /\ _time W + Z.of_nat m = _maxTime W)) ->
  exists W' hp' objs',
    run_loop fuel sleeps draws ticks tc (W, hp, objs) = Some (Returns (W', hp', objs'))
    /\ _time W' = _time W + Z.of_nat m
    /\ _grid W' = _grid W /\ self_id W' = self_id W
    /\ _maxTime W' = _maxTime W /\ _waitTime W' = _waitTime W
    /\ odict_keys (_agents W') = odict_keys (_agents W)
    /\ same_topology hp' hp /\ same_parents hp' hp
    /\ settled W' hp' objs'.
Proof.
  induction m as [|m IH]; intros fuel tc W hp objs Hgrid Hlinked Hset Hwait Hfuel
    Hticks Hmax Hstop;
    (destruct fuel as [|fuel]; [lia |]); cbn [run_loop fst snd].
  - destruct (bool_decide (ticks = 0) || bool_decide (tc < ticks)) eqn:Hcond.
    + destruct (tick_settled base n (draws tc) W hp objs (Hdraws tc) Hgrid Hlinked Hset)
        as (W' & hp' & objs' & -> & Ht & Hrest).
      assert (bool_decide (_maxTime W > 0) && bool_decide (_time W >= _maxTime W) = true)
        as Hguard.
      { apply orb_true_iff in Hcond as [Hc%bool_decide_eq_true | Hc%bool_decide_eq_true];
          (rewrite !bool_decide_eq_true_2; [done | lia | lia]). }
      rewrite Hguard in *. simpl.
      eexists _, _, _. split; [reflexivity |]. split; [lia | done].
    + eexists _, _, _. split; [reflexivity |].
      split_and!; try done. lia.
  - assert (bool_decide (ticks = 0) || bool_decide (tc < ticks) = true) as ->.
    { apply orb_true_iff. destruct Hticks as [-> | Hlt].
      - left. by apply bool_decide_eq_true.
      - right. apply bool_decide_eq_true. lia. }
    destruct (tick_settled base n (draws tc) W hp objs (Hdraws tc) Hgrid Hlinked Hset)
      as (W1 & hp1 & objs1 & -> & Ht & Hg & Hs & Hm & Hw & Hk & Htop & Hpar & Hset1).
    assert (bool_decide (_maxTime W > 0) && bool_decide (_time W >= _maxTime W) = false)
      as Hguard.
    { apply andb_false_iff. destruct Hmax as [Hle | Hle].
      - left. apply bool_decide_eq_false. lia.
      - right. apply bool_decide_eq_false. lia. }
    rewrite Hguard in *. simpl. rewrite Hw, Hwait.
    destruct (IH fuel (tc + 1) W1 hp1 objs1)
      as (W2 & hp2 & objs2 & Hrun & Ht2 & Hg2 & Hs2 & Hm2 & Hw2 & Hk2 & Htop2 & Hpar2 & Hset2);
      try done; try lia.
    { by rewrite Hg. }
    { by eapply well_linked_same_topology. }
    { by rewrite Hw. }
    eexists _, _, _. split; [exact Hrun |].
    split_and!; [lia | congruence | congruence | congruence | congruence | congruence
                 | by eapply same_topology_trans | | done].
    intros r. by rewrite Hpar2.
Qed.

(** With no number of ticks and no end of time the loop goes on. *)
Lemma run_loop_forever (fuel : nat) :
  ticks = 0 ->
  forall (tc : Z) (W : GridWorld.t) (hp : ref -> GridPoint.t)
         (objs : obj -> GridObject.t),
  _grid W = layout base n n -> well_linked hp base n n -> settled W hp objs ->
  sleeps (_waitTime W) = true -> _maxTime W <= 0 ->
  run_loop fuel sleeps draws ticks tc (W, hp, objs) = None.
Proof.
  intros Hticks. induction fuel as [|fuel IH]; intros tc W hp objs Hgrid Hlinked Hset
    Hwait Hmax; cbn [run_loop fst snd]; [done |].
  rewrite (bool_decide_eq_true_2 (ticks = 0)) by done. simpl.
  destruct (tick_settled base n (draws tc) W hp objs (Hdraws tc) Hgrid Hlinked Hset)
    as (W1 & hp1 & objs1 & -> & Ht & Hg & Hs & Hm & Hw & Hk & Htop & Hpar & Hset1).
  rewrite (bool_decide_eq_false_2 (_maxTime W > 0)) by lia. simpl.
  rewrite Hw, Hwait.
  apply IH; try done; try lia.
  - by rewrite Hg.
  - by eapply well_linked_same_topology.
  - by rewrite Hw.
Qed.

End Runs.

(** ** The world after its construction: reading the grid *)

Section Locations.
Import GridPoint GridWorld.

Lemma py_getitem_wrap {A : Type} (l : list A) (i : Z) :
  - len l <= i < 0 -> py_getitem l i = py_getitem l (i + len l).
Proof.
  intros Hi. unfold py_getitem.
  rewrite (bool_decide_eq_true_2 (i < 0)) by lia.
  rewrite (bool_decide_eq_false_2 (i + len l < 0)) by lia.
  by rewrite Z.add_comm.
Qed.

Lemma py_getitem_out {A : Type} (l : list A) (i : Z) :
  i < - len l \/ len l <= i -> py_getitem l i = Raise IndexError.
Proof.
  intros Hi. unfold py_getitem. pose proof (len_nonneg l) as Hlen.
  destruct (decide (i < 0)) as [Hneg | Hneg].
  - rewrite (bool_decide_eq_true_2 (i < 0)) by done.
    rewrite bool_decide_eq_true_2; [done | lia].
  - rewrite (bool_decide_eq_false_2 (i < 0)) by done.
    rewrite bool_decide_eq_false_2 by lia.
    rewrite lookup_ge_None_2; [done |]. unfold len in Hi. lia.
Qed.

Lemma new_point_capacity (wid : world_id) (points occupants : option (gmap (Z * Z) Z))
    (px py : Z) (c : GridPoint.t) :
  new_point wid points occupants px py = Ok c ->
  _label c = None
  /\ Some (capacity c) = match points with
                         | None => Some 1
                         | Some pts => pts !! (px, py)
                         end.
Proof.
  unfold new_point, dict_get.
  destruct points as [pts|]; [destruct occupants as [occ|] |].
  - destruct (pts !! (px, py)); simpl; [| discriminate].
    destruct (occ !! (px, py)); simpl; [| discriminate].
    by intros [= <-].
  - destruct (pts !! (px, py)); simpl; [| discriminate]. by intros [= <-].
  - by intros [= <-].
Qed.

(** A new world, read through its accessors: the cell at [(x, y)] carries
    those coordinates, is empty and unlabelled, belongs to the world and
    has the capacity that [points] gives it, or 1; the boundary is the
    number of rows and of columns, the clock is at 0 and nobody is
    registered. *)
Theorem getLocation_built (self : world_id) (base : ref) (hp0 : ref -> GridPoint.t)
    (h w mt ui : Z) (points occupants : option (gmap (Z * Z) Z))
    (W : GridWorld.t) (hp : ref -> GridPoint.t) (px py : Z) :
  init self base hp0 h w mt ui points occupants = Ok (W, hp) ->
  0 <= px < w -> 0 <= py < h ->
  (exists c, getLocation W px py = Ok c
     /\ x (hp c) = px /\ y (hp c) = py
     /\ GridPoint.occupants (hp c) = [] /\ label (hp c) = None /\ _parent (hp c) = self
     /\ Some (capacity (hp c)) = match points with
                                 | None => Some 1
                                 | Some pts => pts !! (px, py)
                                 end)
  /\ boundary W = Ok (h, w)
  /\ time W = 0 /\ runTime W = mt /\ _waitTime W = ui /\ _agents W = [].
Proof.
  intros Hinit Hpx Hpy.
  destruct (init_spec _ _ _ _ _ _ _ _ _ _ _ Hinit) as (Hlay & _ & Hlinked & Hcells).
  split.
  - exists (pos base (Z.to_nat w) (Z.to_nat py) (Z.to_nat px)).
    destruct (Hcells (Z.to_nat py) (Z.to_nat px)) as (c & Hc & Hcell); [lia | lia |].
    rewrite !Z2Nat.id in Hc by lia.
    destruct (new_point_shape _ _ _ _ _ _ Hc) as (Hx & Hy & Hocc & _ & Hpar).
    destruct (new_point_capacity _ _ _ _ _ _ Hc) as (Hlab & Hcap).
    unfold getLocation. rewrite Hlay, cell_at_layout by lia.
    rewrite Hcell. done.
  - unfold init in Hinit.
    destruct (new_grid _ _ _ _ _ _) as [[st grid]|]; simpl in Hinit; [| discriminate].
    destruct (link_grid _ _); simpl in Hinit; [| discriminate].
    injection Hinit as <- <-. simpl in Hlay. subst grid.
    unfold boundary, time, runTime. simpl.
    rewrite py_getitem_layout by lia. simpl. rewrite len_layout.
    unfold len. rewrite (length_seq (Z.to_nat w)).
    split_and!; try done. do 2 f_equal; lia.
Qed.

Lemma getLocation_built_witness :
  (exists c, getLocation walled_world.1 1 0 = Ok c
     /\ x (walled_world.2 c) = 1 /\ y (walled_world.2 c) = 0
     /\ GridPoint.occupants (walled_world.2 c) = [] /\ label (walled_world.2 c) = None
     /\ _parent (walled_world.2 c) = 0%nat
     /\ Some (capacity (walled_world.2 c)) = walled_points !! (1, 0))
  /\ boundary walled_world.1 = Ok (2, 2)
  /\ time walled_world.1 = 0 /\ runTime walled_world.1 = 0
  /\ _waitTime walled_world.1 = 1 /\ _agents walled_world.1 = [].
Proof.
  apply (getLocation_built 0%nat 10%nat empty_store 2 2 0 1 (Some walled_points) None
           walled_world.1 walled_world.2 1 0).
  - vm_compute. reflexivity.
  - lia.
  - lia.
Defined.

(** [getLocation] takes Python's indices: a negative coordinate counts from
    the far edge of the grid, and anything beyond the grid raises
    [IndexError]. *)
Theorem getLocation_wraps (self : world_id) (base : ref) (hp0 : ref -> GridPoint.t)
    (h w mt ui : Z) (points occupants : option (gmap (Z * Z) Z))
    (W : GridWorld.t) (hp : ref -> GridPoint.t) :
  init self base hp0 h w mt ui points occupants = Ok (W, hp) ->
  (forall px py, - h <= py < 0 -> getLocation W px py = getLocation W px (py + h))
  /\ (forall px py, 0 <= py < h -> - w <= px < 0 ->
        getLocation W px py = getLocation W (px + w) py)
  /\ (forall px py, py < - h \/ h <= py -> getLocation W px py = Raise IndexError)
  /\ (forall px py, 0 <= py < h -> px < - w \/ w <= px ->
        getLocation W px py = Raise IndexError).
Proof.
  intros Hinit.
  destruct (init_spec _ _ _ _ _ _ _ _ _ _ _ Hinit) as (Hlay & _).
  unfold getLocation, cell_at. rewrite Hlay.
  pose proof (len_layout base (Z.to_nat h) (Z.to_nat w)) as Hlen.
  split_and!.
  - intros px py Hpy. rewrite py_getitem_wrap by lia. do 2 f_equal. lia.
  - intros px py Hpy Hpx. rewrite py_getitem_layout by lia. simpl.
    rewrite py_getitem_wrap; unfold len; rewrite (length_seq (Z.to_nat w)); [| lia].
    f_equal. lia.
  - intros px py Hpy. rewrite py_getitem_out; [done | lia].
  - intros px py Hpy Hpx. rewrite py_getitem_layout by lia. simpl.
    apply py_getitem_out. unfold len. rewrite (length_seq (Z.to_nat w)). lia.
Qed.

Lemma getLocation_wraps_witness :
  (forall px py, - 2 <= py < 0 ->
     getLocation walled_world.1 px py = getLocation walled_world.1 px (py + 2))
  /\ (forall px py, 0 <= py < 2 -> - 2 <= px < 0 ->
        getLocation walled_world.1 px py = getLocation walled_world.1 (px + 2) py)
  /\ (forall px py, py < - 2 \/ 2 <= py ->
        getLocation walled_world.1 px py = Raise IndexError)
  /\ (forall px py, 0 <= py < 2 -> px < - 2 \/ 2 <= px ->
        getLocation walled_world.1 px py = Raise IndexError).
Proof.
  apply (getLocation_wraps 0%nat 10%nat empty_store 2 2 0 1 (Some walled_points) None
           walled_world.1 walled_world.2).
  vm_compute. reflexivity.
Defined.

End Locations.

(** ** When the constructor raises *)

Section ConstructionErrors.
Import GridPoint GridWorld.
Variables (wid : world_id) (points occupants : option (gmap (Z * Z) Z)).

Lemma new_point_raise (px py : Z) (e : exn) :
  new_point wid points occupants px py = Raise e <->
  e = KeyError
  /\ exists pts, points = Some pts
       /\ (pts !! (px, py) = None
           \/ exists occ, occupants = Some occ /\ occ !! (px, py) = None).
Proof.
  unfold new_point, dict_get.
  destruct points as [pts|]; [destruct occupants as [occ|] |].
  - destruct (pts !! (px, py)) eqn:Hp; simpl.
    + destruct (occ !! (px, py)) eqn:Ho; simpl.
      * split; [discriminate |].
        intros (_ & pts' & [= <-] & [H | (occ' & [= <-] & H)]); congruence.
      * split.
        -- intros [= <-]. split; [done |]. exists pts. split; [done |].
           right. by exists occ.
        -- by intros (-> & _).
    + split.
      * intros [= <-]. split; [done |]. exists pts. split; [done |]. by left.
      * by intros (-> & _).
  - destruct (pts !! (px, py)) eqn:Hp; simpl.
    + split; [discriminate |].
      intros (_ & pts' & [= <-] & [H | (occ' & [=] & H)]); congruence.
    + split.
      * intros [= <-]. split; [done |]. exists pts. split; [done |]. by left.
      * by intros (-> & _).
  - split; [discriminate |]. by intros (_ & pts' & [=] & _).
Qed.

Lemma new_row_raise (xs : list Z) :
  forall (st : (ref -> GridPoint.t) * ref) (py : Z) (e : exn),
  new_row wid points occupants st py xs = Raise e ->
  exists px, px ∈ xs /\ new_point wid points occupants px py = Raise e.
Proof.
  induction xs as [|px xs IH]; intros st py e; simpl; [discriminate |].
  destruct (new_point wid points occupants px py) as [c|e'] eqn:Hc; simpl.
  - destruct (new_row _ _ _ _ py xs) as [[st1 rs1]|e'] eqn:Hrow; simpl;
      [discriminate |].
    intros [= <-]. destruct (IH _ _ _ Hrow) as (qx & Hq & Hraise).
    exists qx. split; [by apply list_elem_of_further | done].
  - intros [= <-]. exists px. split; [apply list_elem_of_here | done].
Qed.

Lemma new_row_fails (xs : list Z) :
  forall (st : (ref -> GridPoint.t) * ref) (py px : Z) (e : exn),
  px ∈ xs -> new_point wid points occupants px py = Raise e ->
  exists e', new_row wid points occupants st py xs = Raise e'.
Proof.
  induction xs as [|qx xs IH]; intros st py px e Hin Hraise; simpl.
  - by apply elem_of_nil in Hin.
  - destruct (new_point wid points occupants qx py) as [c|e'] eqn:Hc; simpl;
      [| by eexists].
    apply elem_of_cons in Hin as [-> | Hin]; [congruence |].
    destruct (IH (<[st.2 := c]> st.1, S st.2) py px e Hin Hraise) as (e' & ->).
    simpl. by eexists.
Qed.

Lemma new_grid_raise (w : Z) (ys : list Z) :
  forall (st : (ref -> GridPoint.t) * ref) (e : exn),
  new_grid wid points occupants st w ys = Raise e ->
  exists px py, px ∈ range w /\ py ∈ ys
    /\ new_point wid points occupants px py = Raise e.
Proof.
  induction ys as [|py ys IH]; intros st e; simpl; [discriminate |].
  destruct (new_row _ _ _ st py (range w)) as [[st1 r1]|e'] eqn:Hrow; simpl.
  - destruct (new_grid _ _ _ st1 w ys) as [[st2 rs2]|e'] eqn:Hgrid; simpl;
      [discriminate |].
    intros [= <-]. destruct (IH _ _ Hgrid) as (px & qy & Hpx & Hqy & Hraise).
    exists px, qy. split_and!; [done | by apply list_elem_of_further | done].
  - intros [= <-]. destruct (new_row_raise _ _ _ _ Hrow) as (px & Hpx & Hraise).
    exists px, py. split_and!; [done | apply list_elem_of_here | done].
Qed.

Lemma new_grid_fails (w : Z) (ys : list Z) :
  forall (st : (ref -> GridPoint.t) * ref) (px py : Z) (e : exn),
  px ∈ range w -> py ∈ ys -> new_point wid points occupants px py = Raise e ->
  exists e', new_grid wid points occupants st w ys = Raise e'.
Proof.
  induction ys as [|qy ys IH]; intros st px py e Hpx Hpy Hraise; simpl.
  - by apply elem_of_nil in Hpy.
  - destruct (new_row _ _ _ st qy (range w)) as [[st1 r1]|e'] eqn:Hrow; simpl;
      [| by eexists].
    apply elem_of_cons in Hpy as [-> | Hpy].
    + destruct (new_row_fails (range w) st qy px e Hpx Hraise) as (e' & He').
      congruence.
    + destruct (IH st1 px py e Hpx Hpy Hraise) as (e' & ->). simpl. by eexists.
Qed.

(** The constructor raises exactly when [points], or [occupants] next to
    it, lacks the position of a cell of the grid, and what it raises is
    [KeyError]. *)
Theorem init_raises_iff_missing (base : ref) (hp0 : ref -> GridPoint.t)
    (h w mt ui : Z) (e : exn) :
  init wid base hp0 h w mt ui points occupants = Raise e <->
  e = KeyError
  /\ exists pts px py,
       points = Some pts /\ 0 <= px < w /\ 0 <= py < h
       /\ (pts !! (px, py) = None
           \/ exists occ, occupants = Some occ /\ occ !! (px, py) = None).
Proof.
  unfold init. split.
  - destruct (new_grid _ _ _ _ w (range h)) as [[st grid]|e'] eqn:Hgrid; simpl.
    + destruct (new_grid_spec _ _ _ _ _ _ _ _ Hgrid) as (Hrows & _ & Hcells & _).
      unfold range in Hrows, Hcells. rewrite length_seqZ in Hrows. simpl in *.
      fold (layout base (Z.to_nat h) (Z.to_nat w)) in Hrows. subst grid.
      destruct (link_grid_spec base (Z.to_nat h) (Z.to_nat w) st.1)
        as (hp' & -> & _); [| discriminate].
      intros i k Hi Hk.
      assert (new_point wid points occupants (Z.of_nat k) (Z.of_nat i)
              = Ok (st.1 (pos base (Z.to_nat w) i k))) as Hc.
      { apply Hcells; [| done]. rewrite lookup_seqZ_lt by lia. reflexivity. }
      by destruct (new_point_shape _ _ _ _ _ _ Hc) as (_ & _ & _ & ? & _).
    + intros [= <-].
      destruct (new_grid_raise _ _ _ _ Hgrid) as (px & py & Hpx & Hpy & Hraise).
      apply new_point_raise in Hraise as (-> & pts & Hpts & Hmiss).
      unfold range in *. apply elem_of_seqZ in Hpx, Hpy.
      split; [done |]. exists pts, px, py. split_and!; (done || lia).
  - intros (-> & pts & px & py & Hpts & Hpx & Hpy & Hmiss).
    assert (new_point wid points occupants px py = Raise KeyError) as Hraise.
    { apply new_point_raise. split; [done |]. by exists pts. }
    destruct (new_grid_fails w (range h) (hp0, base) px py KeyError) as (e' & He');
      [unfold range; apply elem_of_seqZ; lia | unfold range; apply elem_of_seqZ; lia
       | done |].
    rewrite He'. simpl.
    destruct (new_grid_raise _ _ _ _ He') as (qx & qy & _ & _ & Hq).
    apply new_point_raise in Hq as (-> & _). done.
Qed.

End ConstructionErrors.

(** ** Registering an agent *)

Section Registration.
Import GridPoint GridWorld.

Lemma odict_keys_set_new {V : Type} (d : list (nat * V)) (k : nat) (v : V) :
  odict_get d k = Raise KeyError -> odict_keys (odict_set d k v) = odict_keys d ++ [k].
Proof.
  unfold odict_keys. induction d as [|[k0 v0] d IH]; [done |].
  cbn [odict_get odict_set]. case_bool_decide as Hk; [discriminate |].
  intros H. rewrite !fmap_cons. simpl. f_equal. by apply IH.
Qed.

(** Registering an agent where it believes it is, in a world whose agents
    are settled: the roster gets the agent's entry last, whether or not the
    cell takes the agent; the cell takes it unless it is occupied, and the
    world is then settled again. *)
Theorem placeOccupant_settles (self : world_id) (base : ref)
    (hp0 : ref -> GridPoint.t) (h w mt ui : Z)
    (points occupants : option (gmap (Z * Z) Z))
    (W0 : GridWorld.t) (hpi : ref -> GridPoint.t)
    (W : GridWorld.t) (hp : ref -> GridPoint.t) (objs : obj -> GridObject.t)
    (o : obj) (here : ref) :
  init self base hp0 h w mt ui points occupants = Ok (W0, hpi) ->
  _grid W = _grid W0 -> self_id W = self_id W0 ->
  same_topology hp hpi -> same_parents hp hpi ->
  settled W hp objs ->
  GridObject.cls (objs o) = GridObject.GridAgent_class ->
  odict_get (_agents W) (GridObject._objectID (objs o)) = Raise KeyError ->
  in_bounds h w (GridObject.x (objs o), GridObject.y (objs o)) ->
  getLocation W (GridObject.x (objs o)) (GridObject.y (objs o)) = Ok here ->
  exists W' hp',
    placeOccupant W hp objs o (GridObject.y (objs o)) (GridObject.x (objs o)) true
    = Ok (W', hp', negb (occupied (hp here)))
    /\ odict_get (_agents W') (GridObject._objectID (objs o))
       = Ok (GridObject.x (objs o), GridObject.y (objs o), o)
    /\ odict_keys (_agents W')
       = odict_keys (_agents W) ++ [GridObject._objectID (objs o)]
    /\ _grid W' = _grid W /\ self_id W' = self_id W
    /\ same_topology hp' hp /\ same_parents hp' hp
    /\ (occupied (hp here) = true -> hp' = hp)
    /\ (occupied (hp here) = false ->
        _occupants (hp' here) = _occupants (hp here) ++ [o]
        /\ settled W' hp' objs).
Proof.
  intros Hinit Hgrid Hself Htop Hpar Hset Hcls Hnew [Hx Hy] Hhere. simpl in Hx, Hy.
  destruct (init_spec _ _ _ _ _ _ _ _ _ _ _ Hinit) as (Hlay & Hself0 & _ & Hcells).
  assert (_parent (hp here) = self_id W) as Hparent.
  { pose proof Hhere as Hpos. unfold getLocation in Hpos. rewrite Hgrid, Hlay in Hpos.
    apply cell_at_layout_inv in Hpos as (_ & _ & ->); [| lia | lia].
    destruct (Hcells (Z.to_nat (GridObject.y (objs o)))
                (Z.to_nat (GridObject.x (objs o)))) as (c & Hc & Hcell); [lia | lia |].
    rewrite Hpar, Hcell. simpl.
    destruct (new_point_shape _ _ _ _ _ _ Hc) as (_ & _ & _ & _ & ->). congruence. }
  unfold placeOccupant. simpl. unfold getLocation in Hhere. rewrite Hhere. simpl.
  unfold GridPoint.placeOccupant. rewrite Hparent.
  rewrite bool_decide_eq_false_2 by (intros H; by apply H). simpl.
  destruct (occupied (hp here)) eqn:Hocc; simpl.
  - eexists _, _. split; [reflexivity |]. simpl.
    split_and!; try done.
    + apply odict_get_set.
    + by apply odict_keys_set_new.
  - eexists _, _. split; [reflexivity |]. simpl.
    split_and!; try done.
    + apply odict_get_set.
    + by apply odict_keys_set_new.
    + apply with_occupants_same_topology.
    + intros r. destruct (decide (here = r)) as [<- | Hne].
      * by rewrite fn_lookup_insert.
      * by rewrite fn_lookup_insert_ne.
    + intros _. split; [by rewrite fn_lookup_insert |].
      intros key b0 b1 o' He. cbn [_agents] in He.
      destruct (decide (GridObject._objectID (objs o) = key)) as [<- | Hkey].
      * rewrite odict_get_set in He. injection He as <- <- <-.
        split_and!; try done; try lia.
        exists here. split; [done |]. rewrite fn_lookup_insert. simpl.
        apply elem_of_app. right. apply list_elem_of_here.
      * rewrite odict_get_set_ne in He by done.
        destruct (Hset key b0 b1 o' He) as (? & ? & ? & ? & ? & ? & h' & Hh' & Ho').
        split_and!; try done. exists h'. split; [done |].
        destruct (decide (here = h')) as [<- | Hne].
        -- rewrite fn_lookup_insert. simpl. apply elem_of_app. by left.
        -- by rewrite fn_lookup_insert_ne.
Qed.

Lemma placeOccupant_settles_witness :
  exists W' hp',
    placeOccupant (built_world 2 2).1 (built_world 2 2).2 (fun _ => corner_agent) 100%nat
      (GridObject.y corner_agent) (GridObject.x corner_agent) true
    = Ok (W', hp', negb (occupied ((built_world 2 2).2 0%nat)))
    /\ odict_get (_agents W') (GridObject._objectID corner_agent)
       = Ok (GridObject.x corner_agent, GridObject.y corner_agent, 100%nat)
    /\ odict_keys (_agents W')
       = odict_keys (_agents (built_world 2 2).1) ++ [GridObject._objectID corner_agent]
    /\ _grid W' = _grid (built_world 2 2).1 /\ self_id W' = self_id (built_world 2 2).1
    /\ same_topology hp' (built_world 2 2).2 /\ same_parents hp' (built_world 2 2).2
    /\ (occupied ((built_world 2 2).2 0%nat) = true -> hp' = (built_world 2 2).2)
    /\ (occupied ((built_world 2 2).2 0%nat) = false ->
        _occupants (hp' 0%nat) = _occupants ((built_world 2 2).2 0%nat) ++ [100%nat]
        /\ settled W' hp' (fun _ => corner_agent)).
Proof.
  apply (placeOccupant_settles 0%nat 0%nat empty_store 2 2 0 1 None None
           (built_world 2 2).1 (built_world 2 2).2 (built_world 2 2).1 (built_world 2 2).2
           (fun _ => corner_agent) 100%nat 0%nat).
  - vm_compute. reflexivity.
  - reflexivity.
  - reflexivity.
  - apply same_topology_refl.
  - intros r. reflexivity.
  - intros key b0 b1 o' He. vm_compute in He. discriminate.
  - reflexivity.
  - vm_compute. reflexivity.
  - split; vm_compute; split; (discriminate || reflexivity).
  - vm_compute. reflexivity.
Defined.

(** A move of an agent that the cell at the action's position does not
    hold, as after a refused placement: when the destination passes the
    bounds test as coded, [vacate] answers [None] and reading the position
    of that answer raises [AttributeError]. *)
Theorem applyAction_not_occupant_raises (self : world_id) (base : ref)
    (hp0 : ref -> GridPoint.t) (h w mt ui : Z)
    (points occupants : option (gmap (Z * Z) Z))
    (W0 : GridWorld.t) (hpi : ref -> GridPoint.t)
    (W : GridWorld.t) (hp : ref -> GridPoint.t) (objs : obj -> GridObject.t)
    (a : Action.t) (here : ref) :
  init self base hp0 h w mt ui points occupants = Ok (W0, hpi) ->
  _grid W = _grid W0 ->
  Action.actionCode a = Action.move ->
  in_bounds h w (Action.x a, Action.y a) ->
  in_bounds w h (destination a) ->
  getLocation W (Action.x a) (Action.y a) = Ok here ->
  Action.agent a ∉ _occupants (hp here) ->
  _applyAction W hp objs a = Raise AttributeError.
Proof.
  intros Hinit Hgrid Hcode [Hx Hy] Hpass Hhere Hno. simpl in Hx, Hy.
  destruct (init_spec _ _ _ _ _ _ _ _ _ _ _ Hinit) as (Hlay & _).
  unfold getLocation in Hhere.
  unfold _applyAction. rewrite Hcode. unfold Action.move.
  rewrite bool_decide_eq_false_2 by lia.
  rewrite bool_decide_eq_true_2 by done.
  destruct (destination a) as [dx dy]. destruct Hpass as [Hdx Hdy]. simpl in Hdx, Hdy.
  rewrite Hhere. rewrite Hgrid, Hlay, len_layout.
  assert (py_getitem (layout base (Z.to_nat h) (Z.to_nat w)) 0
          = Ok (seq (base + 0 * Z.to_nat w) (Z.to_nat w))) as ->.
  { rewrite py_getitem_layout by lia. reflexivity. }
  simpl. unfold len. rewrite (length_seq (Z.to_nat w)).
  rewrite (bool_decide_eq_false_2 (dx < 0)) by lia.
  rewrite (bool_decide_eq_false_2 (dy < 0)) by lia.
  rewrite (bool_decide_eq_false_2 (dx >= _)) by lia.
  simpl. rewrite (bool_decide_eq_false_2 (dy >= _)) by lia. simpl.
  unfold vacate. apply py_in_false in Hno. rewrite Hno. reflexivity.
Qed.

Lemma applyAction_not_occupant_raises_witness :
  _applyAction (built_world 1 2).1 (built_world 1 2).2
               (fun _ => (choice 2).1) (choice 2).2
  = Raise AttributeError.
Proof.
  apply (applyAction_not_occupant_raises 0%nat 0%nat empty_store 1 2 0 1 None None
           (built_world 1 2).1 (built_world 1 2).2 (built_world 1 2).1
           (built_world 1 2).2 (fun _ => (choice 2).1) (choice 2).2 0%nat).
  - vm_compute. reflexivity.
  - reflexivity.
  - reflexivity.
  - split; vm_compute; split; (discriminate || reflexivity).
  - split; vm_compute; split; (discriminate || reflexivity).
  - vm_compute. reflexivity.
  - vm_compute. apply not_elem_of_nil.
Defined.

End Registration.

(** ** Ticks: frame, errors and conservation *)

Section TickTheorems.
Import GridPoint GridWorld.


Lemma small_world_topology : same_topology small_world.2 (built_world 2 2).2.
Proof.
  apply (placeOccupant_same_topology (built_world 2 2).1 small_world.1
           (built_world 2 2).2 small_world.2 (fun _ => corner_agent) 100%nat 0 0 true
           (placed_world 2 2).2).
  vm_compute. reflexivity.
Qed.

(** What a tick leaves alone: the grid, the identity and settings of the
    world, the keys of the roster and their order, and every cell's
    coordinates, capacity and neighbours.  A tick that answers [False] has
    changed nothing at all and the clock has reached the end of time; one
    that answers [True] has advanced the clock by one. *)
Theorem tick_frame (W W' : GridWorld.t) (hp hp' : ref -> GridPoint.t)
    (objs objs' : obj -> GridObject.t) (draws : nat -> Z) (more : bool) :
  _tick W hp objs draws = Ok (W', hp', objs', more) ->
  _grid W' = _grid W /\ self_id W' = self_id W
  /\ runTime W' = runTime W /\ _waitTime W' = _waitTime W
  /\ odict_keys (_agents W') = odict_keys (_agents W)
  /\ same_topology hp' hp
  /\ (if more
      then time W' = time W + 1 /\ (runTime W <= 0 \/ time W < runTime W)
      else W' = W /\ hp' = hp /\ objs' = objs /\ 0 < runTime W <= time W).
Proof.
  unfold _tick, runTime, time.
  destruct (bool_decide (_maxTime W > 0)) eqn:Hmax;
    destruct (bool_decide (_time W >= _maxTime W)) eqn:Htime; simpl.
  1:{ intros [= <- <- <- <-].
      apply bool_decide_eq_true in Hmax, Htime.
      split_and!; try done; lia. }
  all: destruct (foldM _ _ _) as [[[W1 hp1] objs1]|] eqn:Hloop; simpl;
    [| discriminate]; intros [= <- <- <- <-];
    destruct (turns_frame _ _ _ _ _ _ _ _ Hloop)
      as (Hg & Hs & Ht & Hm & Hw & Hk & Htop); simpl in *;
    split_and!; try done.
  - right. apply bool_decide_eq_false in Htime. lia.
  - left. apply bool_decide_eq_false in Hmax. lia.
  - left. apply bool_decide_eq_false in Hmax. lia.
Qed.

Lemma tick_frame_witness :
  _grid small_ticked.1.1.1 = _grid small_world.1
  /\ self_id small_ticked.1.1.1 = self_id small_world.1
  /\ runTime small_ticked.1.1.1 = runTime small_world.1
  /\ _waitTime small_ticked.1.1.1 = _waitTime small_world.1
  /\ odict_keys (_agents small_ticked.1.1.1) = odict_keys (_agents small_world.1)
  /\ same_topology small_ticked.1.1.2 small_world.2
  /\ (if small_ticked.2
      then time small_ticked.1.1.1 = time small_world.1 + 1
           /\ (runTime small_world.1 <= 0
               \/ time small_world.1 < runTime small_world.1)
      else small_ticked.1.1.1 = small_world.1
           /\ small_ticked.1.1.2 = small_world.2
           /\ small_ticked.1.2 = (fun _ => corner_agent)
           /\ 0 < runTime small_world.1 <= time small_world.1).
Proof.
  apply (tick_frame small_world.1 small_ticked.1.1.1 small_world.2
           small_ticked.1.1.2 (fun _ => corner_agent) small_ticked.1.2
           (fun _ => 1) small_ticked.2).
  vm_compute. reflexivity.
Defined.





(** Occupants are conserved: over the cells of a grid built by the
    constructor, a tick leaves the number of occurrences of every object
    as it was, whatever the agents do. *)
Theorem tick_conserves_occupants (self : world_id) (base : ref)
    (hp0 : ref -> GridPoint.t) (h w mt ui : Z)
    (points occupants : option (gmap (Z * Z) Z))
    (W0 : GridWorld.t) (hpi : ref -> GridPoint.t)
    (W W' : GridWorld.t) (hp hp' : ref -> GridPoint.t)
    (objs objs' : obj -> GridObject.t) (draws : nat -> Z) (more : bool) :
  init self base hp0 h w mt ui points occupants = Ok (W0, hpi) ->
  _grid W = _grid W0 -> same_topology hp hpi ->
  _tick W hp objs draws = Ok (W', hp', objs', more) ->
  forall o, total_of hp' (concat (_grid W)) o = total_of hp (concat (_grid W)) o.
Proof.
  intros Hinit Hgrid Htop.
  destruct (init_spec _ _ _ _ _ _ _ _ _ _ _ Hinit) as (Hlay & _ & Hlinked & _).
  apply (well_linked_same_topology hp) in Hlinked; [| done].
  rewrite Hgrid, Hlay. unfold _tick.
  destruct (_ && _); [by intros [= <- <- <- <-] |].
  destruct (foldM _ _ _) as [[[W1 hp1] objs1]|] eqn:Hloop; simpl;
    [| discriminate].
  intros [= <- <- <- <-].
  eapply turns_conserve; [| exact Hlinked | exact Hloop].
  simpl. by rewrite Hgrid.
Qed.

Lemma tick_conserves_occupants_witness :
  small_ticked.2 = true
  /\ forall o, total_of small_ticked.1.1.2 (concat (_grid small_world.1)) o
               = total_of small_world.2 (concat (_grid small_world.1)) o.
Proof.
  split; [vm_compute; reflexivity |].
  apply (tick_conserves_occupants 0%nat 0%nat empty_store 2 2 0 1 None None
           (built_world 2 2).1 (built_world 2 2).2 small_world.1 small_ticked.1.1.1
           small_world.2 small_ticked.1.1.2
           (fun _ => corner_agent) small_ticked.1.2 (fun _ => 1) small_ticked.2).
  - vm_compute. reflexivity.
  - vm_compute. reflexivity.
  - apply small_world_topology.
  - vm_compute. reflexivity.
Defined.

End TickTheorems.

(** ** Moves inside the grid *)

Section MoveTheorems.
Import GridPoint GridWorld.

(** What a move between two distinct cells does to the store. *)
Lemma moved_spec (hp : ref -> GridPoint.t) (here there : ref) (o : obj) :
  here ≠ there -> o ∈ _occupants (hp here) ->
  _occupants (moved hp here there o there) = _occupants (hp there) ++ [o]
  /\ py_remove o (_occupants (hp here)) = Some (_occupants (moved hp here there o here))
  /\ (forall c, c ≠ here -> c ≠ there -> moved hp here there o c = hp c).
Proof.
  intros Hne Ho. destruct (py_remove_elem o _ Ho) as (l & Hl & _).
  unfold moved. rewrite Hl. simpl. split_and!.
  - rewrite fn_lookup_insert. simpl. by rewrite fn_lookup_insert_ne.
  - rewrite fn_lookup_insert_ne by done. by rewrite fn_lookup_insert.
  - intros c Hc1 Hc2. by rewrite !fn_lookup_insert_ne.
Qed.

(** A move in one of the four directions, proposed by an occupant with a
    roster entry, to a destination that lies in the grid and passes the
    bounds test as coded.  The cell at the destination decides: if it is
    occupied (full, or of capacity 0) the agent stays and is filed at the
    position of the action; otherwise the agent's first occurrence leaves
    its cell, the agent joins the end of the destination's occupants, the
    roster files it at the destination, and [actionResult] sets the
    agent's position to the destination. *)
Theorem move_inside_grid (self : world_id) (base : ref)
    (hp0 : ref -> GridPoint.t) (h w mt ui : Z)
    (points occupants : option (gmap (Z * Z) Z))
    (W0 : GridWorld.t) (hpi : ref -> GridPoint.t)
    (W : GridWorld.t) (hp : ref -> GridPoint.t) (objs : obj -> GridObject.t)
    (a : Action.t) (e : Z * Z * obj) (here there : ref) :
  init self base hp0 h w mt ui points occupants = Ok (W0, hpi) ->
  _grid W = _grid W0 -> same_topology hp hpi ->
  Action.actionCode a = Action.move ->
  0 <= Action.actionDirection a <= 3 ->
  in_bounds h w (Action.x a, Action.y a) ->
  in_bounds h w (destination a) -> in_bounds w h (destination a) ->
  getLocation W (Action.x a) (Action.y a) = Ok here ->
  getLocation W (destination a).1 (destination a).2 = Ok there ->
  Action.agent a ∈ _occupants (hp here) ->
  odict_get (_agents W) (GridObject._objectID (objs (Action.agent a))) = Ok e ->
  here ≠ there
  /\ _applyAction W hp objs a
     = (if occupied (hp there)
        then Ok (with_entry W (GridObject._objectID (objs (Action.agent a)))
                   (Action.x a, Action.y a, e.2),
                 hp, Some here)
        else Ok (with_entry W (GridObject._objectID (objs (Action.agent a)))
                   ((destination a).1, (destination a).2, e.2),
                 moved hp here there (Action.agent a), Some there))
  /\ _occupants (moved hp here there (Action.agent a) there)
     = _occupants (hp there) ++ [Action.agent a]
  /\ py_remove (Action.agent a) (_occupants (hp here))
     = Some (_occupants (moved hp here there (Action.agent a) here))
  /\ (forall c, c ≠ here -> c ≠ there ->
        moved hp here there (Action.agent a) c = hp c)
  /\ (forall s, GridObject._currentAction s = Some a ->
        exists s',
          GridAgentMethods.actionResult (moved hp here there (Action.agent a)) s
            (Some there) = Ok s'
          /\ (GridObject.x s', GridObject.y s') = destination a).
Proof.
  intros Hinit Hgrid Htop Hcode Hd [Hx Hy] [Hdx Hdy] [Hpx Hpy] Hhere Hthere Ho He.
  simpl in Hx, Hy.
  destruct (init_spec _ _ _ _ _ _ _ _ _ _ _ Hinit) as (Hlay & _ & Hlinked & _).
  rewrite Hlay in Hgrid.
  set (Hn := Z.to_nat h) in *. set (Wn := Z.to_nat w) in *.
  apply (well_linked_same_topology hp) in Hlinked; [| done].
  pose proof (applyAction_linked base Hn Wn W hp objs Hgrid Hlinked a e Hcode Hd)
    as Happ.
  remember (destination a) as d eqn:Hdest. destruct d as [dx dy].
  cbn [fst snd] in *.
  unfold getLocation in Hhere, Hthere. rewrite Hgrid in Hhere, Hthere.
  apply cell_at_layout_inv in Hhere as (_ & _ & ->); [| lia | lia].
  apply cell_at_layout_inv in Hthere as (_ & _ & ->); [| lia | lia].
  assert (pos base Wn (Z.to_nat (Action.y a)) (Z.to_nat (Action.x a))
          ≠ pos base Wn (Z.to_nat dy) (Z.to_nat dx)) as Hne.
  { intros [H1 H2]%pos_inj; [| lia | lia]. revert Hdest H1 H2.
    unfold destination. intros [= -> ->]. repeat case_bool_decide; lia. }
  split; [done |].
  destruct (moved_spec hp _ _ (Action.agent a) Hne Ho) as (Hm1 & Hm2 & Hm3).
  split_and!; try done.
  - rewrite Happ by (done || lia). clear Happ.
    rewrite bool_decide_eq_true_2 by lia.
    unfold edge. rewrite bool_decide_eq_true_2 by lia. cbn [andb].
    destruct (occupied (hp _)) eqn:Hocc.
    + destruct (bool_decide (capacity _ > 0)); [cbn beta iota; by rewrite Hocc | done].
    + pose proof Hocc as Hroom. apply occupied_false in Hroom.
      pose proof (len_nonneg (_occupants (hp (pos base Wn (Z.to_nat dy) (Z.to_nat dx))))).
      unfold capacity. rewrite bool_decide_eq_true_2 by lia.
      cbn beta iota. by rewrite Hocc.
  - intros s Hcur. unfold GridAgentMethods.actionResult. rewrite Hcur, Hcode.
    unfold Action.move. simpl. rewrite setattr_position. simpl.
    eexists. split; [reflexivity |]. simpl.
    destruct (moved_same_topology hp
                (pos base Wn (Z.to_nat (Action.y a)) (Z.to_nat (Action.x a)))
                (pos base Wn (Z.to_nat dy) (Z.to_nat dx))
                (Action.agent a)
                (pos base Wn (Z.to_nat dy) (Z.to_nat dx)))
      as (-> & -> & _).
    destruct (Hlinked (Z.to_nat dy) (Z.to_nat dx)) as (-> & -> & _); [lia | lia |].
    by rewrite !Z2Nat.id by lia.
Qed.

Lemma move_inside_grid_witness :
  0%nat ≠ 1%nat
  /\ _applyAction small_world.1 small_world.2 (fun _ => (choice 1).1) (choice 1).2
     = (if occupied (small_world.2 1%nat)
        then Ok (with_entry small_world.1 (GridObject._objectID (choice 1).1)
                   (Action.x (choice 1).2, Action.y (choice 1).2, (0, 0, 100%nat).2),
                 small_world.2, Some 0%nat)
        else Ok (with_entry small_world.1 (GridObject._objectID (choice 1).1)
                   ((destination (choice 1).2).1, (destination (choice 1).2).2,
                    (0, 0, 100%nat).2),
                 moved small_world.2 0%nat 1%nat (Action.agent (choice 1).2),
                 Some 1%nat))
  /\ _occupants (moved small_world.2 0%nat 1%nat (Action.agent (choice 1).2) 1%nat)
     = _occupants (small_world.2 1%nat) ++ [Action.agent (choice 1).2]
  /\ py_remove (Action.agent (choice 1).2) (_occupants (small_world.2 0%nat))
     = Some (_occupants
               (moved small_world.2 0%nat 1%nat (Action.agent (choice 1).2) 0%nat))
  /\ (forall c, c ≠ 0%nat -> c ≠ 1%nat ->
        moved small_world.2 0%nat 1%nat (Action.agent (choice 1).2) c
        = small_world.2 c)
  /\ (forall s, GridObject._currentAction s = Some (choice 1).2 ->
        exists s',
          GridAgentMethods.actionResult
            (moved small_world.2 0%nat 1%nat (Action.agent (choice 1).2)) s
            (Some 1%nat) = Ok s'
          /\ (GridObject.x s', GridObject.y s') = destination (choice 1).2).
Proof.
  apply (move_inside_grid 0%nat 0%nat empty_store 2 2 0 1 None None
           (built_world 2 2).1 (built_world 2 2).2 small_world.1 small_world.2
           (fun _ => (choice 1).1) (choice 1).2 (0, 0, 100%nat) 0%nat 1%nat).
  - vm_compute. reflexivity.
  - vm_compute. reflexivity.
  - apply small_world_topology.
  - reflexivity.
  - vm_compute. split; discriminate.
  - split; vm_compute; split; (discriminate || reflexivity).
  - split; vm_compute; split; (discriminate || reflexivity).
  - split; vm_compute; split; (discriminate || reflexivity).
  - vm_compute. reflexivity.
  - vm_compute. reflexivity.
  - vm_compute. apply list_elem_of_here.
  - vm_compute. reflexivity.
Defined.

(** The bounds test of [_applyAction] compares the destination's column
    with the number of rows and its row with the number of columns.  A move
    whose destination fails the test as coded is turned down, the world and
    the cells staying as they are, also when the destination is a free
    cell of the grid and whoever the agent is. *)
Theorem move_failing_bounds_test_rejected (self : world_id) (base : ref)
    (hp0 : ref -> GridPoint.t) (h w mt ui : Z)
    (points occupants : option (gmap (Z * Z) Z))
    (W0 : GridWorld.t) (hpi : ref -> GridPoint.t)
    (W : GridWorld.t) (hp : ref -> GridPoint.t) (objs : obj -> GridObject.t)
    (a : Action.t) (here : ref) :
  init self base hp0 h w mt ui points occupants = Ok (W0, hpi) ->
  _grid W = _grid W0 ->
  Action.actionCode a = Action.move ->
  in_bounds h w (Action.x a, Action.y a) ->
  getLocation W (Action.x a) (Action.y a) = Ok here ->
  ~ in_bounds w h (destination a) ->
  _applyAction W hp objs a = Ok (W, hp, Some here).
Proof.
  intros Hinit Hgrid Hcode [Hx Hy] Hhere Hfail. simpl in Hx, Hy.
  destruct (init_spec _ _ _ _ _ _ _ _ _ _ _ Hinit) as (Hlay & _).
  unfold getLocation in Hhere.
  unfold _applyAction. rewrite Hcode. unfold Action.move.
  rewrite bool_decide_eq_false_2 by lia.
  rewrite bool_decide_eq_true_2 by done.
  destruct (destination a) as [dx dy]. unfold in_bounds in Hfail. simpl in Hfail.
  rewrite Hhere. rewrite Hgrid, Hlay, len_layout.
  assert (py_getitem (layout base (Z.to_nat h) (Z.to_nat w)) 0
          = Ok (seq (base + 0 * Z.to_nat w) (Z.to_nat w))) as ->.
  { rewrite py_getitem_layout by lia. reflexivity. }
  simpl. unfold len. rewrite (length_seq (Z.to_nat w)).
  destruct (bool_decide (dx < 0)) eqn:H1; [done |].
  destruct (bool_decide (dy < 0)) eqn:H2; [done |].
  destruct (bool_decide (dx >= Z.of_nat (Z.to_nat h))) eqn:H3; [done |].
  apply bool_decide_eq_false in H1, H2, H3.
  simpl. rewrite bool_decide_eq_true_2 by lia. done.
Qed.

Lemma move_failing_bounds_test_rejected_witness :
  in_bounds 1 2 (destination (choice 1).2)
  /\ occupied ((built_world 1 2).2 1%nat) = false
  /\ _applyAction (built_world 1 2).1 (built_world 1 2).2
                  (fun _ => (choice 1).1) (choice 1).2
     = Ok ((built_world 1 2).1, (built_world 1 2).2, Some 0%nat).
Proof.
  split; [split; vm_compute; split; (discriminate || reflexivity) |].
  split; [vm_compute; reflexivity |].
  apply (move_failing_bounds_test_rejected 0%nat 0%nat empty_store 1 2 0 1 None None
           (built_world 1 2).1 (built_world 1 2).2 (built_world 1 2).1
           (built_world 1 2).2 (fun _ => (choice 1).1) (choice 1).2 0%nat).
  - vm_compute. reflexivity.
  - reflexivity.
  - reflexivity.
  - split; vm_compute; split; (discriminate || reflexivity).
  - vm_compute. reflexivity.
  - intros [[_ H] _]. vm_compute in H. discriminate H.
Defined.

End MoveTheorems.

(** ** Square worlds never raise *)

Section SquareWorlds.
Import GridPoint GridWorld GridWorldRun.

(** A world with one registered agent that is where the roster says. *)
Lemma single_agent_settled (W : GridWorld.t) (hp : ref -> GridPoint.t)
    (objs : obj -> GridObject.t) (key : nat) (a0 a1 : Z) (o : obj) (here : ref) :
  _agents W = [(key, (a0, a1, o))] ->
  GridObject.cls (objs o) = GridObject.GridAgent_class ->
  GridObject._objectID (objs o) = key ->
  GridObject.x (objs o) = a0 -> GridObject.y (objs o) = a1 ->
  0 <= a0 -> 0 <= a1 ->
  getLocation W a0 a1 = Ok here -> o ∈ _occupants (hp here) ->
  settled W hp objs.
Proof.
  intros Hroster Hcls Hid Hx Hy H0 H1 Hhere Ho key' b0 b1 o' He.
  rewrite Hroster in He. cbn [odict_get] in He.
  destruct (decide (key = key')) as [<- | Hne].
  - rewrite bool_decide_eq_true_2 in He by done. injection He as <- <- <-.
    split_and!; try done. by exists here.
  - rewrite bool_decide_eq_false_2 in He by done. discriminate.
Qed.

Lemma small_world_settled : settled small_world.1 small_world.2 (fun _ => corner_agent).
Proof.
  apply (single_agent_settled _ _ _ 7%nat 0 0 100%nat 0%nat);
    try (vm_compute; reflexivity); try lia.
  vm_compute. apply list_elem_of_here.
Qed.

(** In a square world built by the constructor whose registered agents
    are settled, a tick raises nothing, whatever directions the agents
    draw, and leaves the agents settled: every agent is again in the cell
    at the position that it and the roster hold for it. *)
Theorem tick_never_raises (self : world_id) (base : ref)
    (hp0 : ref -> GridPoint.t) (n mt ui : Z)
    (points occupants : option (gmap (Z * Z) Z))
    (W0 : GridWorld.t) (hpi : ref -> GridPoint.t)
    (W : GridWorld.t) (hp : ref -> GridPoint.t) (objs : obj -> GridObject.t)
    (draws : nat -> Z) :
  init self base hp0 n n mt ui points occupants = Ok (W0, hpi) ->
  _grid W = _grid W0 -> same_topology hp hpi ->
  settled W hp objs ->
  (forall key, 0 <= draws key <= 3) ->
  exists W' hp' objs' more,
    _tick W hp objs draws = Ok (W', hp', objs', more)
    /\ _grid W' = _grid W /\ same_topology hp' hp
    /\ settled W' hp' objs'.
Proof.
  intros Hinit Hgrid Htop Hset Hdraws.
  destruct (init_spec _ _ _ _ _ _ _ _ _ _ _ Hinit) as (Hlay & _ & Hlinked & _).
  apply (well_linked_same_topology hp) in Hlinked; [| done].
  rewrite Hlay in Hgrid.
  destruct (tick_settled base (Z.to_nat n) draws W hp objs Hdraws Hgrid Hlinked Hset)
    as (W' & hp' & objs' & Hrun & _ & Hg & _ & _ & _ & _ & Htop' & _ & Hset').
  eexists W', hp', objs', _. by rewrite Hrun.
Qed.

Lemma tick_never_raises_witness :
  exists W' hp' objs' more,
    _tick small_world.1 small_world.2 (fun _ => corner_agent) (fun _ => 1)
    = Ok (W', hp', objs', more)
    /\ _grid W' = _grid small_world.1 /\ same_topology hp' small_world.2
    /\ settled W' hp' objs'.
Proof.
  apply (tick_never_raises 0%nat 0%nat empty_store 2 0 1 None None
           (built_world 2 2).1 (built_world 2 2).2).
  - vm_compute. reflexivity.
  - vm_compute. reflexivity.
  - apply small_world_topology.
  - apply small_world_settled.
  - intros key. lia.
Defined.

(** [run] in such a world, when [time.sleep] returns for the world's
    waiting time: the loop makes exactly [m] ticks and returns, where [m]
    is the number of ticks that neither the argument [ticks] nor the end of
    time cuts short and that one of the two ends.  The clock has then
    advanced by [m] and the agents are settled. *)
Theorem run_reaches (self : world_id) (base : ref)
    (hp0 : ref -> GridPoint.t) (n mt ui : Z)
    (points occupants : option (gmap (Z * Z) Z))
    (W0 : GridWorld.t) (hpi : ref -> GridPoint.t)
    (W : GridWorld.t) (hp : ref -> GridPoint.t) (objs : obj -> GridObject.t)
    (sleeps : Z -> bool) (draws : Z -> nat -> Z) (ticks : Z) (m fuel : nat) :
  init self base hp0 n n mt ui points occupants = Ok (W0, hpi) ->
  _grid W = _grid W0 -> same_topology hp hpi ->
  settled W hp objs ->
  (forall tc key, 0 <= draws tc key <= 3) ->
  sleeps (_waitTime W) = true ->
  ticks = 0 \/ Z.of_nat m <= ticks ->
  runTime W <= 0 \/ time W + Z.of_nat m <= runTime W ->
  (ticks ≠ 0 /\ Z.of_nat m = ticks)
  \/ (runTime W > 0 /\ time W + Z.of_nat m = runTime W) ->
  (m < fuel)%nat ->
  exists W' hp' objs',
    run fuel sleeps draws W hp objs ticks = Some (Returns (W', hp', objs'))
    /\ time W' = time W + Z.of_nat m
    /\ _grid W' = _grid W /\ same_topology hp' hp
    /\ settled W' hp' objs'.
Proof.
  intros Hinit Hgrid Htop Hset Hdraws Hwait Hticks Hmax Hstop Hfuel.
  destruct (init_spec _ _ _ _ _ _ _ _ _ _ _ Hinit) as (Hlay & _ & Hlinked & _).
  apply (well_linked_same_topology hp) in Hlinked; [| done].
  rewrite Hlay in Hgrid. unfold runTime, time in *.
  destruct (run_loop_reaches base (Z.to_nat n) sleeps draws ticks Hdraws m fuel 0
              W hp objs)
    as (W' & hp' & objs' & Hrun & Ht & Hg & _ & _ & _ & _ & Htop' & _ & Hset');
    try done.
  exists W', hp', objs'. unfold run. by rewrite Hrun.
Qed.

Lemma run_reaches_witness :
  exists W' hp' objs',
    run 3 short_sleeps (fun _ _ => 1) small_world.1 small_world.2
        (fun _ => corner_agent) 2
    = Some (Returns (W', hp', objs'))
    /\ time W' = time small_world.1 + Z.of_nat 2
    /\ _grid W' = _grid small_world.1 /\ same_topology hp' small_world.2
    /\ settled W' hp' objs'.
Proof.
  apply (run_reaches 0%nat 0%nat empty_store 2 0 1 None None
           (built_world 2 2).1 (built_world 2 2).2).
  - vm_compute. reflexivity.
  - vm_compute. reflexivity.
  - apply small_world_topology.
  - apply small_world_settled.
  - intros tc key. lia.
  - vm_compute. reflexivity.
  - right. lia.
  - left. vm_compute. discriminate.
  - left. split; [discriminate | reflexivity].
  - lia.
Defined.

(** [run()] with no number of ticks, in such a world without an end of
    time, when [time.sleep] returns for the world's waiting time: the loop
    never comes to an end, however far it is followed. *)
Theorem run_forever (self : world_id) (base : ref)
    (hp0 : ref -> GridPoint.t) (n mt ui : Z)
    (points occupants : option (gmap (Z * Z) Z))
    (W0 : GridWorld.t) (hpi : ref -> GridPoint.t)
    (W : GridWorld.t) (hp : ref -> GridPoint.t) (objs : obj -> GridObject.t)
    (sleeps : Z -> bool) (draws : Z -> nat -> Z) (fuel : nat) :
  init self base hp0 n n mt ui points occupants = Ok (W0, hpi) ->
  _grid W = _grid W0 -> same_topology hp hpi ->
  settled W hp objs ->
  (forall tc key, 0 <= draws tc key <= 3) ->
  sleeps (_waitTime W) = true ->
  runTime W <= 0 ->
  run fuel sleeps draws W hp objs 0 = None.
Proof.
  intros Hinit Hgrid Htop Hset Hdraws Hwait Hmax.
  destruct (init_spec _ _ _ _ _ _ _ _ _ _ _ Hinit) as (Hlay & _ & Hlinked & _).
  apply (well_linked_same_topology hp) in Hlinked; [| done].
  rewrite Hlay in Hgrid. unfold run.
  by apply (run_loop_forever base (Z.to_nat n) sleeps draws 0 Hdraws fuel).
Qed.

Lemma run_forever_witness :
  run 4 short_sleeps (fun _ _ => 1) small_world.1 small_world.2
      (fun _ => corner_agent) 0
  = None.
Proof.
  apply (run_forever 0%nat 0%nat empty_store 2 0 1 None None
           (built_world 2 2).1 (built_world 2 2).2).
  - vm_compute. reflexivity.
  - vm_compute. reflexivity.
  - apply small_world_topology.
  - apply small_world_settled.
  - intros tc key. lia.
  - vm_compute. reflexivity.
  - vm_compute. discriminate.
Defined.



End SquareWorlds.
